(** * perplexity-completions-mcp: the streaming decoder, the retry policy and
    the request dispatchers, embedded from the TypeScript sources.

    Four entry variants exist in the repository:
    - [index.ts]   stdio server, plain [fetch];
    - [part_001]   stdio server with [retryFetch] and a timeout;
    - [server.ts]  HTTP server, plain [fetch];
    - [part_000]   HTTP server with [retryFetch] and [consumePerplexityStream].

    Text is modelled in its UTF-8 encoded form as [string]: the byte 0x0A
    never occurs inside a multi-byte sequence, so [TextDecoder.decode] with
    [stream: true] followed by a split on newline is the same split of the
    byte sequence; the decoder is therefore the identity on chunks here. *)

From Stdlib Require Import String Ascii List Bool Arith ZArith QArith Lia.
From Stdlib Require Import Floats.PrimFloat.
From Stdlib Require Import Numbers.DecimalString.
Import ListNotations.
Set Warnings "-register-all".
Close Scope Q_scope.
Open Scope list_scope.
Open Scope string_scope.

(* ================================================================== *)
(** * Part I. Definitions *)
(* ================================================================== *)

(** ** JavaScript values as the code meets them *)

Module JS.

(** What [JSON.parse] produces. *)
Inductive json : Type :=
| JNull
| JBool (b : bool)
| JNum (x : float)
| JStr (s : string)
| JArr (items : list json)
| JObj (fields : list (string * json)).

(** A JavaScript value of the program: [None] is [undefined]. *)
Definition value := option json.

(** A thrown exception: [error.name] and [error.message]. *)
Record error := mkError { name : string; message : string }.

(** [new Error(msg)] *)
Definition Error (msg : string) : error := mkError "Error" msg.

(** [String(error)] for an Error instance ([Error.prototype.toString]). *)
Definition String_of_error (e : error) : string :=
  if (name e =? "") then message e
  else if (message e =? "") then name e
  else name e ++ ": " ++ message e.

(** A computation that returns or throws. *)
Inductive result (A : Type) : Type :=
| Ok (a : A)
| Throw (e : error).
Arguments Ok {A} a.
Arguments Throw {A} e.

Definition bind {A B} (c : result A) (k : A -> result B) : result B :=
  match c with
  | Ok a => k a
  | Throw e => Throw e
  end.

(** The parts of the JavaScript engine the program calls and that are not
    code of the repository. The engine words its [TypeError]s from the
    value at fault and from the program text, which the functions below
    are given. *)
Class Runtime := {
  (** [JSON.parse(text)]: the value, or the [SyntaxError] it throws.
      Objects come back with distinct keys. *)
  JSON_parse : string -> result json;
  (** [Number.prototype.toString] *)
  Number_toString : float -> string;
  (** [StringToNumber]: the number a string converts to. *)
  StringToNumber : string -> float;
  (** The [TypeError] raised by reading property [p] of [base], which is
      [null] or [undefined]. *)
  nullish_read : forall (base : value) (p : string), error;
  (** The [TypeError] raised by a destructuring pattern whose first
      property is [p], applied to [base], which is [null] or [undefined]
      and is written [src] in the program. *)
  nullish_destructure : forall (base : value) (p src : string), error;
  (** The [TypeError] raised by calling what the program writes [callee]
      and is not a function. *)
  not_a_function : forall (callee : string), error;
  (** The [TypeError] raised by converting to a primitive an object none
      of whose [toString] and [valueOf] is a function that returns one. *)
  not_primitive : error
}.

(** Truthiness ([if (v)], [!v], [a || b]). *)
Definition truthy (v : value) : bool :=
  match v with
  | None => false
  | Some JNull => false
  | Some (JBool b) => b
  | Some (JNum x) => negb (PrimFloat.eqb x 0%float || PrimFloat.is_nan x)
  | Some (JStr s) => negb (s =? "")
  | Some (JArr _) => true
  | Some (JObj _) => true
  end.

Inductive type_tag :=
| T_undefined | T_object | T_boolean | T_number | T_string.

(** [typeof v] *)
Definition typeof (v : value) : type_tag :=
  match v with
  | None => T_undefined
  | Some JNull => T_object
  | Some (JBool _) => T_boolean
  | Some (JNum _) => T_number
  | Some (JStr _) => T_string
  | Some (JArr _) => T_object
  | Some (JObj _) => T_object
  end.

Fixpoint lookup (k : string) (fields : list (string * json)) : value :=
  match fields with
  | [] => None
  | (k', v) :: rest => if (k =? k') then Some v else lookup k rest
  end.

(** [o[p]] on a value that is neither [null] nor [undefined], for the
    property names the program uses ([query], [choices], [delta], ...:
    none is a built-in property of strings, arrays, numbers or booleans, so
    only an object can hold one). *)
Definition own (o : json) (p : string) : value :=
  match o with
  | JObj fields => lookup p fields
  | _ => None
  end.

Section WithRuntime.
Context {rt : Runtime}.

(** [v.p]: throws on [null] and [undefined]. *)
Definition get (v : value) (p : string) : result value :=
  match v with
  | None | Some JNull => Throw (nullish_read v p)
  | Some o => Ok (own o p)
  end.

(** [const { p, ... } = v], with [v] written [src] in the program: the
    value bound to [p]. The pattern throws once, on [null] and
    [undefined], whatever the number of its properties. *)
Definition destructure (v : value) (src p : string) : result value :=
  match v with
  | None | Some JNull => Throw (nullish_destructure v p src)
  | Some o => Ok (own o p)
  end.

(** [v?.p] *)
Definition get_opt (v : value) (p : string) : value :=
  match v with
  | None => None
  | Some JNull => None
  | Some o => own o p
  end.

(** [v[0]]: throws on [null] and [undefined]; the first element of an
    array, the first character of a string (a string again, which is all
    the program can tell of it), the property ["0"] of an object. *)
Definition index0 (v : value) : result value :=
  match v with
  | None | Some JNull => Throw (nullish_read v "0")
  | Some (JArr items) => Ok (hd_error items)
  | Some (JStr (String c _)) => Ok (Some (JStr (String c "")))
  | Some (JObj fields) => Ok (lookup "0" fields)
  | Some _ => Ok None
  end.

Fixpoint join (sep : string) (parts : list string) : string :=
  match parts with
  | [] => ""
  | [p] => p
  | p :: rest => p ++ sep ++ join sep rest
  end.

(** The values of computations made in order, or what the first of them
    to throw throws. *)
Fixpoint in_order {A : Type} (steps : list (result A)) : result (list A) :=
  match steps with
  | [] => Ok []
  | Throw e :: _ => Throw e
  | Ok a :: rest =>
      match in_order rest with
      | Ok l => Ok (a :: l)
      | Throw e => Throw e
      end
  end.

(** [ToString(v)] of a parsed JSON value, as template literals and the
    string concatenations [s + v] and [s += v] apply it. An array is joined
    with commas ([Array.prototype.toString]), its entries converted in
    order, [null] entries printing as nothing. An object prints as
    ["[object Object]"] through the inherited [toString], unless it has an
    own key [toString]: a parsed value is never a function, the inherited
    [valueOf] returns the object itself, and the conversion throws. *)
Fixpoint ToString_json (v : json) : result string :=
  match v with
  | JNull => Ok "null"
  | JBool true => Ok "true"
  | JBool false => Ok "false"
  | JNum x => Ok (Number_toString x)
  | JStr s => Ok s
  | JArr items =>
      match in_order (map (fun i => match i with
                                    | JNull => Ok ""
                                    | _ => ToString_json i
                                    end) items) with
      | Ok parts => Ok (join "," parts)
      | Throw e => Throw e
      end
  | JObj fields =>
      match lookup "toString" fields with
      | Some _ => Throw not_primitive
      | None => Ok "[object Object]"
      end
  end.

Definition ToString (v : value) : result string :=
  match v with
  | None => Ok "undefined"
  | Some j => ToString_json j
  end.

(** [ToNumber(v)], as the comparison [v > 0] applies it: arrays and
    objects are converted to a primitive first, by the same steps as
    [ToString]. *)
Definition ToNumber (v : value) : result float :=
  match v with
  | None => Ok PrimFloat.nan
  | Some JNull => Ok 0%float
  | Some (JBool b) => Ok (if b then 1%float else 0%float)
  | Some (JNum x) => Ok x
  | Some (JStr s) => Ok (StringToNumber s)
  | Some j =>
      match ToString_json j with
      | Ok s => Ok (StringToNumber s)
      | Throw e => Throw e
      end
  end.

End WithRuntime.

(** Decimal rendering of an array index or a status code. *)
Definition string_of_nat (n : nat) : string :=
  NilEmpty.string_of_uint (Nat.to_uint n).

End JS.
Import JS.

Notation "x <- c ;; k" := (JS.bind c (fun x => k))
  (at level 61, c at next level, right associativity).

(** ** Server-sent events: line splitting and the decode loops *)

Module Sse.

Definition LF : ascii := "010"%char.

(** [s.split("\n")]: the segments between newlines, never an empty list. *)
Fixpoint split_nl (s : string) : list string :=
  match s with
  | EmptyString => [""]
  | String c rest =>
      if Ascii.eqb c LF then "" :: split_nl rest
      else match split_nl rest with
           | [] => [String c ""]
           | seg :: segs => String c seg :: segs
           end
  end.

(** White space that [String.prototype.trim] strips (the one-byte code
    points: TAB, LF, VT, FF, CR, SPACE). *)
Definition is_space (c : ascii) : bool :=
  match nat_of_ascii c with
  | 9 | 10 | 11 | 12 | 13 | 32 => true
  | _ => false
  end.

(** [!line.trim()]: the line is empty once trimmed. A line made only of
    multi-byte white space is not blank here; the loops skip it all the
    same, by the prefix test that follows in the same condition. *)
Fixpoint trim_is_empty (line : string) : bool :=
  match line with
  | EmptyString => true
  | String c rest => is_space c && trim_is_empty rest
  end.

(** [line.startsWith(p)] *)
Definition startsWith (p line : string) : bool := String.prefix p line.

(** [line.slice(n)] *)
Fixpoint slice (n : nat) (line : string) : string :=
  match n, line with
  | 0, _ => line
  | S _, EmptyString => ""
  | S m, String _ rest => slice m rest
  end.

Definition data_prefix : string := "data: ".
Definition DONE : string := "[DONE]".

(** What the body of the [for (const line of lines)] loop does next. *)
Inductive flow := Continue | Break.

(** [for (const line of lines) { ... }] with a body that ends in
    [continue] or [break]. *)
Fixpoint for_lines {A : Type} (body : A -> string -> A * flow)
  (acc : A) (lines : list string) : A :=
  match lines with
  | [] => acc
  | line :: rest =>
      match body acc line with
      | (acc', Break) => acc'
      | (acc', Continue) => for_lines body acc' rest
      end
  end.

(** One iteration of [while (true)] after a successful read:
    [buffer += chunk; lines = buffer.split("\n"); buffer = lines.pop() || "";]
    then the [for] loop over [lines]. *)
Definition read {A : Type} (body : A -> string -> A * flow)
  (st : string * A) (chunk : string) : string * A :=
  let buffer := fst st ++ chunk in
  let lines := split_nl buffer in
  (last lines "", for_lines body (snd st) (removelast lines)).

Section WithRuntime.
Context {rt : Runtime}.

(** [chunk.choices[0]?.delta?.content] *)
Definition chunk_delta (chunk : json) : result value :=
  choices <- get (Some chunk) "choices" ;;
  first <- index0 choices ;;
  Ok (get_opt (get_opt first "delta") "content").

(** One entry of [results.forEach] in [formatSearchResults]: the text
    the four [formatted += ...] statements append, each template literal
    reading its property and converting it in turn. *)
Definition format_entry (index : nat) (entry : json) : result string :=
  title <- get (Some entry) "title" ;;
  title <- ToString title ;;
  url <- get (Some entry) "url" ;;
  url <- ToString url ;;
  snippet <- get (Some entry) "snippet" ;;
  snippet_line <- (if truthy snippet
                   then s <- ToString snippet ;; Ok ("   " ++ s ++ String LF "")
                   else Ok "") ;;
  Ok (string_of_nat (index + 1) ++ ". **" ++ title ++ "**" ++ String LF ""
      ++ "   " ++ url ++ String LF ""
      ++ snippet_line
      ++ String LF "").

Fixpoint format_entries (index : nat) (entries : list json) (formatted : string)
  : result string :=
  match entries with
  | [] => Ok formatted
  | entry :: rest =>
      line <- format_entry index entry ;;
      format_entries (S index) rest (formatted ++ line)
  end.

(** [formatSearchResults(results)]: [results.length] and
    [results.forEach] are read off whatever value arrives. *)
Definition formatSearchResults (results : value) : result string :=
  if negb (truthy results) then Ok ""
  else
    match results with
    | Some (JArr []) => Ok ""
    | Some (JArr entries) =>
        format_entries 0 entries
          (String LF (String LF "## Sources") ++ String LF (String LF ""))
    | Some (JObj fields) =>
        match lookup "length" fields with
        | Some (JNum x) =>
            if PrimFloat.eqb x 0%float then Ok ""
            else Throw (not_a_function "results.forEach")
        | _ => Throw (not_a_function "results.forEach")
        end
    | _ => Throw (not_a_function "results.forEach")
    end.

(** *** [handleStreamingResponse] (index.ts, part_001, server.ts) *)

Record handle_acc := mkHandle {
  h_content : string;
  h_searchResults : value
}.

(** [if (delta) content += delta]: the text after the statement. *)
Definition append_delta (content : string) (delta : value) : result string :=
  if truthy delta then s <- ToString delta ;; Ok (content ++ s) else Ok content.

(** The statements inside [try { ... }] for a parsed chunk. *)
Definition handle_chunk (acc : handle_acc) (chunk : json) : result handle_acc :=
  delta <- chunk_delta chunk ;;
  content <- append_delta (h_content acc) delta ;;
  let sr := own chunk "search_results" in
  Ok (mkHandle content (if truthy sr then sr else h_searchResults acc)).

(** A decoded record under [try { ... } catch (e) { continue; }]: nothing
    is assigned before the statement that can throw. *)
Definition handle_record (acc : handle_acc) (chunk : json) : handle_acc :=
  match handle_chunk acc chunk with
  | Ok acc' => acc'
  | Throw _ => acc
  end.

(** One iteration of the [for] loop. *)
Definition handle_line (acc : handle_acc) (line : string) : handle_acc * flow :=
  if trim_is_empty line || negb (startsWith data_prefix line) then (acc, Continue)
  else
    let data := slice 6 line in
    if (data =? DONE) then (acc, Break)
    else
      match JSON_parse data with
      | Ok chunk => (handle_record acc chunk, Continue)
      | Throw _ => (acc, Continue)
      end.

Definition handle_init : string * handle_acc := ("", mkHandle "" None).

(** The [while] loop over all the chunks the reader delivers. *)
Definition handle_loop (chunks : list string) : string * handle_acc :=
  fold_left (read handle_line) chunks handle_init.

(** *** [consumePerplexityStream] (part_000) *)

Record consume_acc := mkConsume {
  c_content : string;
  c_searchResults : value;
  c_lastChunk : value
}.

(** A decoded record: [lastChunk = chunk] is assigned first and stays
    when a later statement throws. *)
Definition consume_record (acc : consume_acc) (chunk : json) : consume_acc :=
  let acc0 := mkConsume (c_content acc) (c_searchResults acc) (Some chunk) in
  match (delta <- chunk_delta chunk ;; append_delta (c_content acc) delta) with
  | Throw _ => acc0
  | Ok content =>
      let sr := own chunk "search_results" in
      mkConsume content
                (if truthy sr && negb (truthy (c_searchResults acc))
                 then sr else c_searchResults acc)
                (Some chunk)
  end.

Definition consume_line (acc : consume_acc) (line : string) : consume_acc * flow :=
  if trim_is_empty line || negb (startsWith data_prefix line) then (acc, Continue)
  else
    let data := slice 6 line in
    if (data =? DONE) then (acc, Break)
    else
      match JSON_parse data with
      | Ok chunk => (consume_record acc chunk, Continue)
      | Throw _ => (acc, Continue)
      end.

Definition consume_init : string * consume_acc := ("", mkConsume "" None None).

Definition consume_loop (chunks : list string) : string * consume_acc :=
  fold_left (read consume_line) chunks consume_init.

End WithRuntime.
End Sse.

(** ** The upstream HTTP exchange *)

Module Net.

(** A response body as the reader delivers it: the decoded chunks in
    order, then either the end of the stream or a rejected read. *)
Record Body := mkBody {
  chunks : list string;
  failure : option error
}.

(** A fetch [Response]; [body] is [None] when [response.body] is [null]. *)
Record Response := mkResponse {
  status : nat;
  statusText : string;
  body : option Body
}.

(** [response.ok] *)
Definition ok (r : Response) : bool := Nat.leb 200 (status r) && Nat.leb (status r) 299.

(** The object [body] that [performSearch] builds and hands to
    [JSON.stringify]; an absent key is [None]. [b_content] is
    [messages[0].content], whatever value [query] holds, and
    [b_search_context_size] is [web_search_options.search_context_size]. *)
Record RequestBody := mkRequestBody {
  b_model : string;
  b_content : value;
  b_stream : bool;
  b_search_mode : option string;
  b_recency_filter : option string;
  b_reasoning_effort : option string;
  b_max_tokens : option float;
  b_temperature : option float;
  b_search_context_size : option string
}.

(** The [options] argument of [performSearch]; [None] is [undefined]. *)
Record Options := mkOptions {
  o_model : option string;
  o_stream : option bool;
  o_search_mode : option string;
  o_recency_filter : option string;
  o_reasoning_effort : option string;
  o_max_tokens : option float;
  o_temperature : option float;
  o_search_context_size : option string;
  o_timeout : option float
}.

(** A number as [JSON.stringify] writes it, given as the value the
    written token denotes: [null] for a number that is not finite, [0] for
    negative zero, and for every other number the digits that read back
    as the same number. *)
Definition number_token (x : float) : json :=
  if PrimFloat.is_nan x || PrimFloat.is_infinity x then JNull
  else if PrimFloat.eqb x 0%float then JNum 0%float
  else JNum x.

(** [JSON.stringify(v)] of a parsed value, as the document the text
    denotes. A parsed value has no [toJSON] that is a function. *)
Fixpoint document (v : json) : json :=
  match v with
  | JNum x => number_token x
  | JArr items => JArr (map document items)
  | JObj fields =>
      JObj ((fix members (fields : list (string * json)) : list (string * json) :=
               match fields with
               | [] => []
               | (k, v) :: rest => (k, document v) :: members rest
               end) fields)
  | _ => v
  end.

(** A key that is written only when its value is not [undefined]. *)
Definition member (k : string) (v : option json) : list (string * json) :=
  match v with
  | Some j => [(k, j)]
  | None => []
  end.

(** [JSON.stringify(body)]: the document sent as the body of the POST,
    its keys in the order [performSearch] assigns them. *)
Definition JSON_stringify (b : RequestBody) : json :=
  JObj ([("model", JStr (b_model b));
         ("messages",
          JArr [JObj (("role", JStr "user")
                      :: member "content" (option_map document (b_content b)))]);
         ("stream", JBool (b_stream b))]
        ++ member "search_mode" (option_map JStr (b_search_mode b))
        ++ member "recency_filter" (option_map JStr (b_recency_filter b))
        ++ member "reasoning_effort" (option_map JStr (b_reasoning_effort b))
        ++ member "max_tokens" (option_map number_token (b_max_tokens b))
        ++ member "temperature" (option_map number_token (b_temperature b))
        ++ member "web_search_options"
             (option_map (fun size => JObj [("search_context_size", JStr size)])
                         (b_search_context_size b))).

(** The network as one request sees it: the outcome of its k-th call
    (k = 0, 1, ...) for the body it is given, and whether the abort signal
    is already set when attempt k begins. *)
Record Env := mkEnv {
  fetch : nat -> RequestBody -> result Response;
  aborted : nat -> bool
}.

Section WithRuntime.
Context {rt : Runtime}.

(** [await response.text()] *)
Definition text (r : Response) : result string :=
  match body r with
  | None => Ok ""
  | Some b =>
      match failure b with
      | Some e => Throw e
      | None => Ok (String.concat "" (chunks b))
      end
  end.

(** [await response.json()] *)
Definition json_of (r : Response) : result json :=
  t <- text r ;; JSON_parse t.

End WithRuntime.
End Net.
Import Net.

(** ** [retryFetch] (part_000 and part_001, the same text) *)

Module Retry.

Definition RETRYABLE_STATUS : list nat := [408; 429; 500; 502; 503; 504].

(** [RETRYABLE_STATUS.has(status)] *)
Definition has (set : list nat) (x : nat) : bool := existsb (Nat.eqb x) set.

(** How a call of [retryFetch] ends. [Unexpected] is the statement after
    the loop, [throw new Error('retryFetch reached unexpected state')];
    [OutOfFuel] belongs to the model only. *)
Inductive exit :=
| Returned (r : Response)
| Raised (e : error)
| Unexpected
| OutOfFuel.

Definition AbortError : error := mkError "AbortError" "Request aborted".

(** [error instanceof Error && error.name === 'AbortError'] *)
Definition is_abort (e : error) : bool := (name e =? "AbortError").

(** The value of the parameter [maxAttempts], a JavaScript number: [NaN],
    an infinity, or a finite double, which is a rational. The loop counter
    [attempt] starts at 0 and is incremented by 1: it is a natural number,
    exactly, below 2^53, and so is [maxAttempts - 1] whenever a counter in
    that range can equal it. *)
Inductive number :=
| NaN
| Infinity (negative : bool)
| Finite (q : Q).

(** An integer as a number. *)
Definition of_nat (n : nat) : number := Finite (inject_Z (Z.of_nat n)).
Coercion of_nat : nat >-> number.

(** [attempt < maxAttempts] *)
Definition less (attempt : nat) (maxAttempts : number) : bool :=
  match maxAttempts with
  | NaN => false
  | Infinity negative => negb negative
  | Finite q => negb (Qle_bool q (inject_Z (Z.of_nat attempt)))
  end.

(** [attempt === maxAttempts - 1] *)
Definition is_last (attempt : nat) (maxAttempts : number) : bool :=
  match maxAttempts with
  | Finite q => Qeq_bool (inject_Z (Z.of_nat attempt)) (Qminus q (inject_Z 1))
  | _ => false
  end.

Section Loop.
Variable attempt_outcome : nat -> result Response.
Variable signal_aborted : nat -> bool.
Variable maxAttempts : number.

(** The [for] loop from [attempt] on; the second component counts the
    network calls made. The backoff sleep between two attempts
    ([baseDelayMs * 2^attempt] plus jitter) changes no value. [fuel]
    bounds the number of times the loop test is evaluated. *)
Fixpoint loop (fuel attempt : nat) : exit * nat :=
  match fuel with
  | 0 => (OutOfFuel, 0)
  | S fuel' =>
      if less attempt maxAttempts then
        if signal_aborted attempt then (Raised AbortError, 0)
        else
          match attempt_outcome attempt with
          | Ok response =>
              if ok response || negb (has RETRYABLE_STATUS (status response))
              then (Returned response, 1)
              else if is_last attempt maxAttempts then (Returned response, 1)
              else let (e, n) := loop fuel' (S attempt) in (e, S n)
          | Throw error =>
              if is_abort error then (Raised error, 1)
              else if is_last attempt maxAttempts then (Raised error, 1)
              else let (e, n) := loop fuel' (S attempt) in (e, S n)
          end
      else (Unexpected, 0)
  end.

(** [retryFetch(url, options, maxAttempts, baseDelayMs)] *)
Definition retryFetch (fuel : nat) : exit * nat := loop fuel 0.

End Loop.
End Retry.

(** ** What the dispatchers hand back *)

Module Reply.

(** The replies are the objects the handlers build, before [res.json] or
    the stdio transport serialises them. *)

(** An entry of a [content] array. *)
Inductive item :=
| Text (text : value)                (* {type: 'text', text} *)
| Resource (results : value).        (* {type: 'resource', resource: {type: 'search_results', results}} *)

(** The result of the stdio tool handler. *)
Record CallToolResult := mkResult {
  content : list item;
  isError : bool
}.

(** An event of the re-emitted stream of server.ts. *)
Inductive event :=
| EContent (delta : value)           (* {type: 'content', content: delta} *)
| ECitations (citations : string)    (* {type: 'citations', content} *)
| EError (msg : string)              (* {type: 'error', content} *)
| EDone.                             (* data: [DONE] *)

Inductive rpc_code :=
| ParseError                         (* -32700 *)
| MethodNotFound                     (* -32601 *)
| InternalError.                     (* -32603 *)

(** The JSON (or event stream) an HTTP handler writes. *)
Inductive payload :=
| RpcResult (id : value) (content : list item)
| RpcInitialize (id : value)
| RpcToolsList (id : value)
| RpcError (id : value) (code : rpc_code) (msg : string)
| ToolResult (content : list item) (isError : bool)
| ToolError (error : string) (isError : bool)
| Events (events : list event).

(** What the caller of an HTTP endpoint gets: a status code with a
    payload, or nothing when the handler's promise rejects outside its
    [try]. *)
Inductive http :=
| Sent (code : nat) (p : payload)
| Unanswered (e : error).

End Reply.
Import Reply.

(** ** The functions that drain a streaming [Response] *)

Module Drain.
Import Sse.

Section WithRuntime.
Context {rt : Runtime}.

(** [searchResults ? formatSearchResults(searchResults) : ""] *)
Definition citations_of (searchResults : value) : result string :=
  if truthy searchResults then formatSearchResults searchResults else Ok "".

(** [handleStreamingResponse(response)] *)
Definition handleStreamingResponse (response : Response) : result string :=
  match body response with
  | None => Throw (Error "Response body is not readable")
  | Some b =>
      let acc := snd (handle_loop (chunks b)) in
      match failure b with
      | Some e => Throw e
      | None =>
          citations <- citations_of (h_searchResults acc) ;;
          Ok (h_content acc ++ citations)
      end
  end.

(** The object [consumePerplexityStream] returns;
    [cc_content] is [choices[0].message.content]. *)
Record ChatCompletion := mkCompletion {
  cc_id : value;
  cc_model : value;
  cc_content : string;
  cc_search_results : value;
  cc_usage : value
}.

(** [a || b] *)
Definition or_else (a : value) (b : json) : value :=
  if truthy a then a else Some b.

Definition placeholder : string := "No response generated.".

(** The log line after the loop,
    [`... ${content.length} chars, ${searchResults?.length || 0} sources`]:
    what it prints is not kept, but the conversion of the second value can
    throw. The length of an array or of a string is a number; a number or
    a boolean has none; an object has the value under its key [length]. *)
Definition log_sources (searchResults : value) : result unit :=
  match searchResults with
  | Some (JObj fields) =>
      if truthy (lookup "length" fields)
      then _ <- ToString (lookup "length" fields) ;; Ok tt
      else Ok tt
  | _ => Ok tt
  end.

(** [consumePerplexityStream(perplexityResponse)] *)
Definition consumePerplexityStream (response : Response) : result ChatCompletion :=
  match body response with
  | None => Throw (Error "Response body is not readable")
  | Some b =>
      let acc := snd (consume_loop (chunks b)) in
      match failure b with
      | Some e => Throw e
      | None =>
          _ <- log_sources (c_searchResults acc) ;;
          Ok (mkCompletion
                (or_else (get_opt (c_lastChunk acc) "id") (JStr "unknown"))
                (or_else (get_opt (c_lastChunk acc) "model") (JStr "sonar"))
                (if (c_content acc =? "") then placeholder else c_content acc)
                (c_searchResults acc)
                (get_opt (c_lastChunk acc) "usage"))
      end
  end.

(** [v.length > 0] *)
Definition length_positive (v : value) : result bool :=
  match v with
  | Some (JArr items) => Ok (negb (Nat.eqb (List.length items) 0))
  | Some (JStr s) => Ok (negb (s =? ""))
  | Some (JObj fields) =>
      x <- ToNumber (lookup "length" fields) ;; Ok (PrimFloat.ltb 0%float x)
  | _ => Ok false
  end.

(** [v && v.length > 0] *)
Definition listed (v : value) : result bool :=
  if truthy v then length_positive v else Ok false.

(** The [content] array built from a consumed stream (part_000, both
    endpoints). *)
Definition content_of_completion (c : ChatCompletion) : result (list item) :=
  sources <- listed (cc_search_results c) ;;
  Ok ((if negb (cc_content c =? "") then [Text (Some (JStr (cc_content c)))] else [])
      ++ (if sources then [Resource (cc_search_results c)] else []))%list.

End WithRuntime.
End Drain.
Import Drain.

(** ** Decoding of the tool arguments *)

Module Args.

(** [typeof v === 'string' ? v : undefined] *)
Definition as_string (v : value) : option string :=
  match v with Some (JStr s) => Some s | _ => None end.

(** [typeof v === 'boolean' ? v : undefined] *)
Definition as_boolean (v : value) : option bool :=
  match v with Some (JBool b) => Some b | _ => None end.

(** [typeof v === 'number' ? v : undefined] *)
Definition as_number (v : value) : option float :=
  match v with Some (JNum x) => Some x | _ => None end.

(** [if (s) body.k = s]: a string option is forwarded when truthy. *)
Definition when_truthy_string (s : option string) : option string :=
  match s with
  | Some t => if (t =? "") then None else Some t
  | None => None
  end.

(** [if (x) body.k = x] for a number. *)
Definition when_truthy_number (x : option float) : option float :=
  match x with
  | Some n => if truthy (Some (JNum n)) then Some n else None
  | None => None
  end.

Definition TOOL : string := "perplexity-completions".

End Args.
Import Args.

(** ** index.ts: the stdio server without retry *)

Module Index.
Import Sse.

Section WithRuntime.
Context {rt : Runtime}.

(** The [body] object [performSearch] builds. *)
Definition request_body (query : value) (options : Options) : RequestBody :=
  {| b_model := match when_truthy_string (o_model options) with
                | Some m => m
                | None => "sonar"
                end;
     b_content := query;
     b_stream := match o_stream options with
                 | Some b => b
                 | None => false
                 end;
     b_search_mode := when_truthy_string (o_search_mode options);
     b_recency_filter := when_truthy_string (o_recency_filter options);
     b_reasoning_effort := when_truthy_string (o_reasoning_effort options);
     b_max_tokens := when_truthy_number (o_max_tokens options);
     b_temperature := o_temperature options;
     b_search_context_size := None |}.

(** The non-streaming tail of [performSearch]:
    [data.choices[0]?.message?.content || "No response generated."]
    followed by the formatted citations. *)
Definition buffered_answer (data : json) : result string :=
  choices <- get (Some data) "choices" ;;
  first <- index0 choices ;;
  let content :=
    or_else (get_opt (get_opt first "message") "content") (JStr placeholder) in
  citations <- citations_of (own data "search_results") ;;
  content <- ToString content ;;
  Ok (content ++ citations).

(** What [performSearch] throws for a response that is not ok. *)
Definition upstream_error (response : Response) : error :=
  let errorText := match text response with
                   | Ok t => t
                   | Throw _ => "Unable to parse error response"
                   end in
  Error ("Perplexity API error: " ++ string_of_nat (status response) ++ " "
         ++ statusText response ++ String LF "" ++ errorText).

(** [performSearch(query, options)] with the requests it sent. *)
Definition performSearch (env : Env) (query : value) (options : Options)
  : result string * list RequestBody :=
  let body := request_body query options in
  (match fetch env 0 body with
   | Throw error =>
       Throw (Error ("Network error while calling Perplexity API: "
                     ++ String_of_error error))
   | Ok response =>
       if negb (ok response) then Throw (upstream_error response)
       else if b_stream body then handleStreamingResponse response
       else
         match json_of response with
         | Throw jsonError =>
             Throw (Error ("Failed to parse JSON response: "
                           ++ String_of_error jsonError))
         | Ok data => buffered_answer data
         end
   end, [body]).

(** The options object the handler passes. *)
Definition options_of (args : value) : Options :=
  {| o_model := as_string (get_opt args "model");
     o_stream := as_boolean (get_opt args "stream");
     o_search_mode := as_string (get_opt args "search_mode");
     o_recency_filter := as_string (get_opt args "recency_filter");
     o_reasoning_effort := as_string (get_opt args "reasoning_effort");
     o_max_tokens := as_number (get_opt args "max_tokens");
     o_temperature := as_number (get_opt args "temperature");
     o_search_context_size := None;
     o_timeout := None |}.

(** The handler's [catch]: the error as a result. *)
Definition error_result (e : error) : CallToolResult :=
  mkResult [Text (Some (JStr ("Error: " ++ message e)))] true.

(** The [CallToolRequestSchema] handler on [request.params]. The SDK
    hands over only requests that fit the schema: [name] is a string. *)
Definition CallTool (env : Env) (name : string) (args : value)
  : CallToolResult * list RequestBody :=
  if negb (truthy args) then (error_result (Error "No arguments provided"), [])
  else if (name =? TOOL) then
    match typeof (get_opt args "query") with
    | T_string =>
        let (r, sent) := performSearch env (get_opt args "query") (options_of args) in
        match r with
        | Ok answer => (mkResult [Text (Some (JStr answer))] false, sent)
        | Throw e => (error_result e, sent)
        end
    | _ =>
        (error_result
           (Error "Invalid arguments for perplexity-completions: 'query' must be a string"),
         [])
    end
  else (mkResult [Text (Some (JStr ("Unknown tool: " ++ name)))] true, []).

End WithRuntime.
End Index.

(** ** part_001: the stdio server with retry and a deadline *)

Module Part001.
Import Sse.

Section WithRuntime.
Context {rt : Runtime}.

Definition request_body (query : value) (options : Options) : RequestBody :=
  {| b_model := match when_truthy_string (o_model options) with
                | Some m => m
                | None => "sonar"
                end;
     b_content := query;
     b_stream := match o_stream options with
                 | Some b => b
                 | None => true
                 end;
     b_search_mode := when_truthy_string (o_search_mode options);
     b_recency_filter := when_truthy_string (o_recency_filter options);
     b_reasoning_effort := when_truthy_string (o_reasoning_effort options);
     b_max_tokens := when_truthy_number (o_max_tokens options);
     b_temperature := o_temperature options;
     b_search_context_size := when_truthy_string (o_search_context_size options) |}.

(** [options.timeout || 15000] *)
Definition timeout_of (options : Options) : float :=
  match when_truthy_number (o_timeout options) with
  | Some t => t
  | None => 15000%float
  end.

(** The [catch] around [retryFetch]. *)
Definition fetch_error (options : Options) (error : error) : JS.error :=
  if Retry.is_abort error
  then Error ("Perplexity API timeout after "
              ++ Number_toString (timeout_of options) ++ "ms")
  else Error ("Network error while calling Perplexity API: "
              ++ String_of_error error).

(** [retryFetch(url, {...}, 2, 300)] as [performSearch] calls it, [body]
    being what [JSON.stringify] is applied to; with two attempts the loop
    test is evaluated three times at most. *)
Definition send (env : Env) (body : RequestBody) : Retry.exit * nat :=
  Retry.retryFetch (fun k => fetch env k body) (aborted env) (Retry.of_nat 2) 3.

Definition performSearch (env : Env) (query : value) (options : Options)
  : result string * list RequestBody :=
  let body := request_body query options in
  let (e, n) := send env body in
  (match e with
   | Retry.Raised error => Throw (fetch_error options error)
   | Retry.Unexpected | Retry.OutOfFuel =>
       Throw (fetch_error options (Error "retryFetch reached unexpected state"))
   | Retry.Returned response =>
       if negb (ok response) then Throw (Index.upstream_error response)
       else if b_stream body then handleStreamingResponse response
       else
         match json_of response with
         | Throw jsonError =>
             Throw (Error ("Failed to parse JSON response: "
                           ++ String_of_error jsonError))
         | Ok data => Index.buffered_answer data
         end
   end, repeat body n).

Definition options_of (args : value) : Options :=
  {| o_model := as_string (get_opt args "model");
     o_stream := as_boolean (get_opt args "stream");
     o_search_mode := as_string (get_opt args "search_mode");
     o_recency_filter := as_string (get_opt args "recency_filter");
     o_reasoning_effort := as_string (get_opt args "reasoning_effort");
     o_max_tokens := as_number (get_opt args "max_tokens");
     o_temperature := as_number (get_opt args "temperature");
     o_search_context_size := as_string (get_opt args "search_context_size");
     o_timeout := None |}.

Definition CallTool (env : Env) (name : string) (args : value)
  : CallToolResult * list RequestBody :=
  if negb (truthy args)
  then (Index.error_result (Error "No arguments provided"), [])
  else if (name =? TOOL) then
    match typeof (get_opt args "query") with
    | T_string =>
        let (r, sent) := performSearch env (get_opt args "query") (options_of args) in
        match r with
        | Ok answer => (mkResult [Text (Some (JStr answer))] false, sent)
        | Throw e => (Index.error_result e, sent)
        end
    | _ =>
        (Index.error_result
           (Error "Invalid arguments for perplexity-completions: 'query' must be a string"),
         [])
    end
  else (mkResult [Text (Some (JStr ("Unknown tool: " ++ name)))] true, []).

End WithRuntime.
End Part001.

(** ** server.ts: the HTTP server without retry *)

Module Server.
Import Sse.

Section WithRuntime.
Context {rt : Runtime}.

(** [performSearch]: the open [Response] when streaming, the formatted
    answer otherwise. The body is built by the same statements as in
    index.ts. *)
Definition performSearch (env : Env) (query : value) (options : Options)
  : result (Response + string) * list RequestBody :=
  let body := Index.request_body query options in
  (match fetch env 0 body with
   | Throw error =>
       Throw (Error ("Network error while calling Perplexity API: "
                     ++ String_of_error error))
   | Ok response =>
       if negb (ok response) then Throw (Index.upstream_error response)
       else if b_stream body then Ok (inl response)
       else
         match json_of response with
         | Throw jsonError =>
             Throw (Error ("Failed to parse JSON response: "
                           ++ String_of_error jsonError))
         | Ok data => answer <- Index.buffered_answer data ;; Ok (inr answer)
         end
   end, [body]).

(** *** [streamPerplexityToSSE] *)

(** The statements shared by the [[DONE]] branch and the end of the
    stream: the citations event when there are search results, then the
    terminal marker; a throw lands in the function's [catch]. *)
Definition closing (searchResults : value) : list event :=
  if truthy searchResults then
    match formatSearchResults searchResults with
    | Ok citations => [ECitations citations; EDone]
    | Throw e => [EError (String_of_error e)]
    end
  else [EDone].

(** One line of the inner loop: the search results, the events written
    so far, and whether the function returned at [[DONE]]. *)
Definition sse_line (st : value * list event) (line : string)
  : (value * list event) * bool :=
  if trim_is_empty line || negb (startsWith data_prefix line) then (st, false)
  else
    let data := slice 6 line in
    if (data =? DONE) then ((fst st, (snd st ++ closing (fst st))%list), true)
    else
      match (chunk <- JSON_parse data ;;
             delta <- chunk_delta chunk ;;
             Ok (chunk, delta)) with
      | Throw _ => (st, false)
      | Ok (chunk, delta) =>
          let written :=
            if truthy delta then (snd st ++ [EContent delta])%list else snd st in
          let sr := own chunk "search_results" in
          ((if truthy sr then sr else fst st, written), false)
      end.

Fixpoint sse_lines (st : value * list event) (lines : list string)
  : (value * list event) * bool :=
  match lines with
  | [] => (st, false)
  | line :: rest =>
      match sse_line st line with
      | (st', true) => (st', true)
      | (st', false) => sse_lines st' rest
      end
  end.

Fixpoint sse_reads (buffer : string) (st : value * list event)
  (chunks : list string) (failure : option error) : list event :=
  match chunks with
  | [] =>
      match failure with
      | Some e => (snd st ++ [EError (String_of_error e)])%list
      | None => (snd st ++ closing (fst st))%list
      end
  | chunk :: rest =>
      let lines := split_nl (buffer ++ chunk) in
      match sse_lines st (removelast lines) with
      | (st', true) => snd st'
      | (st', false) => sse_reads (last lines "") st' rest failure
      end
  end.

(** [streamPerplexityToSSE(perplexityResponse, expressRes)]: the events
    written, or the error thrown before the [try]. *)
Definition streamPerplexityToSSE (response : Response) : result (list event) :=
  match body response with
  | None => Throw (Error "Response body is not readable")
  | Some b => Ok (sse_reads "" (None, []) (chunks b) (failure b))
  end.

(** [return streamPerplexityToSSE(result, res)] inside the handler's
    [try]: the promise is returned, not awaited, so its rejection is not
    caught there. *)
Definition streamed (response : Response) : http :=
  match streamPerplexityToSSE response with
  | Ok events => Sent 200 (Events events)
  | Throw e => Unanswered e
  end.

Definition options_of (args : value) (shouldStream : bool) : Options :=
  {| o_model := as_string (get_opt args "model");
     o_stream := Some shouldStream;
     o_search_mode := as_string (get_opt args "search_mode");
     o_recency_filter := as_string (get_opt args "recency_filter");
     o_reasoning_effort := as_string (get_opt args "reasoning_effort");
     o_max_tokens := as_number (get_opt args "max_tokens");
     o_temperature := as_number (get_opt args "temperature");
     o_search_context_size := None;
     o_timeout := None |}.

(** [typeof stream === 'boolean' ? stream : false] *)
Definition shouldStream_of (args : value) : bool :=
  match as_boolean (get_opt args "stream") with
  | Some b => b
  | None => false
  end.

(** [value === 'text'] *)
Definition is_string (v : value) (s : string) : bool :=
  match v with
  | Some (JStr t) => (t =? s)
  | _ => false
  end.

(** The [tools/call] branch of [app.post('/mcp')] for this tool, from the
    inner [try] on. ([performSearch] hands back a [Response] only when
    [shouldStream] holds; the other reading of that case serialises the
    object as it is.) *)
Definition tools_call (env : Env) (id args : value) : http * list RequestBody :=
  match destructure args "args" "query" with
  | Throw e => (Sent 200 (RpcError id InternalError (message e)), [])
  | Ok query =>
      let shouldStream := shouldStream_of args in
      let (r, sent) := performSearch env query (options_of args shouldStream) in
      (match r with
       | Throw e => Sent 200 (RpcError id InternalError (message e))
       | Ok (inl response) =>
           if shouldStream then streamed response
           else Sent 200 (RpcResult id [Text (Some (JObj []))])
       | Ok (inr answer) => Sent 200 (RpcResult id [Text (Some (JStr answer))])
       end, sent)
  end.

(** What the outer [catch] of [app.post('/mcp')] answers. *)
Definition parse_error : http :=
  Sent 400 (RpcError (Some JNull) ParseError "Parse error").

(** An answer whose message is a template literal over [v], built inside
    the outer [try] of [app.post('/mcp')]. *)
Definition not_found (id : value) (what : string) (v : value) : http :=
  match ToString v with
  | Ok s => Sent 200 (RpcError id MethodNotFound (what ++ s))
  | Throw _ => parse_error
  end.

(** [app.post('/mcp')] on [req.body]. *)
Definition mcp (env : Env) (req_body : value) : http * list RequestBody :=
  match (method <- destructure req_body "req.body" "method" ;;
         params <- destructure req_body "req.body" "params" ;;
         id <- destructure req_body "req.body" "id" ;;
         Ok (method, params, id)) with
  | Throw _ => (parse_error, [])
  | Ok (method, params, id) =>
      if is_string method "initialize" then (Sent 200 (RpcInitialize id), [])
      else if is_string method "tools/list" then (Sent 200 (RpcToolsList id), [])
      else if is_string method "tools/call" then
        match (name <- destructure params "params" "name" ;;
               args <- destructure params "params" "arguments" ;;
               Ok (name, args)) with
        | Throw _ => (parse_error, [])
        | Ok (name, args) =>
            if is_string name TOOL then tools_call env id args
            else (not_found id "Unknown tool: " name, [])
        end
      else (not_found (or_else id JNull) "Unknown method: " method, [])
  end.

(** What the [catch] of [app.post('/mcp/call')] answers. *)
Definition failed (e : error) : http := Sent 500 (ToolError (message e) true).

(** The answer to an unknown tool name, a template literal over [name]
    built inside the [try]. *)
Definition unknown_tool (name : value) : http :=
  match ToString name with
  | Ok s => Sent 400 (ToolError ("Unknown tool: " ++ s) true)
  | Throw e => failed e
  end.

(** [app.post('/mcp/call')] on [req.body]. *)
Definition mcp_call (env : Env) (req_body : value) : http * list RequestBody :=
  match (name <- destructure req_body "req.body" "name" ;;
         args <- destructure req_body "req.body" "arguments" ;;
         Ok (name, args)) with
  | Throw e => (failed e, [])
  | Ok (name, args) =>
      if negb (truthy args)
      then (Sent 400 (ToolError "No arguments provided" true), [])
      else if is_string name TOOL then
        match typeof (get_opt args "query") with
        | T_string =>
            let shouldStream := shouldStream_of args in
            let (r, sent) :=
              performSearch env (get_opt args "query") (options_of args shouldStream) in
            (match r with
             | Throw e => failed e
             | Ok (inl response) =>
                 if shouldStream then streamed response
                 else Sent 200 (ToolResult [Text (Some (JObj []))] false)
             | Ok (inr answer) =>
                 Sent 200 (ToolResult [Text (Some (JStr answer))] false)
             end, sent)
        | _ =>
            (Sent 400 (ToolError
               "Invalid arguments for perplexity-completions: 'query' must be a string"
               true), [])
        end
      else (unknown_tool name, [])
  end.

End WithRuntime.
End Server.

(** ** part_000: the HTTP server with retry, which drains the upstream
    stream itself *)

Module Part000.
Import Sse.

Section WithRuntime.
Context {rt : Runtime}.

Definition request_body (query : value) (options : Options) : RequestBody :=
  {| b_model := match when_truthy_string (o_model options) with
                | Some m => m
                | None => "sonar"
                end;
     b_content := query;
     b_stream := match o_stream options with
                 | Some b => b
                 | None => true
                 end;
     b_search_mode := when_truthy_string (o_search_mode options);
     b_recency_filter := when_truthy_string (o_recency_filter options);
     b_reasoning_effort := None;
     b_max_tokens := when_truthy_number (o_max_tokens options);
     b_temperature := o_temperature options;
     b_search_context_size := when_truthy_string (o_search_context_size options) |}.

(** [performSearch]: the open [Response] when streaming, the parsed
    upstream object otherwise. *)
Definition performSearch (env : Env) (query : value) (options : Options)
  : result (Response + json) * list RequestBody :=
  let body := request_body query options in
  let (e, n) := Part001.send env body in
  (match e with
   | Retry.Raised error => Throw (Part001.fetch_error options error)
   | Retry.Unexpected | Retry.OutOfFuel =>
       Throw (Part001.fetch_error options
                (Error "retryFetch reached unexpected state"))
   | Retry.Returned response =>
       if negb (ok response) then Throw (Index.upstream_error response)
       else if b_stream body then Ok (inl response)
       else
         match json_of response with
         | Throw jsonError =>
             Throw (Error ("Failed to parse JSON response: "
                           ++ String_of_error jsonError))
         | Ok data => Ok (inr data)
         end
   end, repeat body n).

(** [v?.[0]] *)
Definition index0_opt (v : value) : value :=
  match index0 v with
  | Ok x => x
  | Throw _ => None
  end.

(** The [content] array built from the upstream object itself (the
    non-streaming path). *)
Definition content_of_data (data : value) : result (list item) :=
  choices <- get data "choices" ;;
  let text := get_opt (get_opt (index0_opt choices) "message") "content" in
  let sr := get_opt data "search_results" in
  sources <- listed sr ;;
  Ok ((if truthy text then [Text text] else [])
      ++ (if sources then [Resource sr] else []))%list.

(** From [performSearch]'s result to the [content] array: the test
    [result && typeof result === 'object' && 'body' in result && result.body]
    and the branch it selects. A [Response] carries none of the keys the
    second branch reads; a parsed object with a truthy [body] key is passed
    to [consumePerplexityStream], where [body.getReader] is not a
    function. *)
Definition content_of (r : Response + json) : result (list item) :=
  match r with
  | inl response =>
      match body response with
      | Some _ =>
          consumed <- consumePerplexityStream response ;;
          content_of_completion consumed
      | None => Ok []
      end
  | inr data =>
      if truthy (Some data) && truthy (own data "body")
      then Throw (not_a_function "perplexityResponse.body?.getReader")
      else content_of_data (Some data)
  end.

Definition options_of (args : value) (stream : bool) : Options :=
  {| o_model := as_string (get_opt args "model");
     o_stream := Some stream;
     o_search_mode := as_string (get_opt args "search_mode");
     o_recency_filter := as_string (get_opt args "recency_filter");
     o_reasoning_effort := None;
     o_max_tokens := as_number (get_opt args "max_tokens");
     o_temperature := as_number (get_opt args "temperature");
     o_search_context_size := as_string (get_opt args "search_context_size");
     o_timeout := None |}.

(** [query.substring(0, 50)] in the log line of [tools/call]: only a
    string has the method. *)
Definition substring_probe (query : value) : result unit :=
  match query with
  | None | Some JNull => Throw (nullish_read query "substring")
  | Some (JStr _) => Ok tt
  | Some _ => Throw (not_a_function "query.substring")
  end.

(** The [tools/call] branch of [app.post('/mcp')] for this tool, from the
    inner [try] on. *)
Definition tools_call (env : Env) (id args : value) : http * list RequestBody :=
  match (query <- destructure args "args" "query" ;;
         _ <- substring_probe query ;;
         Ok query) with
  | Throw e => (Sent 200 (RpcError id InternalError (message e)), [])
  | Ok query =>
      let (r, sent) := performSearch env query (options_of args true) in
      (match (result <- r ;; content_of result) with
       | Throw e => Sent 200 (RpcError id InternalError (message e))
       | Ok content => Sent 200 (RpcResult id content)
       end, sent)
  end.

(** [app.post('/mcp')] on [req.body]. *)
Definition mcp (env : Env) (req_body : value) : http * list RequestBody :=
  match (method <- destructure req_body "req.body" "method" ;;
         params <- destructure req_body "req.body" "params" ;;
         id <- destructure req_body "req.body" "id" ;;
         Ok (method, params, id)) with
  | Throw _ => (Server.parse_error, [])
  | Ok (method, params, id) =>
      if Server.is_string method "initialize" then (Sent 200 (RpcInitialize id), [])
      else if Server.is_string method "tools/list" then (Sent 200 (RpcToolsList id), [])
      else if Server.is_string method "tools/call" then
        match (name <- destructure params "params" "name" ;;
               args <- destructure params "params" "arguments" ;;
               Ok (name, args)) with
        | Throw _ => (Server.parse_error, [])
        | Ok (name, args) =>
            if Server.is_string name TOOL then tools_call env id args
            else (Server.not_found id "Unknown tool: " name, [])
        end
      else (Server.not_found (or_else id JNull) "Unknown method: " method, [])
  end.

(** [app.post('/mcp/call')] on [req.body]. The log line written before
    the search prints [stream] as it came,
    [`... stream param=${stream}, stream type=${typeof stream}`]. *)
Definition mcp_call (env : Env) (req_body : value) : http * list RequestBody :=
  match (name <- destructure req_body "req.body" "name" ;;
         args <- destructure req_body "req.body" "arguments" ;;
         Ok (name, args)) with
  | Throw e => (Server.failed e, [])
  | Ok (name, args) =>
      if negb (truthy args)
      then (Sent 400 (ToolError "No arguments provided" true), [])
      else if Server.is_string name TOOL then
        match typeof (get_opt args "query") with
        | T_string =>
            let shouldStream := Server.shouldStream_of args in
            match ToString (get_opt args "stream") with
            | Throw e => (Server.failed e, [])
            | Ok _ =>
                let (r, sent) :=
                  performSearch env (get_opt args "query")
                                (options_of args shouldStream) in
                (match (result <- r ;; content_of result) with
                 | Throw e => Server.failed e
                 | Ok content => Sent 200 (ToolResult content false)
                 end, sent)
            end
        | _ =>
            (Sent 400 (ToolError
               "Invalid arguments for perplexity-completions: 'query' must be a string"
               true), [])
        end
      else (Server.unknown_tool name, [])
  end.

End WithRuntime.
End Part000.

(** ** Argument objects the properties speak about *)

Module Shape.

(** The object without the key [k]. *)
Fixpoint delete (k : string) (fields : list (string * json)) : list (string * json) :=
  match fields with
  | [] => []
  | (k', v) :: rest =>
      if (k =? k') then delete k rest else (k', v) :: delete k rest
  end.




Definition with_max_tokens (x : float) (o : Options) : Options :=
  mkOptions (o_model o) (o_stream o) (o_search_mode o) (o_recency_filter o)
            (o_reasoning_effort o) (Some x) (o_temperature o)
            (o_search_context_size o) (o_timeout o).

Definition with_temperature (x : float) (o : Options) : Options :=
  mkOptions (o_model o) (o_stream o) (o_search_mode o) (o_recency_filter o)
            (o_reasoning_effort o) (o_max_tokens o) (Some x)
            (o_search_context_size o) (o_timeout o).

(** A tool call as the HTTP endpoints and the stdio handler receive it. *)
Definition call_body (args : value) : value :=
  Some (JObj (("name", JStr TOOL) ::
              match args with
              | Some a => [("arguments", a)]
              | None => []
              end)).

(** A JSON-RPC [tools/call] request. *)
Definition rpc_call (id : json) (args : value) : value :=
  Some (JObj [("jsonrpc", JStr "2.0"); ("id", id); ("method", JStr "tools/call");
              ("params", match call_body args with
                         | Some p => p
                         | None => JNull
                         end)]).

End Shape.
Import Shape.

(** ** Streams and records the properties speak about *)

Module Wire.
Import Sse.

Definition NL : string := String LF "".

(** An upstream event on the wire: the prefix, the payload and the blank
    line that ends an event. *)
Definition frame (payload : string) : string :=
  data_prefix ++ payload ++ NL ++ NL.

(** A stream of events that ends in the completion sentinel. *)
Definition sse_stream (payloads : list string) : string :=
  String.concat "" (map frame payloads) ++ frame DONE.

(** The byte stream the reader splits into [chunks]. *)
Definition joined (chunks : list string) : string := String.concat "" chunks.

Fixpoint has_LF (s : string) : bool :=
  match s with
  | EmptyString => false
  | String c rest => Ascii.eqb c LF || has_LF rest
  end.

(** A payload that can stand in a frame before the sentinel: one line,
    and not the sentinel itself. *)
Definition payload_ok (p : string) : bool := negb (has_LF p) && negb (p =? DONE).

Section WithRuntime.
Context {rt : Runtime}.

(** A well-formed event, given as its payload and the text delta it
    carries: the payload parses, [choices[0]?.delta?.content] is that
    string, or is absent or [null] and the delta is empty. *)
Definition well_formed (e : string * string) : bool :=
  payload_ok (fst e) &&
  match JSON_parse (fst e) with
  | Ok chunk =>
      match chunk_delta chunk with
      | Ok (Some (JStr s)) => (s =? snd e)
      | Ok (Some JNull) => (snd e =? "")
      | Ok None => (snd e =? "")
      | _ => false
      end
  | Throw _ => false
  end.


(** The fold of each accumulator over decoded records. *)
Definition handle_records (records : list json) : handle_acc :=
  fold_left handle_record records (snd handle_init).

Definition consume_records (records : list json) : consume_acc :=
  fold_left consume_record records (snd consume_init).

End WithRuntime.

(** Follows the specification's words: the citation list of the last
    record that carries a non-empty citation list. *)
Definition spec_nonempty_citations (chunk : json) : bool :=
  match own chunk "search_results" with
  | Some (JArr (_ :: _)) => true
  | _ => false
  end.

Definition spec_final_citations (records : list json) : value :=
  match rev (filter spec_nonempty_citations records) with
  | r :: _ => own r "search_results"
  | [] => None
  end.

End Wire.

(** ** Notions the properties are stated with *)

Module Notions.
Import Sse.

(** The complete lines of a text, and the incomplete line after them. *)
Definition lines_of (s : string) : list string := removelast (split_nl s).
Definition rest_of (s : string) : string := last (split_nl s) "".

(** The two lines a frame contributes: the data line and the blank line. *)
Definition frame_lines (payload : string) : list string :=
  [data_prefix ++ payload; ""].

Section Loop.
Context {A : Type}.
Variable body : A -> string -> A * flow.

(** What a line does to the accumulator. *)
Definition effect (acc : A) (line : string) : A := fst (body acc line).

(** A line after which the loop goes on. *)
Definition plain (line : string) : Prop :=
  forall acc, snd (body acc line) = Continue.

(** A line that leaves the accumulator as it is (it may end the loop). *)
Definition quiet (line : string) : Prop :=
  forall acc, fst (body acc line) = acc.

(** Lines on which [break] costs nothing: whatever follows a line that
    can end the loop is quiet. *)
Inductive staged : list string -> Prop :=
| staged_quiet lines : Forall quiet lines -> staged lines
| staged_plain line lines : plain line -> staged lines -> staged (line :: lines).

End Loop.

Section WithRuntime.
Context {rt : Runtime}.

(** What a data line with payload [p] does to each accumulator. *)
Definition handle_payload (acc : handle_acc) (p : string) : handle_acc :=
  match JSON_parse p with
  | Ok chunk => handle_record acc chunk
  | Throw _ => acc
  end.

Definition consume_payload (acc : consume_acc) (p : string) : consume_acc :=
  match JSON_parse p with
  | Ok chunk => consume_record acc chunk
  | Throw _ => acc
  end.

End WithRuntime.

(** How a settled call of [retryFetch] ends: a response some attempt
    produced, or an error that is the abort or one some attempt threw. *)
Definition settled (attempt_outcome : nat -> result Response) (maxAttempts : nat)
  (e : Retry.exit) : Prop :=
  (exists r k, k < maxAttempts /\ attempt_outcome k = Ok r /\ e = Retry.Returned r)
  \/ (exists err, e = Retry.Raised err /\
        (err = Retry.AbortError \/
         exists k, k < maxAttempts /\ attempt_outcome k = Throw err)).

End Notions.
Import Notions.

(** ** A sample engine and sample traffic *)

Module Sample.
Import Sse Wire.

(** Single quotes to double quotes, to write JSON text readably. *)
Fixpoint dq (s : string) : string :=
  match s with
  | EmptyString => EmptyString
  | String c rest =>
      String (if Ascii.eqb c (ascii_of_nat 39) then ascii_of_nat 34 else c) (dq rest)
  end.

Definition delta_chunk (text : string) : json :=
  JObj [("choices", JArr [JObj [("delta", JObj [("content", JStr text)])]])].

Definition source (n : string) : json :=
  JObj [("title", JStr ("Source " ++ n)); ("url", JStr ("https://example.org/" ++ n))].

Definition cited_chunk (text : string) (results : list json) : json :=
  JObj [("choices", JArr [JObj [("delta", JObj [("content", JStr text)])]]);
        ("search_results", JArr results)].

Definition p_hello : string := dq "{'choices':[{'delta':{'content':'Hel'}}]}".
Definition p_lo : string := dq "{'choices':[{'delta':{'content':'lo'}}]}".
Definition p_cited : string :=
  dq "{'choices':[{'delta':{'content':'!'}}],'search_results':[{'title':'Source a','url':'https://example.org/a'}]}".

(** How the sample engine names the value at fault. *)
Definition nullish_name (base : value) : string :=
  match base with
  | None => "undefined"
  | Some _ => "null"
  end.

(** [JSON.parse] on the payloads of the sample traffic; any other text
    the samples feed it is not JSON. The only numbers the samples print
    are 15000 and 0, and the only string they convert to a number is the
    empty one. *)
Definition parse_table : list (string * json) :=
  [ (p_hello, delta_chunk "Hel");
    (p_lo, delta_chunk "lo");
    (p_cited, cited_chunk "!" [source "a"]) ].

Fixpoint assoc (k : string) (table : list (string * json)) : option json :=
  match table with
  | [] => None
  | (k', v) :: rest => if (k =? k') then Some v else assoc k rest
  end.

Definition runtime : Runtime :=
  {| JSON_parse := fun text =>
       match assoc text parse_table with
       | Some v => Ok v
       | None => Throw (mkError "SyntaxError" "Unexpected end of JSON input")
       end;
     Number_toString := fun x =>
       if PrimFloat.eqb x 15000%float then "15000"
       else if PrimFloat.eqb x 0%float then "0"
       else "NaN";
     StringToNumber := fun s => if (s =? "") then 0%float else PrimFloat.nan;
     nullish_read := fun base p =>
       mkError "TypeError"
         ("Cannot read properties of " ++ nullish_name base
          ++ " (reading '" ++ p ++ "')");
     nullish_destructure := fun base p src =>
       mkError "TypeError"
         ("Cannot destructure property '" ++ p ++ "' of '" ++ src
          ++ "' as it is " ++ nullish_name base ++ ".");
     not_a_function := fun callee => mkError "TypeError" (callee ++ " is not a function");
     not_primitive := mkError "TypeError" "Cannot convert object to primitive value" |}.

Fixpoint take (n : nat) (s : string) : string :=
  match n, s with
  | S m, String c rest => String c (take m rest)
  | _, _ => ""
  end.

(** The text cut into pieces of [n] bytes. *)
Fixpoint chop (fuel n : nat) (s : string) : list string :=
  match fuel, s with
  | _, EmptyString => []
  | 0, _ => [s]
  | S fuel', _ => take n s :: chop fuel' n (slice n s)
  end.

Definition hello_events : list (string * string) := [(p_hello, "Hel"); (p_lo, "lo")].

Definition ok_stream (chunks : list string) : Response :=
  mkResponse 200 "OK" (Some (mkBody chunks None)).

(** An upstream that answers every call with the same outcome. *)
Definition always (outcome : result Response) : Env :=
  mkEnv (fun _ _ => outcome) (fun _ => false).

Definition fetch_failed : error := mkError "TypeError" "fetch failed".

Definition answer (code : nat) (reason : string) : Response :=
  mkResponse code reason (Some (mkBody [] None)).

(** The outcomes of successive attempts, the last one repeated. *)
Fixpoint script (first : result Response) (later : list (result Response))
  (k : nat) : result Response :=
  match k, later with
  | 0, _ => first
  | S _, [] => first
  | S k', next :: later' => script next later' k'
  end.

Definition never_aborted : nat -> bool := fun _ => false.

End Sample.

(** ** More sample traffic *)

Module Sample2.
Import Sse Wire.

Definition p_null_source : string :=
  Sample.dq "{'choices':[{'delta':{'content':'Hi'}}],'search_results':[null]}".

Definition p_with_id : string :=
  Sample.dq "{'id':'r1','model':'sonar-pro','choices':[{'delta':{'content':'A'}}],'usage':{'total_tokens':7}}".

Definition p_bare : string := Sample.dq "{'id':'r2','choices':[]}".

Definition p_body : string := Sample.dq "{'body':'x'}".

Definition parse_table : list (string * json) :=
  [ (Sample.p_hello, Sample.delta_chunk "Hel");
    (Sample.p_lo, Sample.delta_chunk "lo");
    (p_null_source, Sample.cited_chunk "Hi" [JNull]);
    (p_with_id,
     JObj [("id", JStr "r1"); ("model", JStr "sonar-pro");
           ("choices", JArr [JObj [("delta", JObj [("content", JStr "A")])]]);
           ("usage", JObj [("total_tokens", JNum 7%float)])]);
    (p_bare, JObj [("id", JStr "r2"); ("choices", JArr [])]);
    (p_body, JObj [("body", JStr "x")]) ].

(** The sample engine with a larger table for [JSON.parse]. *)
Definition runtime : Runtime :=
  {| JSON_parse := fun text =>
       match Sample.assoc text parse_table with
       | Some v => Ok v
       | None => Throw (mkError "SyntaxError" "Unexpected end of JSON input")
       end;
     Number_toString := Number_toString (Runtime := Sample.runtime);
     StringToNumber := StringToNumber (Runtime := Sample.runtime);
     nullish_read := nullish_read (Runtime := Sample.runtime);
     nullish_destructure := nullish_destructure (Runtime := Sample.runtime);
     not_a_function := not_a_function (Runtime := Sample.runtime);
     not_primitive := not_primitive (Runtime := Sample.runtime) |}.

End Sample2.

(** ** [basicAuthMiddleware] (server.ts and part_000, the same text) *)

Module Auth.

(** [s.split(sep)] for a one-character separator: the segments between
    its occurrences, never an empty list. *)
Fixpoint split_on (sep : ascii) (s : string) : list string :=
  match s with
  | EmptyString => [""]
  | String c rest =>
      if Ascii.eqb c sep then "" :: split_on sep rest
      else match split_on sep rest with
           | [] => [String c ""]
           | seg :: segs => String c seg :: segs
           end
  end.

Definition SPACE : ascii := ascii_of_nat 32.
Definition COLON : ascii := ascii_of_nat 58.

(** What the middleware does with the request. *)
Inductive verdict :=
| Next                    (* next() *)
| Challenge               (* 401 with WWW-Authenticate, 'Authentication required' *)
| Invalid                 (* 401, 'Invalid credentials' *)
| BadFormat.              (* 401, 'Invalid authentication format' *)

Section Middleware.
(** [Buffer.from(text, 'base64').toString('utf-8')], which does not
    throw on any string. *)
Variable base64_decode : string -> string.
(** [process.env.MCP_USER] and [process.env.MCP_PASS]; the server exits at
    start when either is missing or empty. *)
Variable MCP_USER MCP_PASS : string.

(** [a[1]] *)
Definition second (segments : list string) : option string := nth_error segments 1.

(** [basicAuthMiddleware] on [req.headers.authorization] ([None] when the
    header is absent). Inside the [try] only [Buffer.from(undefined, ...)]
    can throw; [next()] hands over to an asynchronous handler. *)
Definition basicAuthMiddleware (authorization : option string) : verdict :=
  match authorization with
  | None => Challenge
  | Some authHeader =>
      if (authHeader =? "") || negb (Sse.startsWith "Basic " authHeader) then Challenge
      else
        match second (split_on SPACE authHeader) with
        | None => BadFormat
        | Some base64Credentials =>
            let parts := split_on COLON (base64_decode base64Credentials) in
            match hd_error parts, second parts with
            | Some username, Some password =>
                if negb (username =? MCP_USER) || negb (password =? MCP_PASS)
                then Invalid else Next
            | _, _ => Invalid
            end
        end
  end.

End Middleware.

Fixpoint has_char (c : ascii) (s : string) : bool :=
  match s with
  | EmptyString => false
  | String c' rest => Ascii.eqb c' c || has_char c rest
  end.

End Auth.

(** ** Further notions the properties are stated with *)

Module Views.
Import Sse.

(** [b] is [a] with something appended. *)
Definition extends (a b : string) : Prop := exists suffix, b = a ++ suffix.

Section WithRuntime.
Context {rt : Runtime}.

(** The records of the payloads that parse, in order. *)
Definition parsed (payloads : list string) : list json :=
  flat_map (fun p => match JSON_parse p with
                     | Ok chunk => [chunk]
                     | Throw _ => []
                     end) payloads.

End WithRuntime.

(** A record whose [choices] is missing or [null]. *)
Definition no_choices (chunk : json) : bool :=
  match own chunk "choices" with
  | None | Some JNull => true
  | Some _ => false
  end.

Definition is_null (v : json) : bool :=
  match v with
  | JNull => true
  | _ => false
  end.

(** [chunk.search_results] *)
Definition search_results (chunk : json) : value := own chunk "search_results".

Section Records.
Context {rt : Runtime}.

(** A value that a template literal or a string concatenation can
    convert to a string. *)
Definition printable (v : value) : bool :=
  match ToString v with
  | Ok _ => true
  | Throw _ => false
  end.

(** [chunk.choices[0]?.delta?.content], with [undefined] where the read
    throws. *)
Definition delta_of (chunk : json) : value :=
  match chunk_delta chunk with
  | Ok delta => delta
  | Throw _ => None
  end.

(** The text a record appends: its delta converted to a string, nothing
    when the delta is falsy. *)
Definition delta_text (chunk : json) : string :=
  if truthy (delta_of chunk)
  then match ToString (delta_of chunk) with
       | Ok s => s
       | Throw _ => ""
       end
  else "".

(** A record on which the statements of the [try] run to their end:
    [choices] is there and not [null], and the delta, when truthy, can be
    appended to the text. *)
Definition runs_through (chunk : json) : bool :=
  negb (no_choices chunk)
  && (negb (truthy (delta_of chunk)) || printable (delta_of chunk)).

(** A record whose search results reach the accumulator: it runs through
    and its [search_results] is truthy. *)
Definition cites (chunk : json) : bool :=
  runs_through chunk && truthy (search_results chunk).

(** The search results of the records that cite, in order. *)
Definition citations (records : list json) : list value :=
  map search_results (filter cites records).

(** The text the records append, in order. *)
Definition text_of (records : list json) : string :=
  String.concat "" (map delta_text (filter runs_through records)).

(** An entry [formatSearchResults] can format: not [null], with a
    [title] and a [url] that can be printed, and a [snippet] that is falsy
    or can be printed. *)
Definition formattable (entry : json) : bool :=
  negb (is_null entry)
  && printable (own entry "title")
  && printable (own entry "url")
  && (negb (truthy (own entry "snippet")) || printable (own entry "snippet")).

End Records.

(** An attempt after which [retryFetch] does not go on: a success, a
    status outside the retryable set, or an abort. *)
Definition decisive (o : result Response) : bool :=
  match o with
  | Ok r => ok r || negb (Retry.has Retry.RETRYABLE_STATUS (status r))
  | Throw e => Retry.is_abort e
  end.

(** The attempt's outcome as the way [retryFetch] ends. *)
Definition exit_of (o : result Response) : Retry.exit :=
  match o with
  | Ok r => Retry.Returned r
  | Throw e => Retry.Raised e
  end.

(** The events that end a re-emitted stream. *)
Definition is_terminal (e : event) : bool :=
  match e with
  | EDone | EError _ => true
  | _ => false
  end.

Definition is_content (e : event) : bool :=
  match e with
  | EContent _ => true
  | _ => false
  end.

(** The events written before the end are never terminal ones. *)
Definition still_open (events : list event) : Prop :=
  forallb (fun e => negb (is_terminal e)) events = true.

(** A finished stream: events that are not terminal, then one that is. *)
Definition closed (events : list event) : Prop :=
  exists before final,
    events = (before ++ [final])%list /\ still_open before /\ is_terminal final = true.

(** The content event a text delta gives rise to in the re-emitted
    stream: none for an empty delta. *)
Definition content_event (delta : string) : list event :=
  if (delta =? "") then [] else [EContent (Some (JStr delta))].

Section Finish.
Context {rt : Runtime}.

(** What is written once the lines are done: nothing more when the
    function returned at the sentinel, else the error event or the
    closing events. *)
Definition finish (r : (value * list event) * bool) (failure : option error)
  : list event :=
  match r with
  | (st, true) => snd st
  | (st, false) =>
      match failure with
      | Some e => (snd st ++ [EError (String_of_error e)])%list
      | None => (snd st ++ Server.closing (fst st))%list
      end
  end.

End Finish.

(** Requests sent upstream that are one body, sent at most [limit]
    times. *)
Definition resent (limit : nat) (sent : list RequestBody) : Prop :=
  exists body n, sent = repeat body n /\ n <= limit.

(** A JSON-RPC request that asks to call this tool. *)
Definition targets_tool (req_body : value) : bool :=
  Server.is_string (get_opt req_body "method") "tools/call"
  && Server.is_string (get_opt (get_opt req_body "params") "name") TOOL.


End Views.
Import Views.

(* ================================================================== *)
(** * Part II. Properties *)
(* ================================================================== *)

(** ** Splitting on newlines commutes with chunking *)

Module SplitFacts.
Import Sse Wire.

Lemma split_nl_nonempty (s : string) : split_nl s <> [].
Proof.
  destruct s as [|c rest]; simpl; [discriminate|].
  destruct (Ascii.eqb c LF); [discriminate|].
  destruct (split_nl rest); discriminate.
Qed.

Lemma split_nl_LF (rest : string) :
  split_nl (String LF rest) = "" :: split_nl rest.
Proof. reflexivity. Qed.

Lemma split_nl_other (c : ascii) (rest : string) :
  Ascii.eqb c LF = false ->
  exists seg segs, split_nl rest = seg :: segs /\
                   split_nl (String c rest) = String c seg :: segs.
Proof.
  intros Hc. simpl. rewrite Hc.
  destruct (split_nl rest) as [|seg segs] eqn:E.
  - exfalso. exact (split_nl_nonempty rest E).
  - exists seg, segs. split; reflexivity.
Qed.

Lemma removelast_cons {A} (x : A) (l : list A) :
  l <> [] -> removelast (x :: l) = x :: removelast l.
Proof. destruct l; [congruence|reflexivity]. Qed.

Lemma last_cons {A} (x d : A) (l : list A) :
  l <> [] -> last (x :: l) d = last l d.
Proof. destruct l; [congruence|reflexivity]. Qed.

Lemma last_app_nonempty {A} (l l' : list A) (d : A) :
  l' <> [] -> last (l ++ l') d = last l' d.
Proof.
  intros H. induction l as [|x l IH]; [reflexivity|].
  change ((x :: l) ++ l')%list with (x :: (l ++ l'))%list.
  rewrite last_cons; [exact IH|].
  destruct l; [exact H|discriminate].
Qed.

(** Splitting [a ++ b] is splitting [a], keeping its complete lines, and
    splitting what is left of [a] followed by [b]. *)
Lemma split_nl_app (a b : string) :
  split_nl (a ++ b) =
  (removelast (split_nl a) ++ split_nl (last (split_nl a) "" ++ b))%list.
Proof.
  induction a as [|c a IH].
  - reflexivity.
  - destruct (Ascii.eqb c LF) eqn:Hc.
    + apply Ascii.eqb_eq in Hc. subst c.
      change (String LF a ++ b) with (String LF (a ++ b)).
      rewrite !split_nl_LF.
      rewrite removelast_cons by apply split_nl_nonempty.
      rewrite last_cons by apply split_nl_nonempty.
      simpl. now rewrite IH.
    + change (String c a ++ b) with (String c (a ++ b)).
      destruct (split_nl_other c a Hc) as (seg & segs & Ea & Eca).
      rewrite Eca.
      destruct (split_nl_other c (a ++ b) Hc) as (seg' & segs' & Eab & Ecab).
      rewrite Ecab.
      rewrite IH, Ea in Eab.
      destruct segs as [|seg2 segs].
      * change (removelast [seg]) with (@nil string) in Eab.
        change (last [seg] "") with seg in Eab.
        change (removelast [String c seg]) with (@nil string).
        change (last [String c seg] "") with (String c seg).
        change (String c seg ++ b) with (String c (seg ++ b)).
        destruct (split_nl_other c (seg ++ b) Hc) as (s1 & s2 & E1 & E2).
        rewrite E2. change ([] ++ split_nl (seg ++ b))%list with (split_nl (seg ++ b)) in Eab.
        rewrite Eab in E1. now inversion E1.
      * rewrite removelast_cons in Eab by discriminate.
        rewrite last_cons in Eab by discriminate.
        rewrite removelast_cons by discriminate.
        rewrite last_cons by discriminate.
        simpl in Eab. inversion Eab. subst. reflexivity.
Qed.

Lemma lines_of_app (a b : string) :
  lines_of (a ++ b) = (lines_of a ++ lines_of (rest_of a ++ b))%list.
Proof.
  unfold lines_of, rest_of. rewrite split_nl_app.
  apply removelast_app, split_nl_nonempty.
Qed.

Lemma rest_of_app (a b : string) :
  rest_of (a ++ b) = rest_of (rest_of a ++ b).
Proof.
  unfold rest_of. rewrite split_nl_app.
  apply last_app_nonempty, split_nl_nonempty.
Qed.

(** The incomplete line holds no newline: splitting it again gives it
    back. *)
Lemma rest_of_idem (s : string) :
  lines_of (rest_of s) = [] /\ rest_of (rest_of s) = rest_of s.
Proof.
  unfold lines_of, rest_of.
  induction s as [|c s IH]; [split; reflexivity|].
  destruct (Ascii.eqb c LF) eqn:Hc.
  - apply Ascii.eqb_eq in Hc. subst c. rewrite split_nl_LF.
    rewrite last_cons by apply split_nl_nonempty. exact IH.
  - destruct (split_nl_other c s Hc) as (seg & segs & Es & Ecs).
    rewrite Ecs. rewrite Es in IH.
    destruct segs as [|seg2 segs].
    + change (last [seg] "") with seg in IH.
      change (last [String c seg] "") with (String c seg).
      destruct (split_nl_other c seg Hc) as (s1 & s2 & E1 & E2).
      rewrite E2. rewrite E1 in IH. destruct IH as [IH1 IH2].
      destruct s2 as [|y l]; [|discriminate IH1].
      change (last [s1] "") with s1 in IH2. subst s1.
      split; reflexivity.
    + rewrite last_cons by discriminate.
      rewrite last_cons in IH by discriminate. exact IH.
Qed.

Lemma append_assoc (a b c : string) : ((a ++ b) ++ c = a ++ (b ++ c))%string.
Proof. induction a; simpl; [reflexivity|now rewrite IHa]. Qed.

Lemma append_nil_r (a : string) : (a ++ "" = a)%string.
Proof. induction a; simpl; [reflexivity|now rewrite IHa]. Qed.

Lemma concat_cons (c : string) (cs : list string) :
  joined (c :: cs) = (c ++ joined cs)%string.
Proof.
  unfold joined. destruct cs as [|c' cs]; simpl.
  - now rewrite append_nil_r.
  - reflexivity.
Qed.

End SplitFacts.

(** ** The read loop depends on the text, not on the chunk boundaries *)

Module LoopFacts.
Import Sse Wire SplitFacts.

Section Loop.
Context {A : Type}.
Variable body : A -> string -> A * flow.

Lemma for_lines_quiet (lines : list string) (acc : A) :
  Forall (quiet body) lines -> for_lines body acc lines = acc.
Proof.
  induction 1 as [|line lines Hq _ IH]; [reflexivity|].
  simpl. specialize (Hq acc).
  destruct (body acc line) as [acc' f]. simpl in Hq. subst acc'.
  destruct f; [exact IH|reflexivity].
Qed.

Lemma fold_quiet (lines : list string) (acc : A) :
  Forall (quiet body) lines -> fold_left (effect body) lines acc = acc.
Proof.
  induction 1 as [|line lines Hq _ IH]; [reflexivity|].
  simpl. unfold effect at 2. now rewrite Hq.
Qed.

Lemma for_lines_staged (lines : list string) :
  staged body lines -> forall acc, for_lines body acc lines = fold_left (effect body) lines acc.
Proof.
  induction 1 as [lines Hq|line lines Hp _ IH]; intros acc.
  - now rewrite for_lines_quiet, fold_quiet.
  - simpl. unfold effect at 2. specialize (Hp acc).
    destruct (body acc line) as [acc' f]. simpl in Hp. subst f.
    apply IH.
Qed.

Lemma staged_app (l1 l2 : list string) :
  staged body (l1 ++ l2) -> staged body l1 /\ staged body l2.
Proof.
  induction l1 as [|x l1 IH]; intros H.
  - split; [apply staged_quiet; constructor|exact H].
  - change ((x :: l1) ++ l2)%list with (x :: (l1 ++ l2))%list in H.
    inversion H as [lines Hq|line lines Hp Hs]; subst.
    + inversion Hq as [|? ? Hx Hrest]; subst.
      apply Forall_app in Hrest. destruct Hrest as [H1 H2].
      split; apply staged_quiet; [constructor|]; assumption.
    + destruct (IH Hs) as [H1 H2].
      split; [apply staged_plain|]; assumption.
Qed.

(** The loop over any chunking of a text whose complete lines are
    [staged]: the buffer ends as the incomplete last line, the
    accumulator as the fold of the line effects over the complete lines. *)
Lemma read_chunks (chunks : list string) :
  forall (b : string) (acc : A),
    lines_of b = [] -> rest_of b = b ->
    staged body (lines_of (b ++ joined chunks)) ->
    fold_left (read body) chunks (b, acc) =
    (rest_of (b ++ joined chunks),
     fold_left (effect body) (lines_of (b ++ joined chunks)) acc).
Proof.
  induction chunks as [|c cs IH]; intros b acc Hl Hr Hs.
  - change (joined []) with "". rewrite append_nil_r.
    simpl. now rewrite Hl, Hr.
  - rewrite concat_cons in *. rewrite <- append_assoc in *.
    rewrite lines_of_app in *. apply staged_app in Hs. destruct Hs as [Hs1 Hs2].
    change (fold_left (read body) (c :: cs) (b, acc))
      with (fold_left (read body) cs
              (rest_of (b ++ c), for_lines body acc (lines_of (b ++ c)))).
    destruct (rest_of_idem (b ++ c)) as [Hl' Hr'].
    rewrite (IH _ _ Hl' Hr' Hs2).
    rewrite for_lines_staged by exact Hs1.
    now rewrite fold_left_app, <- rest_of_app.
Qed.

(** Two chunkings of the same staged text end in the same state. *)
Lemma read_any_chunking (chunks chunks' : list string) (acc : A) :
  joined chunks = joined chunks' ->
  staged body (lines_of (joined chunks)) ->
  fold_left (read body) chunks ("", acc) =
  fold_left (read body) chunks' ("", acc).
Proof.
  intros E Hs.
  rewrite (read_chunks chunks "" acc eq_refl eq_refl Hs).
  rewrite E in Hs.
  rewrite (read_chunks chunks' "" acc eq_refl eq_refl Hs).
  simpl. now rewrite E.
Qed.

End Loop.
End LoopFacts.

(** ** The lines of a stream of frames *)

Module FrameFacts.
Import Sse Wire SplitFacts LoopFacts.

Lemma split_line (s t : string) :
  has_LF s = false -> split_nl (s ++ String LF t) = s :: split_nl t.
Proof.
  induction s as [|c s IH]; intros H; [reflexivity|].
  simpl in H. apply orb_false_iff in H. destruct H as [Hc Hs].
  change (String c s ++ String LF t) with (String c (s ++ String LF t)).
  destruct (split_nl_other c (s ++ String LF t) Hc) as (seg & segs & E1 & E2).
  rewrite E2. rewrite (IH Hs) in E1. now inversion E1.
Qed.

Lemma frame_app (p rest : string) :
  frame p ++ rest = (data_prefix ++ p) ++ String LF (String LF rest).
Proof.
  unfold frame, NL. rewrite !append_assoc. reflexivity.
Qed.

Lemma split_frame (p rest : string) :
  has_LF p = false ->
  split_nl (frame p ++ rest) = (frame_lines p ++ split_nl rest)%list.
Proof.
  intros H. rewrite frame_app, split_line by exact H.
  reflexivity.
Qed.

Lemma payload_ok_LF (p : string) : payload_ok p = true -> has_LF p = false.
Proof.
  unfold payload_ok. intros H. apply andb_true_iff in H.
  destruct H as [H _]. now apply negb_true_iff in H.
Qed.

Lemma payload_ok_not_DONE (p : string) : payload_ok p = true -> (p =? DONE) = false.
Proof.
  unfold payload_ok. intros H. apply andb_true_iff in H.
  destruct H as [_ H]. now apply negb_true_iff in H.
Qed.

Lemma split_frames (ps : list string) (rest : string) :
  forallb payload_ok ps = true ->
  split_nl (joined (map frame ps) ++ rest) =
  (flat_map frame_lines ps ++ split_nl rest)%list.
Proof.
  induction ps as [|p ps IH]; intros H; [reflexivity|].
  simpl in H. apply andb_true_iff in H. destruct H as [Hp Hps].
  change (map frame (p :: ps)) with (frame p :: map frame ps).
  rewrite concat_cons, append_assoc.
  rewrite split_frame by now apply payload_ok_LF.
  rewrite (IH Hps). reflexivity.
Qed.

Lemma lines_of_stream (ps : list string) :
  forallb payload_ok ps = true ->
  lines_of (sse_stream ps) = (flat_map frame_lines ps ++ frame_lines DONE)%list
  /\ rest_of (sse_stream ps) = "".
Proof.
  intros H. unfold lines_of, rest_of, sse_stream, joined.
  fold (joined (map frame ps)). rewrite (split_frames ps _ H).
  change (split_nl (frame DONE)) with (frame_lines DONE ++ [""])%list.
  rewrite app_assoc. split.
  - apply removelast_last.
  - apply last_last.
Qed.

Lemma prefix_app (a b : string) : String.prefix a (a ++ b) = true.
Proof.
  induction a as [|c a IH]; simpl; [now destruct b|].
  destruct (ascii_dec c c); [exact IH|congruence].
Qed.

(** The first test of the loop body is decided by the prefix alone: a
    line that starts with the event prefix is not blank. *)
Lemma prefixed_not_blank (p : string) :
  trim_is_empty (data_prefix ++ p) || negb (startsWith data_prefix (data_prefix ++ p))
  = false.
Proof.
  unfold startsWith. rewrite prefix_app. reflexivity.
Qed.

Section Body.
Context {A : Type}.
Variable body : A -> string -> A * flow.
Variable on_payload : A -> string -> A.
Hypothesis body_blank : forall acc, body acc "" = (acc, Continue).
Hypothesis body_done : forall acc, body acc (data_prefix ++ DONE) = (acc, Break).
Hypothesis body_data : forall acc p,
  (p =? DONE) = false -> body acc (data_prefix ++ p) = (on_payload acc p, Continue).

Lemma frames_staged (ps : list string) :
  forallb payload_ok ps = true ->
  staged body (flat_map frame_lines ps ++ frame_lines DONE).
Proof.
  induction ps as [|p ps IH]; intros H.
  - apply staged_quiet. repeat constructor; intros acc.
    + now rewrite body_done.
    + now rewrite body_blank.
  - simpl in H. apply andb_true_iff in H. destruct H as [Hp Hps].
    change (flat_map frame_lines (p :: ps) ++ frame_lines DONE)%list
      with ((data_prefix ++ p)%string :: "" ::
            (flat_map frame_lines ps ++ frame_lines DONE))%list.
    apply staged_plain; [|apply staged_plain; [|exact (IH Hps)]]; intros acc.
    + now rewrite body_data by now apply payload_ok_not_DONE.
    + now rewrite body_blank.
Qed.

Lemma frames_effect (ps : list string) :
  forallb payload_ok ps = true ->
  forall acc,
    fold_left (effect body) (flat_map frame_lines ps ++ frame_lines DONE) acc
    = fold_left on_payload ps acc.
Proof.
  induction ps as [|p ps IH]; intros H acc.
  - simpl. unfold effect. now rewrite body_done, body_blank.
  - simpl in H. apply andb_true_iff in H. destruct H as [Hp Hps].
    change (flat_map frame_lines (p :: ps) ++ frame_lines DONE)%list
      with ((data_prefix ++ p)%string :: "" ::
            (flat_map frame_lines ps ++ frame_lines DONE))%list.
    cbn [fold_left]. unfold effect at 2 3.
    rewrite body_data by now apply payload_ok_not_DONE.
    cbn [fst]. rewrite body_blank. cbn [fst]. apply (IH Hps).
Qed.

(** Any chunking of a stream of frames that ends in the sentinel: the
    buffer ends empty and the accumulator is the fold over the payloads
    in order. *)
Lemma stream_run (ps chunks : list string) (acc : A) :
  forallb payload_ok ps = true ->
  joined chunks = sse_stream ps ->
  fold_left (read body) chunks ("", acc) = ("", fold_left on_payload ps acc).
Proof.
  intros H E.
  destruct (lines_of_stream ps H) as [Hl Hr].
  rewrite (read_chunks body chunks "" acc eq_refl eq_refl).
  - change ("" ++ joined chunks) with (joined chunks).
    rewrite E, Hl, Hr. now rewrite frames_effect.
  - change ("" ++ joined chunks) with (joined chunks).
    rewrite E, Hl. now apply frames_staged.
Qed.

End Body.
End FrameFacts.

(** ** The two decode loops on a stream of frames *)

Module DecoderFacts.
Import Sse Wire SplitFacts LoopFacts FrameFacts.

Section WithRuntime.
Context {rt : Runtime}.

Lemma slice_prefix (p : string) : slice 6 (data_prefix ++ p) = p.
Proof. reflexivity. Qed.

Lemma handle_data (acc : handle_acc) (p : string) :
  (p =? DONE) = false ->
  handle_line acc (data_prefix ++ p) = (handle_payload acc p, Continue).
Proof.
  intros H. unfold handle_line, handle_payload.
  rewrite prefixed_not_blank, slice_prefix, H.
  now destruct (JSON_parse p).
Qed.

Lemma handle_done (acc : handle_acc) :
  handle_line acc (data_prefix ++ DONE) = (acc, Break).
Proof.
  unfold handle_line. rewrite prefixed_not_blank, slice_prefix. reflexivity.
Qed.

Lemma consume_data (acc : consume_acc) (p : string) :
  (p =? DONE) = false ->
  consume_line acc (data_prefix ++ p) = (consume_payload acc p, Continue).
Proof.
  intros H. unfold consume_line, consume_payload.
  rewrite prefixed_not_blank, slice_prefix, H.
  now destruct (JSON_parse p).
Qed.

Lemma consume_done (acc : consume_acc) :
  consume_line acc (data_prefix ++ DONE) = (acc, Break).
Proof.
  unfold consume_line. rewrite prefixed_not_blank, slice_prefix. reflexivity.
Qed.

Lemma handle_stream (ps chunks : list string) :
  forallb payload_ok ps = true ->
  joined chunks = sse_stream ps ->
  handle_loop chunks = ("", fold_left handle_payload ps (snd handle_init)).
Proof.
  intros H E. unfold handle_loop, handle_init.
  apply (stream_run handle_line handle_payload); auto using handle_data, handle_done.
Qed.

Lemma consume_stream (ps chunks : list string) :
  forallb payload_ok ps = true ->
  joined chunks = sse_stream ps ->
  consume_loop chunks = ("", fold_left consume_payload ps (snd consume_init)).
Proof.
  intros H E. unfold consume_loop, consume_init.
  apply (stream_run consume_line consume_payload); auto using consume_data, consume_done.
Qed.




Lemma well_formed_ok (events : list (string * string)) :
  forallb well_formed events = true ->
  forallb payload_ok (map fst events) = true.
Proof.
  induction events as [|e events IH]; intros H; [reflexivity|].
  simpl in *. apply andb_true_iff in H. destruct H as [He H].
  rewrite (IH H), andb_true_r.
  unfold well_formed in He. now apply andb_true_iff in He.
Qed.

(** Reading [choices[0]] throws exactly on a record without [choices]. *)
Lemma chunk_delta_no_choices (chunk : json) :
  chunk_delta chunk
  = if no_choices chunk
    then Throw (if is_null chunk
                then nullish_read (Some JNull) "choices"
                else nullish_read (own chunk "choices") "0")
    else Ok (delta_of chunk).
Proof.
  unfold delta_of, no_choices, chunk_delta, get.
  destruct chunk; cbn [own bind is_null]; try reflexivity.
  destruct (lookup "choices" fields) as [[]|]; try reflexivity;
    cbn [index0]; try reflexivity.
  now destruct s.
Qed.

Lemma append_delta_text (content : string) (chunk : json) :
  negb (truthy (delta_of chunk)) || printable (delta_of chunk) = true ->
  append_delta content (delta_of chunk) = Ok (content ++ delta_text chunk).
Proof.
  unfold append_delta, delta_text, printable.
  destruct (truthy (delta_of chunk)); cbn [negb orb bind].
  - destruct (ToString (delta_of chunk)); [reflexivity|discriminate].
  - intros _. now rewrite append_nil_r.
Qed.

Lemma append_delta_throws (content : string) (chunk : json) :
  negb (truthy (delta_of chunk)) || printable (delta_of chunk) = false ->
  exists e, append_delta content (delta_of chunk) = Throw e.
Proof.
  unfold append_delta, printable.
  destruct (truthy (delta_of chunk)); cbn [negb orb bind]; [|discriminate].
  destruct (ToString (delta_of chunk)); cbn [bind]; [discriminate|eauto].
Qed.

(** What a decoded record does to each accumulator. *)
Lemma handle_record_step (acc : handle_acc) (chunk : json) :
  handle_record acc chunk
  = if runs_through chunk
    then mkHandle (h_content acc ++ delta_text chunk)
                  (if truthy (search_results chunk)
                   then search_results chunk else h_searchResults acc)
    else acc.
Proof.
  unfold handle_record, handle_chunk, runs_through.
  rewrite chunk_delta_no_choices.
  destruct (no_choices chunk); cbn [negb andb bind]; [reflexivity|].
  destruct (negb (truthy (delta_of chunk)) || printable (delta_of chunk)) eqn:E.
  - now rewrite (append_delta_text _ _ E).
  - destruct (append_delta_throws (h_content acc) _ E) as [e He]. now rewrite He.
Qed.

Lemma consume_record_step (acc : consume_acc) (chunk : json) :
  consume_record acc chunk
  = if runs_through chunk
    then mkConsume (c_content acc ++ delta_text chunk)
                   (if truthy (search_results chunk)
                       && negb (truthy (c_searchResults acc))
                    then search_results chunk else c_searchResults acc)
                   (Some chunk)
    else mkConsume (c_content acc) (c_searchResults acc) (Some chunk).
Proof.
  unfold consume_record, runs_through.
  rewrite chunk_delta_no_choices.
  destruct (no_choices chunk); cbn [negb andb bind]; [reflexivity|].
  destruct (negb (truthy (delta_of chunk)) || printable (delta_of chunk)) eqn:E.
  - now rewrite (append_delta_text _ _ E).
  - destruct (append_delta_throws (c_content acc) _ E) as [e He]. now rewrite He.
Qed.

(** The record of a well-formed event runs through and appends the
    event's delta. *)
Lemma well_formed_record (e : string * string) :
  well_formed e = true ->
  exists chunk,
    JSON_parse (fst e) = Ok chunk
    /\ runs_through chunk = true /\ delta_text chunk = snd e.
Proof.
  unfold well_formed. intros H.
  apply andb_true_iff in H. destruct H as [_ H].
  destruct (JSON_parse (fst e)) as [chunk|]; [|discriminate].
  exists chunk. split; [reflexivity|].
  unfold runs_through, delta_text, printable.
  pose proof (chunk_delta_no_choices chunk) as Hd.
  destruct (chunk_delta chunk) as [d|] eqn:Ed; [|discriminate].
  destruct (no_choices chunk); [discriminate|].
  injection Hd as Hd. rewrite <- Hd. cbn [negb andb].
  destruct d as [[]|]; try discriminate; cbn [truthy ToString ToString_json negb orb].
  - apply String.eqb_eq in H. now rewrite H.
  - apply String.eqb_eq in H. subst s.
    destruct (snd e =? "") eqn:E; cbn [negb orb]; split; try reflexivity.
    apply String.eqb_eq in E. now rewrite E.
  - apply String.eqb_eq in H. now rewrite H.
Qed.

(** A well-formed event appends its delta to the text. *)
Lemma well_formed_delta (e : string * string) :
  well_formed e = true ->
  (forall acc, h_content (handle_payload acc (fst e)) = h_content acc ++ snd e) /\
  (forall acc, c_content (consume_payload acc (fst e)) = c_content acc ++ snd e).
Proof.
  intros H. destruct (well_formed_record e H) as (chunk & Hp & Hr & Ht).
  unfold handle_payload, consume_payload. rewrite Hp.
  split; intros acc;
    [rewrite handle_record_step|rewrite consume_record_step];
    rewrite Hr, Ht; reflexivity.
Qed.


Lemma consume_text (events : list (string * string)) :
  forallb well_formed events = true ->
  forall acc,
    c_content (fold_left consume_payload (map fst events) acc)
    = c_content acc ++ joined (map snd events).
Proof.
  induction events as [|e events IH]; intros H acc.
  - simpl. now rewrite append_nil_r.
  - simpl in H. apply andb_true_iff in H. destruct H as [He H].
    change (map snd (e :: events)) with (snd e :: map snd events).
    rewrite concat_cons. cbn [map fold_left].
    rewrite (IH H), (proj2 (well_formed_delta e He)). apply append_assoc.
Qed.

End WithRuntime.
End DecoderFacts.

(** ** Text, citations and the last chunk over decoded records *)

Module CitationFacts.
Import Sse Wire SplitFacts DecoderFacts.

Section WithRuntime.
Context {rt : Runtime}.

Lemma last_default {X} (l : list X) (x d : X) : last (x :: l) d = last l x.
Proof.
  revert x d. induction l as [|y l IH]; intros x d; [reflexivity|].
  change (last (x :: y :: l) d) with (last (y :: l) d). now rewrite !IH.
Qed.

Lemma handle_record_citations (acc : handle_acc) (r : json) :
  h_searchResults (handle_record acc r)
  = if cites r then search_results r else h_searchResults acc.
Proof.
  rewrite handle_record_step. unfold cites.
  destruct (runs_through r); cbn [andb h_searchResults]; [|reflexivity].
  now destruct (truthy (search_results r)).
Qed.

Lemma handle_citations (records : list json) :
  forall acc,
    h_searchResults (fold_left handle_record records acc)
    = last (citations records) (h_searchResults acc).
Proof.
  induction records as [|r records IH]; intros acc; [reflexivity|].
  cbn [fold_left]. rewrite IH, handle_record_citations.
  unfold citations. cbn [filter].
  destruct (cites r); [|reflexivity].
  cbn [map]. now rewrite last_default.
Qed.

Lemma consume_record_citations (acc : consume_acc) (r : json) :
  c_searchResults (consume_record acc r)
  = if truthy (c_searchResults acc) then c_searchResults acc
    else if cites r then search_results r else c_searchResults acc.
Proof.
  rewrite consume_record_step. unfold cites.
  destruct (runs_through r); cbn [andb c_searchResults];
    destruct (truthy (c_searchResults acc)); cbn [negb andb];
    rewrite ?andb_false_r, ?andb_true_r; try reflexivity;
    now destruct (truthy (search_results r)).
Qed.

Lemma consume_citations_set (records : list json) :
  forall acc,
    truthy (c_searchResults acc) = true ->
    c_searchResults (fold_left consume_record records acc) = c_searchResults acc.
Proof.
  induction records as [|r records IH]; intros acc H; [reflexivity|].
  cbn [fold_left].
  assert (E : c_searchResults (consume_record acc r) = c_searchResults acc)
    by (rewrite consume_record_citations; now rewrite H).
  rewrite IH; rewrite E; auto.
Qed.

Lemma cites_truthy (r : json) : cites r = true -> truthy (search_results r) = true.
Proof. unfold cites. intros H. now apply andb_true_iff in H. Qed.

Lemma consume_citations (records : list json) :
  forall acc,
    truthy (c_searchResults acc) = false ->
    c_searchResults (fold_left consume_record records acc)
    = hd (c_searchResults acc) (citations records).
Proof.
  induction records as [|r records IH]; intros acc H; [reflexivity|].
  cbn [fold_left]. unfold citations. cbn [filter].
  pose proof (consume_record_citations acc r) as E. rewrite H in E.
  destruct (cites r) eqn:C.
  - cbn [map hd]. rewrite consume_citations_set; rewrite E; auto using cites_truthy.
  - rewrite IH; rewrite E; auto.
Qed.

Lemma handle_record_text (acc : handle_acc) (r : json) :
  h_content (handle_record acc r)
  = h_content acc ++ (if runs_through r then delta_text r else "").
Proof.
  rewrite handle_record_step.
  destruct (runs_through r); [reflexivity|now rewrite append_nil_r].
Qed.

Lemma consume_record_text (acc : consume_acc) (r : json) :
  c_content (consume_record acc r)
  = c_content acc ++ (if runs_through r then delta_text r else "").
Proof.
  rewrite consume_record_step.
  destruct (runs_through r); [reflexivity|cbn [c_content]; now rewrite append_nil_r].
Qed.

Lemma text_of_cons (r : json) (records : list json) :
  text_of (r :: records)
  = (if runs_through r then delta_text r else "") ++ text_of records.
Proof.
  unfold text_of. cbn [filter].
  destruct (runs_through r); [|reflexivity].
  cbn [map]. apply concat_cons.
Qed.

Lemma handle_text_of (records : list json) :
  forall acc,
    h_content (fold_left handle_record records acc) = h_content acc ++ text_of records.
Proof.
  induction records as [|r records IH]; intros acc.
  - cbn. now rewrite append_nil_r.
  - cbn [fold_left]. now rewrite IH, handle_record_text, text_of_cons, append_assoc.
Qed.

Lemma consume_text_of (records : list json) :
  forall acc,
    c_content (fold_left consume_record records acc) = c_content acc ++ text_of records.
Proof.
  induction records as [|r records IH]; intros acc.
  - cbn. now rewrite append_nil_r.
  - cbn [fold_left]. now rewrite IH, consume_record_text, text_of_cons, append_assoc.
Qed.

Lemma consume_record_last (acc : consume_acc) (chunk : json) :
  c_lastChunk (consume_record acc chunk) = Some chunk.
Proof. rewrite consume_record_step. now destruct (runs_through chunk). Qed.

Lemma consume_records_last (records : list json) :
  forall acc,
    c_lastChunk (fold_left consume_record records acc)
    = last (map Some records) (c_lastChunk acc).
Proof.
  induction records as [|r records IH]; intros acc; [reflexivity|].
  cbn [fold_left map]. now rewrite IH, last_default, consume_record_last.
Qed.

(** The loops skip the payloads that do not parse and fold the record
    steps over the others. *)
Lemma payloads_parsed (ps : list string) :
  (forall acc, fold_left handle_payload ps acc = fold_left handle_record (parsed ps) acc)
  /\ (forall acc, fold_left consume_payload ps acc
                  = fold_left consume_record (parsed ps) acc).
Proof.
  induction ps as [|p ps [IH1 IH2]]; [split; reflexivity|].
  unfold parsed. cbn [flat_map]. fold (parsed ps).
  split; intros acc; cbn [fold_left];
    [unfold handle_payload at 2|unfold consume_payload at 2];
    destruct (JSON_parse p); cbn [app fold_left]; auto.
Qed.

Lemma consume_payloads_last (ps : list string) :
  forall acc,
    c_lastChunk (fold_left consume_payload ps acc)
    = last (map Some (parsed ps)) (c_lastChunk acc).
Proof.
  intros acc. rewrite (proj2 (payloads_parsed ps)). apply consume_records_last.
Qed.

(** The records of well-formed events append the events' deltas. *)
Lemma well_formed_text (events : list (string * string)) :
  forallb well_formed events = true ->
  text_of (parsed (map fst events)) = joined (map snd events).
Proof.
  induction events as [|e events IH]; intros H; [reflexivity|].
  cbn [forallb] in H. apply andb_true_iff in H. destruct H as [He H].
  destruct (well_formed_record e He) as (chunk & Hp & Hr & Ht).
  unfold parsed. cbn [map flat_map]. fold (parsed (map fst events)).
  rewrite Hp. cbn [app]. rewrite text_of_cons, Hr, Ht, (IH H).
  symmetry. apply concat_cons.
Qed.

Lemma handle_eta (acc : handle_acc) :
  acc = mkHandle (h_content acc) (h_searchResults acc).
Proof. now destruct acc. Qed.

Lemma consume_eta (acc : consume_acc) :
  acc = mkConsume (c_content acc) (c_searchResults acc) (c_lastChunk acc).
Proof. now destruct acc. Qed.

(** The state either loop reaches over decoded records. *)
Lemma handle_records_state (records : list json) :
  handle_records records = mkHandle (text_of records) (last (citations records) None).
Proof.
  unfold handle_records. rewrite (handle_eta (fold_left _ _ _)).
  now rewrite handle_text_of, handle_citations.
Qed.

Lemma consume_records_state (records : list json) :
  consume_records records
  = mkConsume (text_of records) (hd None (citations records))
              (last (map Some records) None).
Proof.
  unfold consume_records. rewrite (consume_eta (fold_left _ _ _)).
  now rewrite consume_text_of, consume_citations, consume_records_last.
Qed.

End WithRuntime.
End CitationFacts.

(** ** The claims about the stream decoder *)

Import Sse Wire SplitFacts LoopFacts FrameFacts DecoderFacts CitationFacts.

(** C1, as the code has it. For a well-formed event sequence that ends in
    the completion sentinel, whatever the split of the byte stream into
    read chunks: both loops end with an empty buffer and with the
    concatenation of the text deltas, in arrival order, as their text.
    [handleStreamingResponse] returns that text followed by the formatted
    citations of the last record that cites (nothing more when none
    does), or throws what formatting them throws;
    [consumePerplexityStream] returns it as the message content, the
    placeholder standing in for an empty text, with the search results of
    the first record that cites and the [id], [model] and [usage] of the
    last record, or throws what its log line throws. *)
Theorem chunking_keeps_text {rt : Runtime}
  (events : list (string * string)) (chunks : list string) :
  forallb well_formed events = true ->
  joined chunks = sse_stream (map fst events) ->
  let text := joined (map snd events) in
  let records := parsed (map fst events) in
  let final := last (map Some records) None in
  handle_loop chunks = ("", mkHandle text (last (citations records) None))
  /\ consume_loop chunks = ("", mkConsume text (hd None (citations records)) final)
  /\ (forall code reason,
        handleStreamingResponse (mkResponse code reason (Some (mkBody chunks None)))
        = (sources <- citations_of (last (citations records) None) ;;
           Ok (text ++ sources)))
  /\ (forall code reason,
        consumePerplexityStream (mkResponse code reason (Some (mkBody chunks None)))
        = (_ <- log_sources (hd None (citations records)) ;;
           Ok (mkCompletion
                 (or_else (get_opt final "id") (JStr "unknown"))
                 (or_else (get_opt final "model") (JStr "sonar"))
                 (if (text =? "") then placeholder else text)
                 (hd None (citations records))
                 (get_opt final "usage")))).
Proof.
  intros Hwf E text records final.
  pose proof (well_formed_ok events Hwf) as Hok.
  destruct (payloads_parsed (map fst events)) as [Ph Pc].
  assert (Hh : handle_loop chunks = ("", mkHandle text (last (citations records) None))).
  { rewrite (handle_stream _ chunks Hok E), Ph.
    fold (handle_records (parsed (map fst events))).
    rewrite handle_records_state. fold records.
    unfold records at 1. now rewrite (well_formed_text events Hwf). }
  assert (Hc : consume_loop chunks
               = ("", mkConsume text (hd None (citations records)) final)).
  { rewrite (consume_stream _ chunks Hok E), Pc.
    fold (consume_records (parsed (map fst events))).
    rewrite consume_records_state. fold records. fold final.
    unfold records at 1. now rewrite (well_formed_text events Hwf). }
  split; [exact Hh|]. split; [exact Hc|]. split; intros code reason.
  - unfold handleStreamingResponse. cbn [Net.body Net.chunks Net.failure].
    now rewrite Hh.
  - unfold consumePerplexityStream. cbn [Net.body Net.chunks Net.failure].
    now rewrite Hc.
Qed.

Lemma chunking_keeps_text_witness :
  handleStreamingResponse (rt := Sample.runtime)
    (Sample.ok_stream (Sample.chop 200 7 (sse_stream (map fst Sample.hello_events))))
  = Ok "Hello".
Proof.
  exact (proj1 (proj2 (proj2
    (chunking_keeps_text (rt := Sample.runtime) Sample.hello_events
       (Sample.chop 200 7 (sse_stream (map fst Sample.hello_events)))
       eq_refl eq_refl))) 200 "OK").
Defined.

(** C1 as stated fails for what the functions hand back: on well-formed
    events whose last record carries search results,
    [handleStreamingResponse] returns the deltas followed by the source
    list; where that list has a [null] entry it returns no text at all;
    and [consumePerplexityStream] on deltas that are all empty returns the
    placeholder. *)
Lemma chunking_counterexample :
  forallb (well_formed (rt := Sample.runtime))
          [(Sample.p_hello, "Hel"); (Sample.p_cited, "!")] = true
  /\ joined (map snd [(Sample.p_hello, "Hel"); (Sample.p_cited, "!")]) = "Hel!"
  /\ handleStreamingResponse (rt := Sample.runtime)
       (Sample.ok_stream [sse_stream [Sample.p_hello; Sample.p_cited]])
     = Ok ("Hel!" ++ NL ++ NL ++ "## Sources" ++ NL ++ NL
           ++ "1. **Source a**" ++ NL ++ "   https://example.org/a" ++ NL ++ NL)
  /\ forallb (well_formed (rt := Sample2.runtime)) [(Sample2.p_null_source, "Hi")] = true
  /\ handleStreamingResponse (rt := Sample2.runtime)
       (Sample.ok_stream [sse_stream [Sample2.p_null_source]])
     = Throw (mkError "TypeError" "Cannot read properties of null (reading 'title')")
  /\ forallb (well_formed (rt := Sample2.runtime)) [(Sample2.p_bare, "")] = true
  /\ option_map cc_content
       (match consumePerplexityStream (rt := Sample2.runtime)
                (Sample.ok_stream [sse_stream [Sample2.p_bare]]) with
        | Ok c => Some c
        | Throw _ => None
        end)
     = Some placeholder.
Proof. repeat split. Qed.



(** Outside such streams the chunking can matter: [break] leaves only the
    [for] loop, so a frame after the sentinel is skipped when it arrives in
    the sentinel's chunk and decoded when it arrives in a later one. *)
Example frame_after_sentinel :
  h_content (snd (handle_loop (rt := Sample.runtime)
                    [frame DONE ++ frame Sample.p_hello])) = ""
  /\ h_content (snd (handle_loop (rt := Sample.runtime)
                       [frame DONE; frame Sample.p_hello])) = "Hel".
Proof. split; reflexivity. Qed.

(** C2, as the code has it. Over any sequence of decoded records, the
    citations [handleStreamingResponse] ends with are the [search_results]
    of the last record that cites, and [consumePerplexityStream] keeps
    those of the first record that cites. A record cites when the
    statements of the [try] run to their end on it ([choices] is there and
    not [null], and its delta, when truthy, can be appended) and its
    [search_results] is truthy: an empty array is truthy and does replace
    an earlier list, while a record without the field, or with [null],
    false, 0 or an empty string there, changes nothing; nor does a record
    that carries a list but on which the [try] is left early. *)
Theorem citations_by_write_order {rt : Runtime} (records : list json) :
  h_searchResults (handle_records records)
  = last (map search_results (filter cites records)) None
  /\ c_searchResults (consume_records records)
     = hd None (map search_results (filter cites records)).
Proof.
  split.
  - apply handle_citations.
  - now apply consume_citations.
Qed.

(** C2 as stated fails: an empty list replaces the earlier one in
    [handleStreamingResponse], and a later non-empty list does not replace
    the first in [consumePerplexityStream]. *)
Lemma citations_counterexample :
  h_searchResults (handle_records (rt := Sample.runtime)
     [Sample.cited_chunk "a" [Sample.source "a"]; Sample.cited_chunk "b" []])
  = Some (JArr [])
  /\ spec_final_citations
       [Sample.cited_chunk "a" [Sample.source "a"]; Sample.cited_chunk "b" []]
     = Some (JArr [Sample.source "a"])
  /\ c_searchResults (consume_records (rt := Sample.runtime)
       [Sample.cited_chunk "a" [Sample.source "a"];
        Sample.cited_chunk "b" [Sample.source "b"]])
     = Some (JArr [Sample.source "a"])
  /\ spec_final_citations
       [Sample.cited_chunk "a" [Sample.source "a"];
        Sample.cited_chunk "b" [Sample.source "b"]]
     = Some (JArr [Sample.source "b"]).
Proof. repeat split. Qed.

(** Citations on frame 3 of 5 only: both accumulators end with frame 3's
    list. *)
Example citations_on_frame_three :
  let records := [Sample.delta_chunk "a"; Sample.delta_chunk "b";
                  Sample.cited_chunk "c" [Sample.source "x"; Sample.source "y"];
                  Sample.delta_chunk "d"; Sample.delta_chunk "e"] in
  h_searchResults (handle_records (rt := Sample.runtime) records)
  = Some (JArr [Sample.source "x"; Sample.source "y"])
  /\ c_searchResults (consume_records (rt := Sample.runtime) records)
     = Some (JArr [Sample.source "x"; Sample.source "y"]).
Proof. split; reflexivity. Qed.

(** A list carried by a record without [choices], or whose delta cannot
    be converted to a string, is not stored by [handleStreamingResponse]:
    the earlier list stays. *)
Example citations_of_skipped_records :
  let earlier := Sample.cited_chunk "a" [Sample.source "a"] in
  let bare := JObj [("search_results", JArr [Sample.source "b"])] in
  let odd := JObj [("choices",
                    JArr [JObj [("delta",
                                 JObj [("content", JObj [("toString", JNull)])])]]);
                   ("search_results", JArr [Sample.source "c"])] in
  h_searchResults (handle_records (rt := Sample.runtime) [earlier; bare; odd])
  = Some (JArr [Sample.source "a"])
  /\ c_searchResults (consume_records (rt := Sample.runtime) [bare; odd; earlier])
     = Some (JArr [Sample.source "a"]).
Proof. split; reflexivity. Qed.

(** ** The retry loop *)

Module RetryFacts.
Import Retry.

(** The two loop tests at an integer [maxAttempts]. *)
Lemma less_of_nat (attempt n : nat) : less attempt (of_nat n) = Nat.ltb attempt n.
Proof.
  unfold less, of_nat, Qle_bool. cbn [Qnum Qden inject_Z].
  destruct (Nat.ltb_spec attempt n), (Z.leb_spec (Z.of_nat n * 1) (Z.of_nat attempt * 1));
    cbn [negb]; try reflexivity; lia.
Qed.

Lemma is_last_of_nat (attempt n : nat) :
  attempt < n -> is_last attempt (of_nat n) = Nat.eqb attempt (n - 1).
Proof.
  intros H. unfold is_last, of_nat, Qeq_bool.
  cbn [Qnum Qden inject_Z Qminus Qplus Qopp].
  destruct (Nat.eqb_spec attempt (n - 1)) as [E|E].
  - apply Z.eqb_eq. lia.
  - apply Z.eqb_neq. lia.
Qed.

Section Loop.
Variable attempt_outcome : nat -> result Response.
Variable signal_aborted : nat -> bool.
Variable maxAttempts : nat.

Lemma loop_settles (fuel : nat) :
  forall attempt,
    attempt < maxAttempts -> maxAttempts - attempt < fuel ->
    settled attempt_outcome maxAttempts
      (fst (loop attempt_outcome signal_aborted maxAttempts fuel attempt))
    /\ snd (loop attempt_outcome signal_aborted maxAttempts fuel attempt)
       <= maxAttempts - attempt.
Proof.
  induction fuel as [|fuel IH]; intros attempt Hlt Hfuel; [lia|].
  cbn [loop]. rewrite less_of_nat, (is_last_of_nat _ _ Hlt).
  destruct (Nat.ltb_spec attempt maxAttempts) as [_|Hge]; [|lia].
  destruct (signal_aborted attempt).
  { split; [right; exists AbortError; auto|cbn; lia]. }
  destruct (attempt_outcome attempt) as [response|error] eqn:E.
  - destruct (ok response || negb (has RETRYABLE_STATUS (status response))).
    { split; [left; exists response, attempt; auto|cbn; lia]. }
    destruct (Nat.eqb_spec attempt (maxAttempts - 1)) as [Hlast|Hmore].
    { split; [left; exists response, attempt; auto|cbn; lia]. }
    destruct (IH (S attempt)) as [Hs Hn]; [lia|lia|].
    destruct (loop attempt_outcome signal_aborted maxAttempts fuel (S attempt))
      as [e n]. cbn [fst snd] in *. split; [exact Hs|lia].
  - destruct (is_abort error).
    { split; [right; exists error; split; [reflexivity|right; exists attempt; auto]|cbn; lia]. }
    destruct (Nat.eqb_spec attempt (maxAttempts - 1)) as [Hlast|Hmore].
    { split; [right; exists error; split; [reflexivity|right; exists attempt; auto]|cbn; lia]. }
    destruct (IH (S attempt)) as [Hs Hn]; [lia|lia|].
    destruct (loop attempt_outcome signal_aborted maxAttempts fuel (S attempt))
      as [e n]. cbn [fst snd] in *. split; [exact Hs|lia].
Qed.

(** The number of calls never exceeds [maxAttempts], whatever happens. *)
Lemma loop_calls (fuel : nat) :
  forall attempt,
    snd (loop attempt_outcome signal_aborted maxAttempts fuel attempt)
    <= maxAttempts - attempt.
Proof.
  induction fuel as [|fuel IH]; intros attempt; [cbn; lia|].
  cbn [loop]. rewrite less_of_nat.
  destruct (Nat.ltb_spec attempt maxAttempts) as [Hlt|Hge]; [|cbn; lia].
  rewrite (is_last_of_nat _ _ Hlt).
  destruct (signal_aborted attempt); [cbn; lia|].
  destruct (attempt_outcome attempt) as [response|error].
  - destruct (ok response || negb (has RETRYABLE_STATUS (status response)));
      [cbn; lia|].
    destruct (Nat.eqb_spec attempt (maxAttempts - 1)); [cbn; lia|].
    specialize (IH (S attempt)).
    destruct (loop attempt_outcome signal_aborted maxAttempts fuel (S attempt)).
    cbn [snd] in *. lia.
  - destruct (is_abort error); [cbn; lia|].
    destruct (Nat.eqb_spec attempt (maxAttempts - 1)); [cbn; lia|].
    specialize (IH (S attempt)).
    destruct (loop attempt_outcome signal_aborted maxAttempts fuel (S attempt)).
    cbn [snd] in *. lia.
Qed.

End Loop.

Lemma retryable_is_not_ok (r : Response) :
  has RETRYABLE_STATUS (status r) = true -> ok r = false.
Proof.
  unfold has, RETRYABLE_STATUS, ok. cbn [existsb].
  rewrite !orb_true_iff.
  intros [H|[H|[H|[H|[H|[H|H]]]]]]; try discriminate;
    apply Nat.eqb_eq in H; rewrite H; reflexivity.
Qed.

(** With no attempt allowed the statement after the loop is reached. *)
Lemma zero_attempts_unexpected (o : nat -> result Response) (a : nat -> bool)
  (fuel : nat) :
  retryFetch o a 0 (S fuel) = (Unexpected, 0).
Proof. reflexivity. Qed.

(** So it is when [maxAttempts] is [NaN] or negative. *)
Lemma no_loop_unexpected (o : nat -> result Response) (a : nat -> bool)
  (fuel : nat) :
  retryFetch o a NaN (S fuel) = (Unexpected, 0)
  /\ retryFetch o a (Infinity true) (S fuel) = (Unexpected, 0)
  /\ retryFetch o a (Finite (Qmake (-1) 2)) (S fuel) = (Unexpected, 0).
Proof. repeat split. Qed.

End RetryFacts.

Import Retry RetryFacts.

(** C9, as the code has it. For every integer [maxAttempts >= 1] (up to
    2^53, where the loop counter is exact) and every run of per-attempt
    outcomes and abort states, [retryFetch] ends by returning a response
    that one of its attempts received or by throwing (the abort error, or
    the error one of its attempts threw), after at most [maxAttempts]
    calls and within [maxAttempts + 1] loop tests; the [throw] after the
    loop is not reached. *)
Theorem retry_settles_within_attempts
  (attempt_outcome : nat -> result Response) (signal_aborted : nat -> bool)
  (maxAttempts fuel : nat) :
  1 <= maxAttempts ->
  (Z.of_nat maxAttempts <= 2 ^ 53)%Z ->
  maxAttempts < fuel ->
  settled attempt_outcome maxAttempts
    (fst (retryFetch attempt_outcome signal_aborted maxAttempts fuel))
  /\ snd (retryFetch attempt_outcome signal_aborted maxAttempts fuel) <= maxAttempts
  /\ fst (retryFetch attempt_outcome signal_aborted maxAttempts fuel) <> Unexpected
  /\ fst (retryFetch attempt_outcome signal_aborted maxAttempts fuel) <> OutOfFuel.
Proof.
  intros H _ Hfuel. unfold retryFetch.
  destruct (loop_settles attempt_outcome signal_aborted maxAttempts fuel 0)
    as [Hs Hn]; [lia|lia|].
  repeat split; [exact Hs|lia| |];
    intros E; rewrite E in Hs;
    destruct Hs as [(r & k & _ & _ & Hr)|(err & Hr & _)]; discriminate.
Qed.

Lemma retry_settles_within_attempts_witness :
  settled (Sample.script (Ok (Sample.answer 503 "Service Unavailable")) []) 3
    (fst (retryFetch (Sample.script (Ok (Sample.answer 503 "Service Unavailable")) [])
            Sample.never_aborted 3 4))
  /\ snd (retryFetch (Sample.script (Ok (Sample.answer 503 "Service Unavailable")) [])
            Sample.never_aborted 3 4) <= 3.
Proof.
  pose proof (retry_settles_within_attempts
                (Sample.script (Ok (Sample.answer 503 "Service Unavailable")) [])
                Sample.never_aborted 3 4 (le_S 1 2 (le_S 1 1 (le_n 1)))
                (fun E : (Z.of_nat 3 ?= 2 ^ 53)%Z = Gt =>
                   eq_ind Lt (fun c => match c with Gt => False | _ => True end) I Gt E)
                (le_n 4)) as H.
  exact (conj (proj1 H) (proj1 (proj2 H))).
Defined.

(** C9 as stated fails on a [maxAttempts] that is not an integer: at 1.5,
    with a retryable status at every attempt, neither attempt is the last
    one ([attempt === 0.5] never holds), and after two calls the loop ends
    on the [throw] that follows it. *)
Lemma retry_fraction_counterexample :
  Qle_bool (inject_Z 1) (Qmake 3 2) = true
  /\ retryFetch (Sample.script (Ok (Sample.answer 503 "Service Unavailable")) [])
       Sample.never_aborted (Finite (Qmake 3 2)) 3
     = (Unexpected, 2).
Proof. split; reflexivity. Qed.

(** C5, as the code has it. With the two attempts [performSearch] allows
    and the signal not aborted: a first response whose status is outside
    the fixed set 408, 429, 500, 502, 503, 504 is returned after exactly
    one call; a first response whose status is in the set, followed by a
    successful second one, gives exactly two calls and the success; the
    calls never exceed two. (Two attempts take three loop tests at
    most.) *)
Theorem retry_policy_two_attempts
  (attempt_outcome : nat -> result Response) (signal_aborted : nat -> bool)
  (first : Response) :
  signal_aborted 0 = false ->
  attempt_outcome 0 = Ok first ->
  (has RETRYABLE_STATUS (status first) = false ->
     retryFetch attempt_outcome signal_aborted 2 3 = (Returned first, 1))
  /\ (has RETRYABLE_STATUS (status first) = true ->
      forall second,
        signal_aborted 1 = false -> attempt_outcome 1 = Ok second ->
        ok second = true ->
        retryFetch attempt_outcome signal_aborted 2 3 = (Returned second, 2))
  /\ snd (retryFetch attempt_outcome signal_aborted 2 3) <= 2.
Proof.
  intros Ha Ho. repeat split.
  - intros Hs. unfold retryFetch. cbn [loop].
    change (less 0 2) with true. cbn iota.
    rewrite Ha, Ho, Hs. now rewrite orb_true_r.
  - intros Hs second Ha1 Ho1 Hok. unfold retryFetch. cbn [loop].
    change (less 0 2) with true. change (less 1 2) with true.
    change (is_last 0 2) with false. cbn iota.
    rewrite Ha, Ho, Hs, (retryable_is_not_ok first Hs).
    cbn [negb orb]. rewrite Ha1, Ho1, Hok. reflexivity.
  - apply (loop_calls attempt_outcome signal_aborted 2 3 0).
Qed.

Lemma retry_policy_two_attempts_witness :
  retryFetch
    (Sample.script (Ok (Sample.answer 503 "Service Unavailable"))
                   [Ok (Sample.answer 200 "OK")])
    Sample.never_aborted 2 3
  = (Returned (Sample.answer 200 "OK"), 2).
Proof.
  exact (proj1 (proj2
    (retry_policy_two_attempts
       (Sample.script (Ok (Sample.answer 503 "Service Unavailable"))
                      [Ok (Sample.answer 200 "OK")])
       Sample.never_aborted (Sample.answer 503 "Service Unavailable")
       eq_refl eq_refl))
    eq_refl (Sample.answer 200 "OK") eq_refl eq_refl eq_refl).
Defined.

(** C5 as stated fails on a 5xx status outside the set: 501 on the first
    attempt with a success ready for the second gives one call, and the
    501 response is what comes back. *)
Lemma retry_5xx_counterexample :
  Nat.leb 500 501 && Nat.leb 501 599 = true
  /\ retryFetch
       (Sample.script (Ok (Sample.answer 501 "Not Implemented"))
                      [Ok (Sample.answer 200 "OK")])
       Sample.never_aborted 2 3
     = (Returned (Sample.answer 501 "Not Implemented"), 1).
Proof. split; reflexivity. Qed.

(** ** What the dispatchers send upstream and hand back *)

Module DispatchFacts.


Lemma lookup_delete_other (k k' : string) (fields : list (string * json)) :
  (k' =? k) = false -> lookup k' (delete k fields) = lookup k' fields.
Proof.
  intros H. induction fields as [|[k2 v] fields IH]; [reflexivity|].
  cbn [delete lookup]. destruct (k =? k2) eqn:E.
  - apply String.eqb_eq in E. subst k2. now rewrite H.
  - cbn [lookup]. now rewrite IH.
Qed.

Section WithRuntime.
Context {rt : Runtime}.

(** The request index.ts sends is the body built from the arguments, once. *)
Lemma Index_sends_once (env : Env) (query : value) (options : Options) :
  snd (Index.performSearch env query options) = [Index.request_body query options].
Proof. reflexivity. Qed.

Lemma Part001_sends_same (env : Env) (query : value) (options : Options) :
  snd (Part001.performSearch env query options)
  = repeat (Part001.request_body query options)
           (snd (Part001.send env (Part001.request_body query options))).
Proof.
  unfold Part001.performSearch.
  now destruct (Part001.send env (Part001.request_body query options)).
Qed.

(** Where the query is checked first, a call without a string [query]
    sends nothing upstream and is answered with an error: the stdio
    handlers, [/mcp/call] of both HTTP servers, and [tools/call] of
    part_000 (there through [query.substring] in its log line). *)
Lemma validated_entries (env : Env) (args id : value) :
  typeof (get_opt args "query") <> T_string ->
  (snd (Index.CallTool env TOOL args) = []
   /\ isError (fst (Index.CallTool env TOOL args)) = true)
  /\ (snd (Part001.CallTool env TOOL args) = []
      /\ isError (fst (Part001.CallTool env TOOL args)) = true)
  /\ (snd (Server.mcp_call env (call_body args)) = []
      /\ exists msg, fst (Server.mcp_call env (call_body args))
                     = Sent 400 (ToolError msg true))
  /\ (snd (Part000.mcp_call env (call_body args)) = []
      /\ exists msg, fst (Part000.mcp_call env (call_body args))
                     = Sent 400 (ToolError msg true))
  /\ (snd (Part000.tools_call env id args) = []
      /\ exists msg, fst (Part000.tools_call env id args)
                     = Sent 200 (RpcError id InternalError msg)).
Proof.
  intros H.
  assert (Hq : forall q, args = Some q -> forall s, own q "query" <> Some (JStr s)).
  { intros q -> s E. apply H. destruct q; cbn in *; try discriminate; now rewrite E. }
  repeat split.
  1,2,3,4:
    unfold Index.CallTool, Part001.CallTool;
    destruct (truthy args); cbn [negb]; [|reflexivity];
    change (TOOL =? TOOL) with true; cbn iota;
    destruct (typeof (get_opt args "query")); try reflexivity; congruence.
  1,2,3,4:
    destruct args as [a|]; [|cbn; eauto];
    unfold Server.mcp_call, Part000.mcp_call, call_body;
    cbn [destructure get own lookup String.eqb Ascii.eqb Bool.eqb bind];
    destruct (truthy (Some a)); cbn [negb]; [|cbn; eauto];
    change (Server.is_string (Some (JStr TOOL)) TOOL) with true; cbn iota;
    destruct (typeof (get_opt (Some a) "query")); cbn; eauto; congruence.
  1,2:
    unfold Part000.tools_call;
    destruct args as [a|]; [|cbn; eauto];
    destruct a; cbn; eauto;
    match goal with
    | |- context [lookup "query" ?f] =>
        destruct (lookup "query" f) as [[]|] eqn:E; cbn; eauto;
        exfalso; eapply (Hq (JObj f) eq_refl); cbn; exact E
    end.
Qed.

End WithRuntime.
End DispatchFacts.

Import DispatchFacts.

(** ** The live re-stream of server.ts *)

Module LiveFacts.
Import Sse Wire SplitFacts FrameFacts DecoderFacts.

Section WithRuntime.
Context {rt : Runtime}.

Lemma sse_lines_app (l1 l2 : list string) :
  forall st,
    Server.sse_lines st (l1 ++ l2)
    = match Server.sse_lines st l1 with
      | (st', true) => (st', true)
      | (st', false) => Server.sse_lines st' l2
      end.
Proof.
  induction l1 as [|line l1 IH]; intros st; [reflexivity|].
  cbn [app Server.sse_lines].
  destruct (Server.sse_line st line) as [st' [|]]; [reflexivity|apply IH].
Qed.

(** The reads as one pass over the complete lines of the whole text. *)
Lemma sse_reads_lines (chunks : list string) (failure : option error) :
  forall b st,
    lines_of b = [] -> rest_of b = b ->
    Server.sse_reads b st chunks failure
    = finish (Server.sse_lines st (lines_of (b ++ joined chunks))) failure.
Proof.
  induction chunks as [|c cs IH]; intros b st Hl Hr.
  - change (joined []) with "". rewrite append_nil_r, Hl. reflexivity.
  - rewrite concat_cons, <- append_assoc, lines_of_app, sse_lines_app.
    cbn [Server.sse_reads]. fold (lines_of (b ++ c)). fold (rest_of (b ++ c)).
    destruct (Server.sse_lines st (lines_of (b ++ c))) as [st' [|]]; [reflexivity|].
    destruct (rest_of_idem (b ++ c)) as [Hl' Hr'].
    apply (IH _ _ Hl' Hr').
Qed.

Lemma still_open_app (a b : list event) :
  still_open a -> still_open b -> still_open (a ++ b).
Proof. unfold still_open. intros Ha Hb. now rewrite forallb_app, Ha, Hb. Qed.

Lemma closing_closed (written : list event) (sr : value) :
  still_open written -> closed (written ++ Server.closing sr).
Proof.
  intros H. unfold Server.closing.
  destruct (truthy sr).
  - destruct (formatSearchResults sr) as [citations|e].
    + exists (written ++ [ECitations citations])%list, EDone.
      rewrite <- app_assoc. repeat split.
      apply still_open_app; [exact H|reflexivity].
    + exists written, (EError (String_of_error e)). repeat split. exact H.
  - exists written, EDone. repeat split. exact H.
Qed.

Lemma sse_line_events (st : value * list event) (line : string) :
  still_open (snd st) ->
  match Server.sse_line st line with
  | (st', true) => closed (snd st')
  | (st', false) => still_open (snd st')
  end.
Proof.
  intros H. unfold Server.sse_line.
  destruct (trim_is_empty line || negb (startsWith data_prefix line)); [exact H|].
  destruct (slice 6 line =? DONE); [now apply closing_closed|].
  destruct (JSON_parse (slice 6 line)) as [chunk|]; cbn [bind]; [|exact H].
  destruct (chunk_delta chunk) as [d|]; cbn [bind snd]; [|exact H].
  destruct (truthy d); [|exact H].
  apply still_open_app; [exact H|reflexivity].
Qed.

Lemma sse_lines_events (lines : list string) :
  forall st,
    still_open (snd st) ->
    match Server.sse_lines st lines with
    | (st', true) => closed (snd st')
    | (st', false) => still_open (snd st')
    end.
Proof.
  induction lines as [|line lines IH]; intros st H; [exact H|].
  cbn [Server.sse_lines]. pose proof (sse_line_events st line H) as Hl.
  destruct (Server.sse_line st line) as [st' [|]]; [exact Hl|now apply IH].
Qed.

Lemma finish_closed (r : (value * list event) * bool) (failure : option error) :
  match r with
  | (st', true) => closed (snd st')
  | (st', false) => still_open (snd st')
  end ->
  closed (finish r failure).
Proof.
  destruct r as [st' [|]]; cbn [finish]; intros H; [exact H|].
  destruct failure as [e|].
  - exists (snd st'), (EError (String_of_error e)). repeat split. exact H.
  - now apply closing_closed.
Qed.

(** The reply when the re-stream starts: an event stream under status
    200 that one terminal event ends, an error event when a read fails
    before the sentinel is seen. *)
Lemma streamed_body (response : Response) (b : Body) :
  body response = Some b ->
  exists events,
    Server.streamed response = Sent 200 (Events events)
    /\ closed events
    /\ (forall err st,
          failure b = Some err ->
          Server.sse_lines (None, []) (lines_of (joined (chunks b))) = (st, false) ->
          events = (snd st ++ [EError (String_of_error err)])%list).
Proof.
  intros Hb. unfold Server.streamed, Server.streamPerplexityToSSE. rewrite Hb.
  rewrite (sse_reads_lines (chunks b) (failure b) "" (None, []) eq_refl eq_refl).
  change ("" ++ joined (chunks b)) with (joined (chunks b)).
  eexists. split; [reflexivity|]. split.
  - apply finish_closed. apply sse_lines_events. reflexivity.
  - intros err st Hf Hl. now rewrite Hl, Hf.
Qed.

End WithRuntime.
End LiveFacts.

Import LiveFacts.

(** ** The claims about the dispatchers *)

(** C3, at the input where the code departs from it. A stream that is
    only the completion sentinel (no delta, no citations): through
    [handleStreamingResponse] the stdio handlers answer with an empty text
    block, while [consumePerplexityStream] and the [/mcp/call] and
    [tools/call] endpoints of part_000 answer with the placeholder and no
    citation block. *)
Theorem empty_stream_text_by_entry {rt : Runtime} :
  let upstream := Sample.always (Ok (Sample.ok_stream [frame DONE])) in
  let streaming := Some (JObj [("query", JStr "q"); ("stream", JBool true)]) in
  let default := Some (JObj [("query", JStr "q")]) in
  handleStreamingResponse (Sample.ok_stream [frame DONE]) = Ok ""
  /\ fst (Index.CallTool upstream TOOL streaming)
     = mkResult [Text (Some (JStr ""))] false
  /\ fst (Part001.CallTool upstream TOOL default)
     = mkResult [Text (Some (JStr ""))] false
  /\ fst (Part000.mcp_call upstream (call_body streaming))
     = Sent 200 (ToolResult [Text (Some (JStr placeholder))] false)
  /\ fst (Part000.mcp upstream (rpc_call (JNum 1%float) default))
     = Sent 200 (RpcResult (Some (JNum 1%float)) [Text (Some (JStr placeholder))]).
Proof. repeat split. Qed.

(** The draining path of part_000 in general: no text and no citations
    give the placeholder as the only content. *)
Lemma consumed_empty_is_placeholder {rt : Runtime}
  (code : nat) (reason : string) (chunks : list string) :
  c_content (snd (consume_loop chunks)) = "" ->
  c_searchResults (snd (consume_loop chunks)) = None ->
  Part000.content_of (inl (mkResponse code reason (Some (mkBody chunks None))))
  = Ok [Text (Some (JStr placeholder))].
Proof.
  intros Hc Hs. unfold Part000.content_of, consumePerplexityStream.
  cbn [Net.body Net.chunks Net.failure bind]. rewrite Hc, Hs. reflexivity.
Qed.

(** C4, at the input where the code departs from it. The [tools/call]
    branch of [/mcp] in server.ts does not look at [query]: a call with no
    [query] sends one request upstream (with no message content). *)
Theorem server_tools_call_sends_unchecked {rt : Runtime} (env : Env) :
  snd (Server.mcp env (rpc_call (JNum 1%float) (Some (JObj []))))
  = [mkRequestBody "sonar" None false None None None None None None].
Proof. reflexivity. Qed.

(** C6, as the code has it. A call that passed validation (the tool
    name, an arguments object, a string [query]) and then meets an error.
    index.ts (stdio): a network failure, an upstream status that is not
    2xx, an unparsable body, anything thrown while the stream is drained,
    each comes back as a result whose [isError] is true. server.ts
    ([/mcp/call]): a network failure, a status that is not 2xx and an
    unparsable body are answered with [{error, isError: true}] under HTTP
    status 500; when streaming, the answer is an event stream under status
    200 that one terminal event ends, an error event if a read fails
    before the sentinel, and an upstream response without a body leaves
    the request unanswered. part_000 ([/mcp/call]): a network failure or
    timeout, a status that is not 2xx and a failed read are answered with
    [{error, isError: true}] under status 500. Status 400 is not used for
    such a call. *)
Theorem errors_after_validation {rt : Runtime}
  (env : Env) (fields : list (string * json)) (q : string) :
  lookup "query" fields = Some (JStr q) ->
  let args := Some (JObj fields) in
  let query := Some (JStr q) in
  let stream := Server.shouldStream_of args in
  let stdio := Index.request_body query (Index.options_of args) in
  let plain := Index.request_body query (Server.options_of args stream) in
  let retried := Part000.request_body query (Part000.options_of args stream) in
  let network err :=
    "Network error while calling Perplexity API: " ++ String_of_error err in
  let unparsable err := "Failed to parse JSON response: " ++ String_of_error err in
  let as_result msg := mkResult [Text (Some (JStr ("Error: " ++ msg)))] true in
  let as_500 msg := Sent 500 (ToolError msg true) in
  (* index.ts *)
  ((forall err, fetch env 0 stdio = Throw err ->
      fst (Index.CallTool env TOOL args) = as_result (network err))
   /\ (forall response, fetch env 0 stdio = Ok response -> ok response = false ->
         fst (Index.CallTool env TOOL args)
         = as_result (message (Index.upstream_error response)))
   /\ (forall response err,
         fetch env 0 stdio = Ok response -> ok response = true ->
         b_stream stdio = false -> json_of response = Throw err ->
         fst (Index.CallTool env TOOL args) = as_result (unparsable err))
   /\ (forall response err,
         fetch env 0 stdio = Ok response -> ok response = true ->
         b_stream stdio = true -> handleStreamingResponse response = Throw err ->
         fst (Index.CallTool env TOOL args) = as_result (message err)))
  (* server.ts *)
  /\ ((forall err, fetch env 0 plain = Throw err ->
         fst (Server.mcp_call env (call_body args)) = as_500 (network err))
      /\ (forall response, fetch env 0 plain = Ok response -> ok response = false ->
            fst (Server.mcp_call env (call_body args))
            = as_500 (message (Index.upstream_error response)))
      /\ (forall response err,
            fetch env 0 plain = Ok response -> ok response = true ->
            stream = false -> json_of response = Throw err ->
            fst (Server.mcp_call env (call_body args)) = as_500 (unparsable err))
      /\ (forall response b,
            fetch env 0 plain = Ok response -> ok response = true ->
            stream = true -> body response = Some b ->
            exists events,
              fst (Server.mcp_call env (call_body args)) = Sent 200 (Events events)
              /\ closed events
              /\ (forall err st,
                    failure b = Some err ->
                    Server.sse_lines (None, []) (lines_of (joined (chunks b)))
                    = (st, false) ->
                    events = (snd st ++ [EError (String_of_error err)])%list))
      /\ (forall response,
            fetch env 0 plain = Ok response -> ok response = true ->
            stream = true -> body response = None ->
            fst (Server.mcp_call env (call_body args))
            = Unanswered (Error "Response body is not readable"))
      /\ (forall p, fst (Server.mcp_call env (call_body args)) <> Sent 400 p))
  (* part_000 *)
  /\ ((forall err, fst (Part001.send env retried) = Retry.Raised err ->
         exists msg, fst (Part000.mcp_call env (call_body args)) = as_500 msg)
      /\ (forall response,
            fst (Part001.send env retried) = Retry.Returned response ->
            ok response = false ->
            exists msg, fst (Part000.mcp_call env (call_body args)) = as_500 msg)
      /\ (forall response b err,
            fst (Part001.send env retried) = Retry.Returned response ->
            ok response = true -> stream = true ->
            body response = Some b -> failure b = Some err ->
            exists msg, fst (Part000.mcp_call env (call_body args)) = as_500 msg)
      /\ (forall p, fst (Part000.mcp_call env (call_body args)) <> Sent 400 p)).
Proof.
  intros Hq args query stream stdio plain retried network unparsable as_result as_500.
  assert (Hi : Index.CallTool env TOOL args
               = let (r, sent) := Index.performSearch env query (Index.options_of args) in
                 match r with
                 | Ok answer => (mkResult [Text (Some (JStr answer))] false, sent)
                 | Throw e => (Index.error_result e, sent)
                 end).
  { unfold Index.CallTool, args. cbn [truthy negb].
    change (TOOL =? TOOL) with true. cbn iota.
    cbn [get_opt own]. now rewrite Hq. }
  assert (Hs : Server.mcp_call env (call_body args)
               = let (r, sent) := Server.performSearch env query
                                    (Server.options_of args stream) in
                 (match r with
                  | Throw e => Server.failed e
                  | Ok (inl response) =>
                      if stream then Server.streamed response
                      else Sent 200 (ToolResult [Text (Some (JObj []))] false)
                  | Ok (inr answer) =>
                      Sent 200 (ToolResult [Text (Some (JStr answer))] false)
                  end, sent)).
  { unfold Server.mcp_call, call_body, args.
    cbn [destructure own lookup String.eqb Ascii.eqb Bool.eqb bind truthy negb].
    change (Server.is_string (Some (JStr TOOL)) TOOL) with true. cbn iota.
    cbn [get_opt own]. now rewrite Hq. }
  assert (Hp : Part000.mcp_call env (call_body args)
               = match ToString (get_opt args "stream") with
                 | Throw e => (Server.failed e, [])
                 | Ok _ =>
                     let (r, sent) := Part000.performSearch env query
                                        (Part000.options_of args stream) in
                     (match (result <- r ;; Part000.content_of result) with
                      | Throw e => Server.failed e
                      | Ok content => Sent 200 (ToolResult content false)
                      end, sent)
                 end).
  { unfold Part000.mcp_call, call_body, args.
    cbn [destructure own lookup String.eqb Ascii.eqb Bool.eqb bind truthy negb].
    change (Server.is_string (Some (JStr TOOL)) TOOL) with true. cbn iota.
    cbn [get_opt own]. now rewrite Hq. }
  assert (Hstream : b_stream plain = stream) by reflexivity.
  split; [|split].
  - rewrite Hi. unfold Index.performSearch. fold stdio. cbn [fst].
    repeat split.
    + intros err E. now rewrite E.
    + intros response E Hok. now rewrite E, Hok.
    + intros response err E Hok Hb Hj. now rewrite E, Hok, Hb, Hj.
    + intros response err E Hok Hb Hd. now rewrite E, Hok, Hb, Hd.
  - rewrite Hs. unfold Server.performSearch. fold plain. cbn [fst].
    rewrite Hstream. repeat split.
    + intros err E. now rewrite E.
    + intros response E Hok. now rewrite E, Hok.
    + intros response err E Hok Hb Hj. now rewrite E, Hok, Hb, Hj.
    + intros response b E Hok Hb Hbody. rewrite E, Hok, Hb. cbn [negb].
      apply (streamed_body response b Hbody).
    + intros response E Hok Hb Hbody. rewrite E, Hok, Hb. cbn [negb].
      unfold Server.streamed, Server.streamPerplexityToSSE. now rewrite Hbody.
    + intros p.
      destruct (fetch env 0 plain) as [response|err]; [|discriminate].
      destruct (negb (ok response)); [discriminate|].
      destruct stream.
      * unfold Server.streamed.
        destruct (Server.streamPerplexityToSSE response); discriminate.
      * destruct (json_of response) as [data|]; [|discriminate].
        destruct (Index.buffered_answer data); discriminate.
  - rewrite Hp.
    destruct (ToString (get_opt args "stream")) as [printed|e].
    2: { cbn [fst]. unfold as_500, Server.failed.
         repeat split; try (intros; eexists; reflexivity). intros p. discriminate. }
    unfold Part000.performSearch. fold retried.
    assert (Hr : b_stream retried = stream) by reflexivity.
    destruct (Part001.send env retried) as [e n]. cbn [fst].
    repeat split.
    + intros err E. rewrite E. cbn [bind]. unfold as_500, Server.failed. eauto.
    + intros response E Hok. rewrite E, Hok. cbn [negb bind].
      unfold as_500, Server.failed. eauto.
    + intros response b err E Hok Hb Hbody Hf. rewrite E, Hok, Hr, Hb. cbn [negb bind].
      unfold Part000.content_of, consumePerplexityStream. rewrite Hbody, Hf.
      cbn [bind]. unfold as_500, Server.failed. eauto.
    + intros p.
      match goal with
      | |- context [match ?c with Ok _ => _ | Throw _ => _ end] =>
          destruct c; unfold Server.failed; discriminate
      end.
Qed.

Lemma errors_after_validation_witness :
  fst (Server.mcp_call (rt := Sample.runtime) (Sample.always (Throw Sample.fetch_failed))
         (call_body (Some (JObj [("query", JStr "q")]))))
  = Sent 500
      (ToolError "Network error while calling Perplexity API: TypeError: fetch failed"
                 true).
Proof.
  exact (proj1 (proj1 (proj2
    (errors_after_validation (rt := Sample.runtime)
       (Sample.always (Throw Sample.fetch_failed)) [("query", JStr "q")] "q"
       eq_refl)))
    Sample.fetch_failed eq_refl).
Defined.

(** In the live re-stream of server.ts a read that fails at once is not a
    500: it is written as an error event on the stream already opened
    with 200. *)
Lemma live_stream_failure_is_event {rt : Runtime}
  (code : nat) (reason : string) (err : error) :
  Server.streamed (mkResponse code reason (Some (mkBody [] (Some err))))
  = Sent 200 (Events [EError (String_of_error err)]).
Proof. reflexivity. Qed.

(** C6 as stated fails: a network failure after validation reaches the
    caller of [/mcp/call] as HTTP status 500, in both HTTP servers. *)
Lemma network_failure_is_http_500 :
  fst (Part000.mcp_call (rt := Sample.runtime)
         (Sample.always (Throw Sample.fetch_failed))
         (call_body (Some (JObj [("query", JStr "q")]))))
  = Sent 500
      (ToolError "Network error while calling Perplexity API: TypeError: fetch failed"
                 true)
  /\ fst (Server.mcp_call (rt := Sample.runtime)
            (Sample.always (Throw Sample.fetch_failed))
            (call_body (Some (JObj [("query", JStr "q")]))))
     = Sent 500
         (ToolError "Network error while calling Perplexity API: TypeError: fetch failed"
                    true).
Proof. split; reflexivity. Qed.

(** The two answers of server.ts that are neither: with [stream: true] a
    read that fails after one delta ends the 200 stream with an error
    event, and a response without a body is not answered. *)
Example streaming_failures_of_server :
  let streaming := call_body (Some (JObj [("query", JStr "q"); ("stream", JBool true)])) in
  fst (Server.mcp_call (rt := Sample.runtime)
         (Sample.always
            (Ok (mkResponse 200 "OK"
                   (Some (mkBody [frame Sample.p_hello] (Some Sample.fetch_failed))))))
         streaming)
  = Sent 200 (Events [EContent (Some (JStr "Hel")); EError "TypeError: fetch failed"])
  /\ fst (Server.mcp_call (rt := Sample.runtime)
            (Sample.always (Ok (mkResponse 200 "OK" None))) streaming)
     = Unanswered (Error "Response body is not readable").
Proof. split; reflexivity. Qed.




(** A number that is not finite (the value of [1e400] once parsed) passes
    the type test and is written [null]. *)
Example infinite_number_sent_as_null :
  map JSON_stringify
    (snd (Index.CallTool (rt := Sample.runtime)
            (Sample.always (Throw Sample.fetch_failed)) TOOL
            (Some (JObj [("query", JStr "q"); ("max_tokens", JNum PrimFloat.infinity);
                         ("temperature", JNum PrimFloat.infinity)]))))
  = [JObj [("model", JStr "sonar");
           ("messages", JArr [JObj [("role", JStr "user"); ("content", JStr "q")]]);
           ("stream", JBool false);
           ("max_tokens", JNull); ("temperature", JNull)]].
Proof. reflexivity. Qed.

(** C10. [performSearch] leaves [max_tokens] out of the request body when
    its value is 0, and puts [temperature] in when its value is 0; the body
    so built is what is sent (index.ts: once; part_001: at every
    attempt), and a 0 the caller supplies reaches [performSearch] as that
    number. *)
Theorem zero_max_tokens_dropped_zero_temperature_kept {rt : Runtime}
  (env : Env) (query : value) (options : Options) (fields : list (string * json)) :
  b_max_tokens (Index.request_body query (with_max_tokens 0%float options)) = None
  /\ b_temperature (Index.request_body query (with_temperature 0%float options))
     = Some 0%float
  /\ b_max_tokens (Part001.request_body query (with_max_tokens 0%float options)) = None
  /\ b_temperature (Part001.request_body query (with_temperature 0%float options))
     = Some 0%float
  /\ snd (Index.performSearch env query options)
     = [Index.request_body query options]
  /\ snd (Part001.performSearch env query options)
     = repeat (Part001.request_body query options)
              (snd (Part001.send env (Part001.request_body query options)))
  /\ b_max_tokens
       (Index.request_body query
          (Index.options_of (Some (JObj (("max_tokens", JNum 0%float) :: fields)))))
     = None
  /\ b_temperature
       (Index.request_body query
          (Index.options_of (Some (JObj (("temperature", JNum 0%float) :: fields)))))
     = Some 0%float.
Proof.
  repeat split.
  apply Part001_sends_same.
Qed.

(* ================================================================== *)
(** * Part III. Further properties of the code *)
(* ================================================================== *)

(** ** The buffer and the text, for any bytes and any chunking *)

Module BufferFacts.
Import Sse Wire SplitFacts LoopFacts FrameFacts DecoderFacts CitationFacts.

Lemma rest_of_no_LF (s : string) : has_LF (rest_of s) = false.
Proof.
  unfold rest_of. induction s as [|c s IH]; [reflexivity|].
  destruct (Ascii.eqb c LF) eqn:Hc.
  - apply Ascii.eqb_eq in Hc. subst c. rewrite split_nl_LF.
    rewrite last_cons by apply split_nl_nonempty. exact IH.
  - destruct (split_nl_other c s Hc) as (seg & segs & Es & Ecs).
    rewrite Ecs. rewrite Es in IH.
    destruct segs as [|seg2 segs].
    + change (last [seg] "") with seg in IH.
      change (last [String c seg] "") with (String c seg).
      cbn [has_LF]. now rewrite Hc, IH.
    + rewrite last_cons by discriminate.
      rewrite last_cons in IH by discriminate. exact IH.
Qed.

Lemma no_LF_split (t : string) : has_LF t = false -> split_nl t = [t].
Proof.
  induction t as [|c t IH]; intros H; [reflexivity|].
  cbn [has_LF] in H. apply orb_false_iff in H. destruct H as [Hc Ht].
  destruct (split_nl_other c t Hc) as (seg & segs & E1 & E2).
  rewrite E2. rewrite (IH Ht) in E1. now inversion E1.
Qed.

Section Loop.
Context {A : Type}.
Variable body : A -> string -> A * flow.

Lemma read_buffer (chunks : list string) :
  forall (b : string) (acc : A),
    rest_of b = b ->
    fst (fold_left (read body) chunks (b, acc)) = rest_of (b ++ joined chunks).
Proof.
  induction chunks as [|c cs IH]; intros b acc Hb.
  - change (joined []) with "". now rewrite append_nil_r, Hb.
  - rewrite concat_cons, <- append_assoc, rest_of_app.
    change (fold_left (read body) (c :: cs) (b, acc))
      with (fold_left (read body) cs
              (rest_of (b ++ c), for_lines body acc (lines_of (b ++ c)))).
    apply IH. apply (rest_of_idem (b ++ c)).
Qed.

(** A text-valued view of the accumulator that every line can only
    extend. *)
Variable text : A -> string.
Hypothesis body_appends : forall acc line, extends (text acc) (text (fst (body acc line))).

Lemma extends_refl (a : string) : extends a a.
Proof. exists "". now rewrite append_nil_r. Qed.

Lemma extends_trans (a b c : string) : extends a b -> extends b c -> extends a c.
Proof.
  intros [x Hx] [y Hy]. exists (x ++ y). now rewrite Hy, Hx, append_assoc.
Qed.

Lemma for_lines_appends (lines : list string) :
  forall acc, extends (text acc) (text (for_lines body acc lines)).
Proof.
  induction lines as [|line lines IH]; intros acc; [apply extends_refl|].
  cbn [for_lines]. pose proof (body_appends acc line) as H.
  destruct (body acc line) as [acc' f]. cbn [fst] in H.
  destruct f; [|exact H].
  eapply extends_trans; [exact H|apply IH].
Qed.

Lemma reads_append (chunks : list string) :
  forall st, extends (text (snd st)) (text (snd (fold_left (read body) chunks st))).
Proof.
  induction chunks as [|c cs IH]; intros st; [apply extends_refl|].
  cbn [fold_left]. eapply extends_trans; [|apply IH].
  unfold read. cbn [snd]. apply for_lines_appends.
Qed.

End Loop.

Section WithRuntime.
Context {rt : Runtime}.

Lemma handle_record_appends (acc : handle_acc) (chunk : json) :
  extends (h_content acc) (h_content (handle_record acc chunk)).
Proof. rewrite handle_record_text. now eexists. Qed.

Lemma handle_line_appends (acc : handle_acc) (line : string) :
  extends (h_content acc) (h_content (fst (handle_line acc line))).
Proof.
  unfold handle_line.
  destruct (trim_is_empty line || negb (startsWith data_prefix line));
    [apply extends_refl|].
  destruct (slice 6 line =? DONE); [apply extends_refl|].
  destruct (JSON_parse (slice 6 line)); [apply handle_record_appends|apply extends_refl].
Qed.

Lemma consume_record_appends (acc : consume_acc) (chunk : json) :
  extends (c_content acc) (c_content (consume_record acc chunk)).
Proof. rewrite consume_record_text. now eexists. Qed.

Lemma consume_line_appends (acc : consume_acc) (line : string) :
  extends (c_content acc) (c_content (fst (consume_line acc line))).
Proof.
  unfold consume_line.
  destruct (trim_is_empty line || negb (startsWith data_prefix line));
    [apply extends_refl|].
  destruct (slice 6 line =? DONE); [apply extends_refl|].
  destruct (JSON_parse (slice 6 line)); [apply consume_record_appends|apply extends_refl].
Qed.

End WithRuntime.
End BufferFacts.

Import BufferFacts.

(** X1. Whatever bytes arrive and however they are chunked, after the
    last read the buffer of either loop is exactly the text after the last
    newline received; it holds no newline. *)
Theorem buffer_is_unfinished_line {rt : Runtime} (chunks : list string) :
  fst (handle_loop chunks) = rest_of (joined chunks)
  /\ fst (consume_loop chunks) = rest_of (joined chunks)
  /\ has_LF (fst (handle_loop chunks)) = false.
Proof.
  assert (H : forall A (body : A -> string -> A * flow) acc,
             fst (fold_left (read body) chunks ("", acc)) = rest_of (joined chunks))
    by (intros; now rewrite read_buffer).
  unfold handle_loop, consume_loop, handle_init, consume_init.
  rewrite !H. repeat split. apply rest_of_no_LF.
Qed.

(** X3. The accumulated text is append-only: whatever further chunks
    arrive, well-formed or not, the text after them starts with the text
    before them, in both loops. *)
Theorem text_is_append_only {rt : Runtime} (chunks more : list string) :
  extends (h_content (snd (handle_loop chunks)))
          (h_content (snd (handle_loop (chunks ++ more))))
  /\ extends (c_content (snd (consume_loop chunks)))
             (c_content (snd (consume_loop (chunks ++ more)))).
Proof.
  unfold handle_loop, consume_loop. rewrite !fold_left_app. split.
  - apply (reads_append handle_line h_content handle_line_appends).
  - apply (reads_append consume_line c_content consume_line_appends).
Qed.

(** ** Streams that stop without the sentinel *)

Module TailFacts.
Import Sse Wire SplitFacts LoopFacts FrameFacts DecoderFacts.

Lemma lines_of_open_stream (ps : list string) (tail : string) :
  forallb payload_ok ps = true -> has_LF tail = false ->
  lines_of (joined (map frame ps) ++ tail) = flat_map frame_lines ps
  /\ rest_of (joined (map frame ps) ++ tail) = tail.
Proof.
  intros H Ht. unfold lines_of, rest_of.
  rewrite (split_frames ps tail H), (no_LF_split tail Ht). split.
  - apply removelast_last.
  - apply last_last.
Qed.

Section Body.
Context {A : Type}.
Variable body : A -> string -> A * flow.
Variable on_payload : A -> string -> A.
Hypothesis body_blank : forall acc, body acc "" = (acc, Continue).
Hypothesis body_done : forall acc, body acc (data_prefix ++ DONE) = (acc, Break).
Hypothesis body_data : forall acc p,
  (p =? DONE) = false -> body acc (data_prefix ++ p) = (on_payload acc p, Continue).

Lemma open_frames_effect (ps : list string) :
  forallb payload_ok ps = true ->
  forall acc,
    fold_left (effect body) (flat_map frame_lines ps) acc = fold_left on_payload ps acc.
Proof.
  intros H acc.
  rewrite <- (frames_effect body on_payload body_blank body_done body_data ps H acc).
  rewrite fold_left_app. symmetry. apply fold_quiet.
  repeat constructor; intros a; [now rewrite body_done|now rewrite body_blank].
Qed.

Lemma open_stream_run (ps chunks : list string) (tail : string) (acc : A) :
  forallb payload_ok ps = true -> has_LF tail = false ->
  joined chunks = joined (map frame ps) ++ tail ->
  fold_left (read body) chunks ("", acc) = (tail, fold_left on_payload ps acc).
Proof.
  intros H Ht E.
  destruct (lines_of_open_stream ps tail H Ht) as [Hl Hr].
  pose proof (frames_staged body on_payload body_blank body_done body_data ps H) as Hs.
  apply staged_app in Hs. destruct Hs as [Hs _].
  rewrite (read_chunks body chunks "" acc eq_refl eq_refl).
  - change ("" ++ joined chunks) with (joined chunks).
    rewrite E, Hl, Hr. now rewrite open_frames_effect.
  - change ("" ++ joined chunks) with (joined chunks). now rewrite E, Hl.
Qed.

End Body.
End TailFacts.

Import TailFacts.

(** X2. A stream of complete frames followed by any text without a
    newline, however chunked: both loops decode exactly the complete
    frames, and the trailing text is still in the buffer when the stream
    ends, where nothing reads it. So the sentinel is not needed for the
    frames before it, and a last frame that lacks its newline is lost. *)
Theorem unterminated_tail_is_not_decoded {rt : Runtime}
  (ps chunks : list string) (tail : string) :
  forallb payload_ok ps = true ->
  has_LF tail = false ->
  joined chunks = joined (map frame ps) ++ tail ->
  handle_loop chunks = (tail, fold_left handle_payload ps (snd handle_init))
  /\ consume_loop chunks = (tail, fold_left consume_payload ps (snd consume_init)).
Proof.
  intros H Ht E. unfold handle_loop, consume_loop, handle_init, consume_init. split.
  - apply (open_stream_run handle_line handle_payload);
      auto using handle_data, handle_done.
  - apply (open_stream_run consume_line consume_payload);
      auto using consume_data, consume_done.
Qed.

Lemma unterminated_tail_is_not_decoded_witness :
  h_content (snd (handle_loop (rt := Sample.runtime)
     (Sample.chop 200 9 (frame Sample.p_hello ++ data_prefix ++ Sample.p_lo))))
  = "Hel".
Proof.
  exact (f_equal (fun st => h_content (snd st))
    (proj1 (unterminated_tail_is_not_decoded (rt := Sample.runtime)
       [Sample.p_hello]
       (Sample.chop 200 9 (frame Sample.p_hello ++ data_prefix ++ Sample.p_lo))
       (data_prefix ++ Sample.p_lo) eq_refl eq_refl eq_refl))).
Defined.

(** ** Records, the last chunk and the consolidated content *)

Module RecordFacts.
Import Sse Wire SplitFacts DecoderFacts CitationFacts.

Section WithRuntime.
Context {rt : Runtime}.

Lemma no_choices_throws (chunk : json) :
  no_choices chunk = true -> exists e, chunk_delta chunk = Throw e.
Proof. intros H. rewrite chunk_delta_no_choices, H. eauto. Qed.

Lemma no_choices_stops (chunk : json) :
  no_choices chunk = true -> runs_through chunk = false.
Proof. unfold runs_through. now intros ->. Qed.

(** When the log line has printed, the length test on the same value
    does not throw. *)
Lemma logged_is_listed (sr : value) :
  log_sources sr = Ok tt -> exists b, listed sr = Ok b.
Proof.
  unfold log_sources, listed, length_positive, ToNumber, ToString. intros H.
  destruct (truthy sr); [|eauto].
  destruct sr as [[| | | |items|fields]|]; eauto.
  destruct (lookup "length" fields) as [[| | | |items|fields']|];
    cbn [truthy bind] in *; eauto.
  - destruct (ToString_json (JArr items)); [cbn [bind]; eauto|discriminate].
  - destruct (ToString_json (JObj fields')); [cbn [bind]; eauto|discriminate].
Qed.

Lemma log_sources_unit (sr : value) (u : unit) : log_sources sr = Ok u -> u = tt.
Proof. now destruct u. Qed.

End WithRuntime.
End RecordFacts.

Import RecordFacts.

(** X4. A record whose [choices] is missing or [null] is dropped whole by
    [handleStreamingResponse], citations included, because reading
    [choices[0]] throws before anything is stored;
    [consumePerplexityStream] keeps of it only that it was the last chunk
    seen. *)
Theorem record_without_choices {rt : Runtime}
  (chunk : json) (acc : handle_acc) (cacc : consume_acc) :
  no_choices chunk = true ->
  handle_record acc chunk = acc
  /\ consume_record cacc chunk
     = mkConsume (c_content cacc) (c_searchResults cacc) (Some chunk).
Proof.
  intros H. rewrite handle_record_step, consume_record_step.
  rewrite (no_choices_stops chunk H). split; reflexivity.
Qed.

Lemma record_without_choices_witness :
  handle_record (rt := Sample.runtime) (mkHandle "so far" None)
    (JObj [("search_results", JArr [Sample.source "a"])])
  = mkHandle "so far" None.
Proof.
  exact (proj1 (record_without_choices (rt := Sample.runtime)
                  (JObj [("search_results", JArr [Sample.source "a"])])
                  (mkHandle "so far" None) (mkConsume "" None None) eq_refl)).
Defined.

(** X5. For a stream of frames that ends in the sentinel, however
    chunked, [consumePerplexityStream] returns unless its log line throws
    on the search results it kept, and the [id], [model] and [usage] it
    reports all come from one record, the last whose payload parsed (with
    ['unknown'] and ['sonar'] when that record gives no truthy value); a
    usage carried only by an earlier record is not reported. *)
Theorem completion_metadata_from_last_record {rt : Runtime}
  (ps chunks : list string) (code : nat) (reason : string) :
  forallb payload_ok ps = true ->
  joined chunks = sse_stream ps ->
  exists c,
    consumePerplexityStream (mkResponse code reason (Some (mkBody chunks None)))
    = (_ <- log_sources (hd None (citations (parsed ps))) ;; Ok c)
    /\ cc_id c = or_else (get_opt (last (map Some (parsed ps)) None) "id") (JStr "unknown")
    /\ cc_model c
       = or_else (get_opt (last (map Some (parsed ps)) None) "model") (JStr "sonar")
    /\ cc_usage c = get_opt (last (map Some (parsed ps)) None) "usage".
Proof.
  intros H E. unfold consumePerplexityStream. cbn [Net.body Net.chunks Net.failure].
  rewrite (consume_stream ps chunks H E). cbn [snd].
  rewrite (proj2 (payloads_parsed ps)).
  fold (consume_records (parsed ps)). rewrite consume_records_state.
  cbn [c_content c_searchResults c_lastChunk].
  eexists. split; [reflexivity|]. repeat split.
Qed.

Lemma completion_metadata_from_last_record_witness :
  exists c,
    consumePerplexityStream (rt := Sample.runtime)
      (mkResponse 200 "OK"
         (Some (mkBody (Sample.chop 200 11 (sse_stream [Sample.p_hello; Sample.p_lo]))
                       None))) = Ok c
    /\ cc_id c = Some (JStr "unknown").
Proof.
  destruct (completion_metadata_from_last_record (rt := Sample.runtime)
              [Sample.p_hello; Sample.p_lo]
              (Sample.chop 200 11 (sse_stream [Sample.p_hello; Sample.p_lo]))
              200 "OK" eq_refl eq_refl) as (c & Hc & Hid & _).
  exists c. split; [exact Hc|exact Hid].
Defined.

(** The log line can throw: search results that are an object whose
    [length] is an object with a key [toString] are kept by the loop and
    cannot be printed. *)
Example log_line_loses_answer :
  let odd := JObj [("choices", JArr []);
                   ("search_results",
                    JObj [("length", JObj [("toString", JNull)])])] in
  c_searchResults (consume_records (rt := Sample.runtime) [Sample.delta_chunk "Hi"; odd])
  = own odd "search_results"
  /\ log_sources (rt := Sample.runtime) (own odd "search_results")
     = Throw (mkError "TypeError" "Cannot convert object to primitive value").
Proof. split; reflexivity. Qed.

(** X6. Whatever the upstream stream holds, when it is read to its end
    part_000 builds a content from it unless the log line of
    [consumePerplexityStream] throws; that content starts with a text
    block whose text is not empty, followed by nothing or by one citation
    block whose list is truthy and of positive length. *)
Theorem consolidated_text_never_empty {rt : Runtime}
  (code : nat) (reason : string) (chunks : list string) :
  match Part000.content_of (inl (mkResponse code reason (Some (mkBody chunks None)))) with
  | Ok content =>
      exists text rest,
        content = Text (Some (JStr text)) :: rest
        /\ (text =? "") = false
        /\ (rest = []
            \/ exists results,
                 rest = [Resource results]
                 /\ truthy results = true /\ length_positive results = Ok true)
  | Throw e => log_sources (c_searchResults (snd (consume_loop chunks))) = Throw e
  end.
Proof.
  unfold Part000.content_of, consumePerplexityStream.
  cbn [Net.body Net.chunks Net.failure].
  set (acc := snd (consume_loop chunks)).
  destruct (log_sources (c_searchResults acc)) as [u|e] eqn:L; cbn [bind];
    [|reflexivity].
  rewrite (log_sources_unit _ _ L) in L.
  destruct (logged_is_listed _ L) as [b Hb].
  unfold content_of_completion. cbn [cc_content cc_search_results].
  rewrite Hb. cbn [bind].
  assert (Hrest : (if b then [Resource (c_searchResults acc)] else []) = []
                  \/ exists results,
                       (if b then [Resource (c_searchResults acc)] else [])
                       = [Resource results]
                       /\ truthy results = true /\ length_positive results = Ok true).
  { destruct b; [right|now left]. exists (c_searchResults acc).
    unfold listed in Hb. destruct (truthy (c_searchResults acc)); [auto|discriminate]. }
  destruct (c_content acc =? "") eqn:E.
  - exists placeholder. eexists. split; [reflexivity|]. split; [reflexivity|exact Hrest].
  - exists (c_content acc). eexists. rewrite E. split; [reflexivity|].
    split; [reflexivity|exact Hrest].
Qed.

(** ** [formatSearchResults] *)

Module FormatFacts.
Import Sse.

Section WithRuntime.
Context {rt : Runtime}.

(** Induction on a parsed value, entries of arrays included. *)
Lemma json_nested_ind (P : json -> Prop) :
  P JNull -> (forall b, P (JBool b)) -> (forall x, P (JNum x)) ->
  (forall s, P (JStr s)) ->
  (forall items, Forall P items -> P (JArr items)) ->
  (forall fields, P (JObj fields)) ->
  forall v, P v.
Proof.
  intros Hn Hb Hx Hs Ha Ho. fix IH 1. intros [| b | x | s | items | fields].
  - exact Hn.
  - apply Hb.
  - apply Hx.
  - apply Hs.
  - apply Ha. revert items. fix IHitems 1.
    intros [|i items]; constructor; [apply IH|apply IHitems].
  - apply Ho.
Qed.

Lemma in_order_throws {A} (steps : list (result A)) (e : error) :
  in_order steps = Throw e -> In (Throw e) steps.
Proof.
  induction steps as [|[a|e'] steps IH]; cbn [in_order]; [discriminate| |].
  - destruct (in_order steps); [discriminate|].
    intros H. right. apply IH. exact H.
  - intros H. left. now injection H as ->.
Qed.

(** The only error a conversion to string throws. *)
Lemma ToString_json_throws (v : json) :
  forall e, ToString_json v = Throw e -> e = not_primitive.
Proof.
  induction v as [| b | x | s | items IH | fields] using json_nested_ind;
    intros e; cbn [ToString_json]; try discriminate.
  - now destruct b.
  - destruct (in_order _) as [parts|e'] eqn:E; [discriminate|].
    intros H. injection H as <-.
    apply in_order_throws, in_map_iff in E. destruct E as (i & Hi & Hin).
    rewrite Forall_forall in IH. specialize (IH i Hin e').
    destruct i; try discriminate; apply IH; exact Hi.
  - destruct (lookup "toString" fields); [|discriminate].
    intros H. now injection H as <-.
Qed.

Lemma ToString_throws (v : value) (e : error) :
  ToString v = Throw e -> e = not_primitive.
Proof. destruct v as [j|]; [apply ToString_json_throws|discriminate]. Qed.

Lemma get_not_null (entry : json) (p : string) :
  is_null entry = false -> get (Some entry) p = Ok (own entry p).
Proof. now destruct entry. Qed.

(** An entry is formatted or throws, by its shape. *)
Lemma format_entry_spec (index : nat) (entry : json) :
  match format_entry index entry with
  | Ok _ => formattable entry = true
  | Throw e =>
      formattable entry = false
      /\ e = if is_null entry then nullish_read (Some JNull) "title" else not_primitive
  end.
Proof.
  unfold format_entry, formattable.
  destruct (is_null entry) eqn:N.
  - destruct entry; try discriminate. cbn. auto.
  - rewrite !(get_not_null _ _ N). cbn [bind negb andb]. unfold printable.
    destruct (ToString (own entry "title")) as [t|e] eqn:T; cbn [bind andb].
    2: { split; [reflexivity|now apply ToString_throws in T]. }
    destruct (ToString (own entry "url")) as [u|e] eqn:U; cbn [bind andb].
    2: { split; [reflexivity|now apply ToString_throws in U]. }
    destruct (truthy (own entry "snippet")); cbn [negb orb bind]; [|reflexivity].
    destruct (ToString (own entry "snippet")) as [n|e] eqn:S; cbn [bind].
    + reflexivity.
    + split; [reflexivity|now apply ToString_throws in S].
Qed.

Lemma format_entries_spec (entries : list json) :
  forall index formatted,
    match format_entries index entries formatted with
    | Ok _ => forallb formattable entries = true
    | Throw e =>
        exists front entry rest,
          entries = (front ++ entry :: rest)%list
          /\ forallb formattable front = true
          /\ formattable entry = false
          /\ e = if is_null entry then nullish_read (Some JNull) "title"
                 else not_primitive
    end.
Proof.
  induction entries as [|entry entries IH]; intros index formatted; [reflexivity|].
  cbn [format_entries forallb].
  pose proof (format_entry_spec index entry) as He.
  destruct (format_entry index entry) as [line|e]; cbn [bind].
  - rewrite He. cbn [andb].
    specialize (IH (S index) (formatted ++ line)).
    destruct (format_entries (S index) entries (formatted ++ line)) as [out|e];
      [exact IH|].
    destruct IH as (front & bad & rest & -> & Hf & Hb & Hee).
    exists (entry :: front), bad, rest. cbn [app forallb]. rewrite He, Hf. auto.
  - destruct He as [Hb Hee]. exists [], entry, entries. auto.
Qed.

Lemma null_not_formattable (entries : list json) :
  existsb is_null entries = true -> forallb formattable entries = false.
Proof.
  induction entries as [|entry entries IH]; [discriminate|].
  cbn [existsb forallb]. unfold formattable at 1.
  destruct (is_null entry); cbn [negb andb orb]; [reflexivity|].
  intros H. rewrite (IH H). apply andb_false_r.
Qed.

Lemma forallb_split_false {X} (f : X -> bool) (front rest : list X) (x : X) :
  f x = false -> forallb f (front ++ x :: rest) = false.
Proof.
  intros H. rewrite forallb_app. cbn [forallb]. rewrite H. apply andb_false_r.
Qed.

End WithRuntime.
End FormatFacts.

Import FormatFacts.

(** X7. On an array, [formatSearchResults] returns exactly when every
    entry can be formatted (it is not [null], its [title] and [url] can be
    printed, and so can its [snippet] when truthy); otherwise it throws at
    the first entry that cannot: the error of reading [title] of [null],
    or the error of converting an object with an own [toString] key to a
    string. Entries of any other shape are formatted, missing fields
    printing as they read. *)
Theorem formatting_throws_on_null_entry {rt : Runtime} (entries : list json) :
  match formatSearchResults (Some (JArr entries)) with
  | Ok _ => forallb formattable entries = true
  | Throw e =>
      exists front entry rest,
        entries = (front ++ entry :: rest)%list
        /\ forallb formattable front = true
        /\ formattable entry = false
        /\ e = if is_null entry then nullish_read (Some JNull) "title"
               else not_primitive
  end.
Proof.
  unfold formatSearchResults. cbn [truthy negb].
  destruct entries as [|entry entries]; [reflexivity|].
  apply format_entries_spec.
Qed.

(** An entry with a title that cannot be printed, and a list with a
    [null] after a good entry. *)
Example unformattable_entries :
  formatSearchResults (rt := Sample.runtime)
    (Some (JArr [JObj [("title", JObj [("toString", JNum 1%float)]);
                       ("url", JStr "https://example.org")]]))
  = Throw (mkError "TypeError" "Cannot convert object to primitive value")
  /\ formatSearchResults (rt := Sample.runtime) (Some (JArr [Sample.source "a"; JNull]))
     = Throw (mkError "TypeError" "Cannot read properties of null (reading 'title')").
Proof. split; reflexivity. Qed.

(** X8. Formatting entries one after the other composes: a list is
    formatted by formatting its front and going on with the rest, numbered
    from where the front stopped; if the front throws, so does the whole. *)
Theorem formatting_composes {rt : Runtime}
  (front rest : list json) (index : nat) (formatted : string) :
  format_entries index (front ++ rest) formatted
  = (s <- format_entries index front formatted ;;
     format_entries (index + List.length front) rest s).
Proof.
  revert index formatted.
  induction front as [|entry front IH]; intros index formatted.
  - cbn. now rewrite Nat.add_0_r.
  - cbn [app format_entries List.length].
    destruct (format_entry index entry) as [line|e]; cbn [bind]; [|reflexivity].
    rewrite IH. now rewrite Nat.add_succ_r.
Qed.

(** X9. When the citations captured from the stream are an array with a
    [null] entry, [handleStreamingResponse] throws once the stream is read,
    whatever text it accumulated (the error of reading [title] of [null],
    or that of an earlier entry that cannot be printed), and the stdio
    handler answers with an error instead of the text. *)
Theorem null_citation_loses_answer {rt : Runtime}
  (code : nat) (reason : string) (chunks : list string) (entries : list json) :
  h_searchResults (snd (handle_loop chunks)) = Some (JArr entries) ->
  existsb is_null entries = true ->
  exists e,
    handleStreamingResponse (mkResponse code reason (Some (mkBody chunks None)))
    = Throw e
    /\ (e = nullish_read (Some JNull) "title" \/ e = not_primitive).
Proof.
  intros Hs Hn. unfold handleStreamingResponse, citations_of.
  cbn [Net.body Net.chunks Net.failure]. rewrite Hs. cbn [truthy].
  unfold formatSearchResults. cbn [truthy negb].
  destruct entries as [|entry entries]; [discriminate|].
  pose proof (format_entries_spec (entry :: entries) 0
    (String LF (String LF "## Sources") ++ String LF (String LF ""))) as H.
  destruct (format_entries 0 (entry :: entries)
    (String LF (String LF "## Sources") ++ String LF (String LF ""))) as [str|e].
  - rewrite (null_not_formattable _ Hn) in H. discriminate.
  - exists e. split; [reflexivity|].
    destruct H as (front & bad & rest & _ & _ & _ & ->).
    destruct (is_null bad); auto.
Qed.

Lemma null_citation_loses_answer_witness :
  exists e,
    handleStreamingResponse (rt := Sample2.runtime)
      (mkResponse 200 "OK"
         (Some (mkBody [Wire.sse_stream [Sample2.p_null_source]] None)))
    = Throw e
    /\ (e = mkError "TypeError" "Cannot read properties of null (reading 'title')"
        \/ e = mkError "TypeError" "Cannot convert object to primitive value").
Proof.
  exact (null_citation_loses_answer (rt := Sample2.runtime) 200 "OK"
           [Wire.sse_stream [Sample2.p_null_source]] [JNull] eq_refl eq_refl).
Defined.

(** X10. Whenever the upstream response has a body, the re-emitted stream
    of server.ts ends with exactly one terminal event (the done marker or
    an error event), and it is the last event written: with or without the
    sentinel, with or without a failed read, whatever the chunking. *)
Theorem live_stream_ends_once {rt : Runtime}
  (code : nat) (reason : string) (b : Body) :
  exists before final,
    Server.streamPerplexityToSSE (mkResponse code reason (Some b))
    = Ok (before ++ [final])%list
    /\ forallb (fun e => negb (is_terminal e)) before = true
    /\ is_terminal final = true.
Proof.
  unfold Server.streamPerplexityToSSE. cbn [Net.body].
  rewrite (sse_reads_lines (chunks b) (failure b) "" (None, []) eq_refl eq_refl).
  destruct (finish_closed
              (Server.sse_lines (None, []) (lines_of ("" ++ joined (chunks b))))
              (failure b)) as (before & final & E & Ho & Hf).
  - apply sse_lines_events. reflexivity.
  - exists before, final. rewrite E. repeat split; assumption.
Qed.

(** X11. The re-emitted stream of server.ts depends on the bytes only:
    two chunkings of the same text give the same events, for any text (the
    function returns at the sentinel, so nothing after it is read). *)
Theorem live_stream_any_chunking {rt : Runtime}
  (code : nat) (reason : string) (chunks chunks' : list string)
  (failure : option error) :
  joined chunks = joined chunks' ->
  Server.streamPerplexityToSSE (mkResponse code reason (Some (mkBody chunks failure)))
  = Server.streamPerplexityToSSE (mkResponse code reason (Some (mkBody chunks' failure))).
Proof.
  intros E. unfold Server.streamPerplexityToSSE. cbn [Net.body Net.chunks Net.failure].
  rewrite !(sse_reads_lines _ failure "" (None, []) eq_refl eq_refl).
  now rewrite E.
Qed.

Lemma live_stream_any_chunking_witness :
  Server.streamPerplexityToSSE (rt := Sample.runtime)
    (mkResponse 200 "OK"
       (Some (mkBody [frame DONE ++ frame Sample.p_hello] None)))
  = Server.streamPerplexityToSSE (rt := Sample.runtime)
      (mkResponse 200 "OK"
         (Some (mkBody [frame DONE; frame Sample.p_hello] None))).
Proof.
  exact (live_stream_any_chunking (rt := Sample.runtime) 200 "OK"
           [frame DONE ++ frame Sample.p_hello] [frame DONE; frame Sample.p_hello]
           None eq_refl).
Defined.

Module LiveContentFacts.
Import Sse Wire SplitFacts FrameFacts DecoderFacts BufferFacts.

Section WithRuntime.
Context {rt : Runtime}.

Lemma sse_line_blank (st : value * list event) : Server.sse_line st "" = (st, false).
Proof. reflexivity. Qed.

Lemma sse_line_done (st : value * list event) :
  Server.sse_line st (data_prefix ++ DONE)
  = ((fst st, (snd st ++ Server.closing (fst st))%list), true).
Proof.
  unfold Server.sse_line. rewrite prefixed_not_blank, slice_prefix. reflexivity.
Qed.

Lemma sse_line_delta (e : string * string) (st : value * list event) :
  well_formed e = true ->
  exists sr,
    Server.sse_line st (data_prefix ++ fst e)
    = ((sr, (snd st ++ content_event (snd e))%list), false).
Proof.
  unfold well_formed. intros H. apply andb_true_iff in H. destruct H as [Hok H].
  unfold Server.sse_line.
  rewrite prefixed_not_blank, slice_prefix, (payload_ok_not_DONE _ Hok).
  destruct (JSON_parse (fst e)) as [chunk|]; [|discriminate]. cbn [bind].
  destruct (chunk_delta chunk) as [[d|]|]; try discriminate; cbn [bind].
  - destruct d; try discriminate.
    + unfold content_event. rewrite H. cbn [truthy]. rewrite app_nil_r.
      eexists. reflexivity.
    + apply String.eqb_eq in H. subst s. cbn [truthy]. unfold content_event.
      destruct (snd e =? ""); cbn [negb]; rewrite ?app_nil_r;
        eexists; reflexivity.
  - unfold content_event. rewrite H. cbn [truthy]. rewrite app_nil_r.
    eexists. reflexivity.
Qed.

Lemma sse_lines_frames (events : list (string * string)) :
  forallb well_formed events = true ->
  forall st,
    exists sr,
      Server.sse_lines st (flat_map frame_lines (map fst events) ++ frame_lines DONE)
      = ((sr, (snd st ++ flat_map content_event (map snd events)
               ++ Server.closing sr)%list), true).
Proof.
  induction events as [|e events IH]; intros H st.
  - exists (fst st). cbn [map flat_map app frame_lines Server.sse_lines].
    now rewrite sse_line_done.
  - cbn [forallb] in H. apply andb_true_iff in H. destruct H as [He H].
    destruct (sse_line_delta e st He) as [sr Hl].
    destruct (IH H (sr, (snd st ++ content_event (snd e))%list)) as [sr' Hr].
    exists sr'.
    change (flat_map frame_lines (map fst (e :: events)) ++ frame_lines DONE)%list
      with ((data_prefix ++ fst e)%string :: "" ::
            (flat_map frame_lines (map fst events) ++ frame_lines DONE))%list.
    cbn [Server.sse_lines]. rewrite Hl, sse_line_blank, Hr.
    cbn [snd map flat_map]. now rewrite <- !app_assoc.
Qed.

Lemma closing_no_content (sr : value) : filter is_content (Server.closing sr) = [].
Proof.
  unfold Server.closing. destruct (truthy sr); [|reflexivity].
  now destruct (formatSearchResults sr).
Qed.

Lemma content_events_filter (deltas : list string) :
  filter is_content (flat_map content_event deltas)
  = map (fun d => EContent (Some (JStr d)))
        (filter (fun d => negb (d =? "")) deltas).
Proof.
  induction deltas as [|d deltas IH]; [reflexivity|].
  cbn [flat_map filter]. rewrite filter_app, IH. unfold content_event.
  now destruct (d =? "").
Qed.

End WithRuntime.
End LiveContentFacts.

Import LiveContentFacts.

(** X12. On a well-formed stream that ends in the sentinel, however
    chunked and whether or not a later read would fail, the re-emitted
    stream of server.ts carries one content event per non-empty text delta,
    in arrival order, each with the delta as it came, and no other content
    event. *)
Theorem live_stream_content_per_delta {rt : Runtime}
  (events : list (string * string)) (chunks : list string)
  (code : nat) (reason : string) (failure : option error) :
  forallb well_formed events = true ->
  joined chunks = sse_stream (map fst events) ->
  exists written,
    Server.streamPerplexityToSSE (mkResponse code reason (Some (mkBody chunks failure)))
    = Ok written
    /\ filter is_content written
       = map (fun d => EContent (Some (JStr d)))
             (filter (fun d => negb (d =? "")) (map snd events)).
Proof.
  intros Hwf E. unfold Server.streamPerplexityToSSE.
  cbn [Net.body Net.chunks Net.failure].
  rewrite (sse_reads_lines chunks failure "" (None, []) eq_refl eq_refl).
  change ("" ++ joined chunks) with (joined chunks). rewrite E.
  destruct (lines_of_stream _ (well_formed_ok events Hwf)) as [Hl _]. rewrite Hl.
  destruct (sse_lines_frames events Hwf (None, [])) as [sr Hs]. rewrite Hs.
  eexists. split; [reflexivity|].
  cbn [finish snd app]. rewrite filter_app, closing_no_content, app_nil_r.
  apply content_events_filter.
Qed.

Lemma live_stream_content_per_delta_witness :
  exists written,
    Server.streamPerplexityToSSE (rt := Sample.runtime)
      (mkResponse 200 "OK"
         (Some (mkBody (Sample.chop 200 13 (sse_stream (map fst Sample.hello_events)))
                       None)))
    = Ok written
    /\ filter is_content written
       = [EContent (Some (JStr "Hel")); EContent (Some (JStr "lo"))].
Proof.
  exact (live_stream_content_per_delta (rt := Sample.runtime) Sample.hello_events
           (Sample.chop 200 13 (sse_stream (map fst Sample.hello_events)))
           200 "OK" None eq_refl eq_refl).
Defined.

(** ** [retryFetch], attempt by attempt *)

Module AttemptFacts.
Import Retry RetryFacts.

Section Loop.
Variable attempt_outcome : nat -> result Response.
Variable signal_aborted : nat -> bool.
Variable maxAttempts : nat.

Lemma not_decisive_goes_on (fuel attempt : nat) :
  attempt < maxAttempts - 1 ->
  signal_aborted attempt = false ->
  decisive (attempt_outcome attempt) = false ->
  loop attempt_outcome signal_aborted maxAttempts (S fuel) attempt
  = (fst (loop attempt_outcome signal_aborted maxAttempts fuel (S attempt)),
     S (snd (loop attempt_outcome signal_aborted maxAttempts fuel (S attempt)))).
Proof.
  intros Hlt Ha Hd. cbn [loop].
  rewrite less_of_nat, is_last_of_nat by lia.
  destruct (Nat.ltb_spec attempt maxAttempts) as [_|Hge]; [|lia].
  rewrite Ha. unfold decisive in Hd.
  destruct (Nat.eqb_spec attempt (maxAttempts - 1)) as [Heq|_]; [lia|].
  destruct (attempt_outcome attempt) as [response|error]; rewrite Hd;
    now destruct (loop attempt_outcome signal_aborted maxAttempts fuel (S attempt)).
Qed.

Lemma settles_at (k : nat) :
  k < maxAttempts ->
  signal_aborted k = false ->
  decisive (attempt_outcome k) = true \/ k = maxAttempts - 1 ->
  forall fuel,
    loop attempt_outcome signal_aborted maxAttempts (S fuel) k
    = (exit_of (attempt_outcome k), 1).
Proof.
  intros Hlt Ha Hk fuel. cbn [loop].
  rewrite less_of_nat, is_last_of_nat by lia.
  destruct (Nat.ltb_spec k maxAttempts) as [_|Hge]; [|lia].
  rewrite Ha. unfold decisive in Hk.
  destruct (attempt_outcome k) as [response|error]; cbn [exit_of].
  - destruct Hk as [Hd|Hlast]; [now rewrite Hd|].
    destruct (ok response || negb (has RETRYABLE_STATUS (status response)));
      [reflexivity|].
    now rewrite (proj2 (Nat.eqb_eq _ _) Hlast).
  - destruct Hk as [Hd|Hlast]; [now rewrite Hd|].
    destruct (is_abort error); [reflexivity|].
    now rewrite (proj2 (Nat.eqb_eq _ _) Hlast).
Qed.

Lemma runs_to (k : nat) :
  k < maxAttempts ->
  (forall j, j <= k -> signal_aborted j = false) ->
  (forall j, j < k -> decisive (attempt_outcome j) = false) ->
  decisive (attempt_outcome k) = true \/ k = maxAttempts - 1 ->
  forall fuel attempt,
    attempt <= k -> k - attempt < fuel ->
    loop attempt_outcome signal_aborted maxAttempts fuel attempt
    = (exit_of (attempt_outcome k), S k - attempt).
Proof.
  intros Hlt Ha Hd Hk.
  induction fuel as [|fuel IH]; intros attempt Hle Hf; [lia|].
  destruct (Nat.eq_dec attempt k) as [->|Hne].
  - rewrite settles_at; auto. f_equal. lia.
  - rewrite not_decisive_goes_on; [|lia|apply Ha; lia|apply Hd; lia].
    rewrite IH by lia. cbn [fst snd]. f_equal. lia.
Qed.

Lemma aborts_at (k : nat) :
  k < maxAttempts ->
  (forall j, j < k -> signal_aborted j = false) ->
  (forall j, j < k -> decisive (attempt_outcome j) = false) ->
  signal_aborted k = true ->
  forall fuel attempt,
    attempt <= k -> k - attempt < fuel ->
    loop attempt_outcome signal_aborted maxAttempts fuel attempt
    = (Raised AbortError, k - attempt).
Proof.
  intros Hlt Ha Hd Hk.
  induction fuel as [|fuel IH]; intros attempt Hle Hf; [lia|].
  destruct (Nat.eq_dec attempt k) as [->|Hne].
  - cbn [loop]. rewrite less_of_nat.
    destruct (Nat.ltb_spec k maxAttempts) as [_|Hge]; [|lia].
    rewrite Hk. f_equal. lia.
  - rewrite not_decisive_goes_on; [|lia|apply Ha; lia|apply Hd; lia].
    rewrite IH by lia. cbn [fst snd]. f_equal. lia.
Qed.

End Loop.
End AttemptFacts.

Import AttemptFacts.

(** X13. [retryFetch] ends at the first attempt that is a success, a
    status outside the retryable set or an abort error, or else at the last
    attempt allowed: what that attempt gave is returned (a response) or
    thrown (an error), after exactly as many calls as attempts were made.
    So an error that is not an abort is retried like a retryable status,
    and when the attempts run out the last response is returned as it is
    and the last error thrown as it is. ([maxAttempts] an integer, the
    loop test evaluated at most [maxAttempts + 1] times.) *)
Theorem retry_ends_at_first_decisive
  (attempt_outcome : nat -> result Response) (signal_aborted : nat -> bool)
  (maxAttempts k : nat) :
  k < maxAttempts ->
  (forall j, j <= k -> signal_aborted j = false) ->
  (forall j, j < k -> decisive (attempt_outcome j) = false) ->
  decisive (attempt_outcome k) = true \/ k = maxAttempts - 1 ->
  retryFetch attempt_outcome signal_aborted maxAttempts (S maxAttempts)
  = (exit_of (attempt_outcome k), S k).
Proof.
  intros Hlt Ha Hd Hk. unfold retryFetch.
  rewrite (runs_to attempt_outcome signal_aborted maxAttempts k Hlt Ha Hd Hk)
    by lia.
  f_equal; lia.
Qed.

Lemma retry_ends_at_first_decisive_witness :
  retryFetch (Sample.script (Throw Sample.fetch_failed) [Ok (Sample.answer 200 "OK")])
             Sample.never_aborted 2 3
  = (Returned (Sample.answer 200 "OK"), 2).
Proof.
  refine (retry_ends_at_first_decisive
            (Sample.script (Throw Sample.fetch_failed) [Ok (Sample.answer 200 "OK")])
            Sample.never_aborted 2 1 (le_n 2) (fun _ _ => eq_refl) _ (or_introl eq_refl)).
  intros j Hj. destruct j as [|j]; [reflexivity|].
  exfalso. exact (Nat.nlt_0_r j (proj2 (Nat.succ_lt_mono j 0) Hj)).
Defined.

(** X14. When the abort signal is found set at the start of an attempt,
    the attempts before it having been inconclusive, [retryFetch] throws
    the abort error without making that call: the calls made are those of
    the attempts before. *)
Theorem retry_stops_on_abort_signal
  (attempt_outcome : nat -> result Response) (signal_aborted : nat -> bool)
  (maxAttempts k : nat) :
  k < maxAttempts ->
  (forall j, j < k -> signal_aborted j = false) ->
  (forall j, j < k -> decisive (attempt_outcome j) = false) ->
  signal_aborted k = true ->
  retryFetch attempt_outcome signal_aborted maxAttempts (S maxAttempts)
  = (Raised AbortError, k).
Proof.
  intros Hlt Ha Hd Hk. unfold retryFetch.
  rewrite (aborts_at attempt_outcome signal_aborted maxAttempts k Hlt Ha Hd Hk)
    by lia.
  f_equal; lia.
Qed.

Lemma retry_stops_on_abort_signal_witness :
  retryFetch (Sample.script (Ok (Sample.answer 503 "Service Unavailable")) [])
             (fun j => Nat.eqb j 1) 2 3
  = (Raised AbortError, 1).
Proof.
  refine (retry_stops_on_abort_signal
            (Sample.script (Ok (Sample.answer 503 "Service Unavailable")) [])
            (fun j => Nat.eqb j 1) 2 1 (le_n 2) _ _ eq_refl);
    intros j Hj; (destruct j as [|j]; [reflexivity|]);
    exfalso; exact (Nat.nlt_0_r j (proj2 (Nat.succ_lt_mono j 0) Hj)).
Defined.

(** ** What the entries send upstream *)

Module TrafficFacts.
Import Retry RetryFacts DispatchFacts.

Lemma nothing_resent (limit : nat) : resent limit [].
Proof.
  exists (mkRequestBody "" None false None None None None None None), 0.
  split; [reflexivity|lia].
Qed.

Lemma once_resent (limit : nat) (body : RequestBody) :
  1 <= limit -> resent limit [body].
Proof. intros H. exists body, 1. split; [reflexivity|exact H]. Qed.

Section WithRuntime.
Context {rt : Runtime}.

Lemma send_bounded (env : Env) (body : RequestBody) : snd (Part001.send env body) <= 2.
Proof.
  unfold Part001.send, retryFetch.
  apply (loop_calls (fun k => fetch env k body) (aborted env) 2 3 0).
Qed.

Lemma Part001_resent (env : Env) (query : value) (options : Options) :
  resent 2 (snd (Part001.performSearch env query options)).
Proof.
  rewrite Part001_sends_same. eexists _, _. split; [reflexivity|apply send_bounded].
Qed.

Lemma Part000_resent (env : Env) (query : value) (options : Options) :
  resent 2 (snd (Part000.performSearch env query options)).
Proof.
  unfold Part000.performSearch.
  pose proof (send_bounded env (Part000.request_body query options)) as H.
  destruct (Part001.send env (Part000.request_body query options)) as [e n].
  cbn [snd] in *. eexists _, _. split; [reflexivity|exact H].
Qed.

Lemma Index_CallTool_resent (env : Env) (name : string) (args : value) :
  resent 1 (snd (Index.CallTool env name args)).
Proof.
  unfold Index.CallTool.
  destruct (negb (truthy args)); [apply nothing_resent|].
  destruct (name =? TOOL); [|apply nothing_resent].
  destruct (typeof (get_opt args "query")); try apply nothing_resent.
  pose proof (Index_sends_once env (get_opt args "query") (Index.options_of args)) as H.
  destruct (Index.performSearch env (get_opt args "query") (Index.options_of args))
    as [r sent]. cbn [snd] in H. subst sent.
  destruct r; cbn [snd]; now apply once_resent.
Qed.

Lemma Part001_CallTool_resent (env : Env) (name : string) (args : value) :
  resent 2 (snd (Part001.CallTool env name args)).
Proof.
  unfold Part001.CallTool.
  destruct (negb (truthy args)); [apply nothing_resent|].
  destruct (name =? TOOL); [|apply nothing_resent].
  destruct (typeof (get_opt args "query")); try apply nothing_resent.
  pose proof (Part001_resent env (get_opt args "query") (Part001.options_of args)) as H.
  destruct (Part001.performSearch env (get_opt args "query") (Part001.options_of args))
    as [r sent]. cbn [snd] in H.
  destruct r; exact H.
Qed.

Lemma Server_tools_call_resent (env : Env) (id args : value) :
  resent 1 (snd (Server.tools_call env id args)).
Proof.
  unfold Server.tools_call.
  destruct (destructure args "args" "query") as [query|]; [|apply nothing_resent].
  unfold Server.performSearch. cbn [snd]. now apply once_resent.
Qed.

Lemma Part000_tools_call_resent (env : Env) (id args : value) :
  resent 2 (snd (Part000.tools_call env id args)).
Proof.
  unfold Part000.tools_call.
  destruct (query <- destructure args "args" "query";; _ <- Part000.substring_probe query;; Ok query)
    as [query|]; [|apply nothing_resent].
  pose proof (Part000_resent env query (Part000.options_of args true)) as H.
  destruct (Part000.performSearch env query (Part000.options_of args true))
    as [r sent]. exact H.
Qed.

Lemma Server_mcp_resent (env : Env) (req_body : value) :
  resent 1 (snd (Server.mcp env req_body)).
Proof.
  unfold Server.mcp.
  destruct (method <- destructure req_body "req.body" "method";;
            params <- destructure req_body "req.body" "params";;
            id <- destructure req_body "req.body" "id";; Ok (method, params, id)) as [[[method params] id]|];
    [|apply nothing_resent].
  destruct (Server.is_string method "initialize"); [apply nothing_resent|].
  destruct (Server.is_string method "tools/list"); [apply nothing_resent|].
  destruct (Server.is_string method "tools/call"); [|apply nothing_resent].
  destruct (name <- destructure params "params" "name";;
            args <- destructure params "params" "arguments";; Ok (name, args))
    as [[name args]|]; [|apply nothing_resent].
  destruct (Server.is_string name TOOL); [|apply nothing_resent].
  apply Server_tools_call_resent.
Qed.

Lemma Part000_mcp_resent (env : Env) (req_body : value) :
  resent 2 (snd (Part000.mcp env req_body)).
Proof.
  unfold Part000.mcp.
  destruct (method <- destructure req_body "req.body" "method";;
            params <- destructure req_body "req.body" "params";;
            id <- destructure req_body "req.body" "id";; Ok (method, params, id)) as [[[method params] id]|];
    [|apply nothing_resent].
  destruct (Server.is_string method "initialize"); [apply nothing_resent|].
  destruct (Server.is_string method "tools/list"); [apply nothing_resent|].
  destruct (Server.is_string method "tools/call"); [|apply nothing_resent].
  destruct (name <- destructure params "params" "name";;
            args <- destructure params "params" "arguments";; Ok (name, args))
    as [[name args]|]; [|apply nothing_resent].
  destruct (Server.is_string name TOOL); [|apply nothing_resent].
  apply Part000_tools_call_resent.
Qed.

Lemma Server_mcp_call_resent (env : Env) (req_body : value) :
  resent 1 (snd (Server.mcp_call env req_body)).
Proof.
  unfold Server.mcp_call.
  destruct (name <- destructure req_body "req.body" "name";;
            args <- destructure req_body "req.body" "arguments";;
            Ok (name, args)) as [[name args]|]; [|apply nothing_resent].
  destruct (negb (truthy args)); [apply nothing_resent|].
  destruct (Server.is_string name TOOL); [|apply nothing_resent].
  destruct (typeof (get_opt args "query")); try apply nothing_resent.
  unfold Server.performSearch. cbn [snd]. now apply once_resent.
Qed.

Lemma Part000_mcp_call_resent (env : Env) (req_body : value) :
  resent 2 (snd (Part000.mcp_call env req_body)).
Proof.
  unfold Part000.mcp_call.
  destruct (name <- destructure req_body "req.body" "name";;
            args <- destructure req_body "req.body" "arguments";;
            Ok (name, args)) as [[name args]|]; [|apply nothing_resent].
  destruct (negb (truthy args)); [apply nothing_resent|].
  destruct (Server.is_string name TOOL); [|apply nothing_resent].
  destruct (typeof (get_opt args "query")); try apply nothing_resent.
  destruct (ToString (get_opt args "stream")); [|apply nothing_resent].
  pose proof (Part000_resent env (get_opt args "query")
                (Part000.options_of args (Server.shouldStream_of args))) as H.
  destruct (Part000.performSearch env (get_opt args "query")
              (Part000.options_of args (Server.shouldStream_of args))) as [r sent].
  exact H.
Qed.

End WithRuntime.
End TrafficFacts.

Import TrafficFacts.

(** X15. Whatever the request and whatever the upstream does, an entry
    sends at most one request upstream in index.ts and server.ts and at
    most two in part_001 and part_000, and when it sends twice it sends
    the same body twice. *)
Theorem upstream_requests_bounded {rt : Runtime}
  (env : Env) (name : string) (args req_body : value) :
  resent 1 (snd (Index.CallTool env name args))
  /\ resent 2 (snd (Part001.CallTool env name args))
  /\ resent 1 (snd (Server.mcp env req_body))
  /\ resent 1 (snd (Server.mcp_call env req_body))
  /\ resent 2 (snd (Part000.mcp env req_body))
  /\ resent 2 (snd (Part000.mcp_call env req_body)).
Proof.
  repeat split.
  - apply Index_CallTool_resent.
  - apply Part001_CallTool_resent.
  - apply Server_mcp_resent.
  - apply Server_mcp_call_resent.
  - apply Part000_mcp_resent.
  - apply Part000_mcp_call_resent.
Qed.

(** ** What reaches the upstream API, and what comes back after retries *)

Module RoutingFacts.
Import Retry RetryFacts AttemptFacts DispatchFacts.

Section WithRuntime.
Context {rt : Runtime}.

Lemma get_is_get_opt (v : value) (p : string) (x : value) :
  get v p = Ok x -> get_opt v p = x.
Proof.
  unfold get, get_opt. destruct v as [[]|]; intros H; inversion H; reflexivity.
Qed.

Lemma destructure_is_get_opt (v : value) (src p : string) (x : value) :
  destructure v src p = Ok x -> get_opt v p = x.
Proof.
  unfold destructure, get_opt. destruct v as [[]|]; intros H; inversion H; reflexivity.
Qed.

Lemma Server_mcp_untargeted (env : Env) (req_body : value) :
  targets_tool req_body = false -> snd (Server.mcp env req_body) = [].
Proof.
  unfold targets_tool, Server.mcp. intros H.
  destruct (destructure req_body "req.body" "method") as [method|] eqn:Em; cbn [bind]; [|reflexivity].
  destruct (destructure req_body "req.body" "params") as [params|] eqn:Ep; cbn [bind]; [|reflexivity].
  destruct (destructure req_body "req.body" "id") as [id|]; cbn [bind]; [|reflexivity].
  rewrite (destructure_is_get_opt _ _ _ _ Em), (destructure_is_get_opt _ _ _ _ Ep) in H.
  destruct (Server.is_string method "initialize"); [reflexivity|].
  destruct (Server.is_string method "tools/list"); [reflexivity|].
  destruct (Server.is_string method "tools/call"); [|reflexivity].
  cbn [andb] in H.
  destruct (destructure params "params" "name") as [name|] eqn:En; cbn [bind]; [|reflexivity].
  destruct (destructure params "params" "arguments") as [args|]; cbn [bind]; [|reflexivity].
  rewrite (destructure_is_get_opt _ _ _ _ En) in H. now rewrite H.
Qed.

Lemma Part000_mcp_untargeted (env : Env) (req_body : value) :
  targets_tool req_body = false -> snd (Part000.mcp env req_body) = [].
Proof.
  unfold targets_tool, Part000.mcp. intros H.
  destruct (destructure req_body "req.body" "method") as [method|] eqn:Em; cbn [bind]; [|reflexivity].
  destruct (destructure req_body "req.body" "params") as [params|] eqn:Ep; cbn [bind]; [|reflexivity].
  destruct (destructure req_body "req.body" "id") as [id|]; cbn [bind]; [|reflexivity].
  rewrite (destructure_is_get_opt _ _ _ _ Em), (destructure_is_get_opt _ _ _ _ Ep) in H.
  destruct (Server.is_string method "initialize"); [reflexivity|].
  destruct (Server.is_string method "tools/list"); [reflexivity|].
  destruct (Server.is_string method "tools/call"); [|reflexivity].
  cbn [andb] in H.
  destruct (destructure params "params" "name") as [name|] eqn:En; cbn [bind]; [|reflexivity].
  destruct (destructure params "params" "arguments") as [args|]; cbn [bind]; [|reflexivity].
  rewrite (destructure_is_get_opt _ _ _ _ En) in H. now rewrite H.
Qed.

Lemma Part000_mcp_tools_call (env : Env) (id : json) (args : json) :
  Part000.mcp env (rpc_call id (Some args)) = Part000.tools_call env (Some id) (Some args).
Proof. reflexivity. Qed.

Lemma Part000_tools_call_stream (env : Env) (id : value) (fields : list (string * json)) :
  Part000.tools_call env id (Some (JObj fields))
  = Part000.tools_call env id (Some (JObj (delete "stream" fields))).
Proof.
  unfold Part000.tools_call, Part000.options_of. cbn [destructure get_opt own].
  now rewrite !lookup_delete_other by reflexivity.
Qed.

Lemma Part000_tools_call_streams (env : Env) (id args : value) :
  Forall (fun b => b_stream b = true) (snd (Part000.tools_call env id args)).
Proof.
  unfold Part000.tools_call.
  destruct (query <- destructure args "args" "query";; _ <- Part000.substring_probe query;; Ok query)
    as [query|]; [|constructor].
  unfold Part000.performSearch.
  destruct (Part001.send env (Part000.request_body query (Part000.options_of args true)))
    as [e n]. cbn [snd].
  apply Forall_forall. intros b Hb. apply repeat_spec in Hb. now subst b.
Qed.

(** The outcome of [retryFetch] with two attempts, and the calls made. *)
Lemma send_first_abort (env : Env) (body : RequestBody) (e : error) :
  aborted env 0 = false -> fetch env 0 body = Throw e -> is_abort e = true ->
  Part001.send env body = (Raised e, 1).
Proof.
  intros Ha Hf He. unfold Part001.send, retryFetch.
  assert (H1 : forall j, j <= 0 -> aborted env j = false)
    by (intros j Hj; now replace j with 0 by lia).
  assert (H2 : forall j, j < 0 -> decisive (fetch env j body) = false)
    by (intros j Hj; lia).
  assert (H3 : decisive (fetch env 0 body) = true \/ 0 = 2 - 1)
    by (left; unfold decisive; now rewrite Hf).
  rewrite (runs_to (fun k => fetch env k body) (aborted env) 2 0
             (Nat.lt_0_succ 1) H1 H2 H3 3 0 (le_n 0) (Nat.lt_0_succ 2)).
  now rewrite Hf.
Qed.

Lemma send_exhausted (env : Env) (body : RequestBody) :
  aborted env 0 = false -> aborted env 1 = false ->
  decisive (fetch env 0 body) = false ->
  Part001.send env body = (exit_of (fetch env 1 body), 2).
Proof.
  intros Ha0 Ha1 Hd. unfold Part001.send, retryFetch.
  assert (H1 : forall j, j <= 1 -> aborted env j = false)
    by (intros j Hj; destruct j as [|[|j]]; [assumption|assumption|lia]).
  assert (H2 : forall j, j < 1 -> decisive (fetch env j body) = false)
    by (intros j Hj; now replace j with 0 by lia).
  assert (H3 : decisive (fetch env 1 body) = true \/ 1 = 2 - 1) by now right.
  assert (L1 : 1 < 2) by lia. assert (L2 : 0 <= 1) by lia. assert (L3 : 1 - 0 < 3) by lia.
  now rewrite (runs_to (fun k => fetch env k body) (aborted env) 2 1
                 L1 H1 H2 H3 3 0 L2 L3).
Qed.

End WithRuntime.
End RoutingFacts.

Import RoutingFacts.

(** X16. The [/mcp] endpoint of either HTTP server sends nothing upstream
    unless the request is a [tools/call] that names this tool: the
    handshake, the tool listing, unknown methods, unknown tools and bodies
    it cannot read stay local. *)
Theorem only_tool_calls_go_upstream {rt : Runtime} (env : Env) (req_body : value) :
  targets_tool req_body = false ->
  snd (Server.mcp env req_body) = [] /\ snd (Part000.mcp env req_body) = [].
Proof.
  intros H. split; [now apply Server_mcp_untargeted|now apply Part000_mcp_untargeted].
Qed.

Lemma only_tool_calls_go_upstream_witness :
  snd (Server.mcp (rt := Sample.runtime) (Sample.always (Throw Sample.fetch_failed))
         (Some (JObj [("jsonrpc", JStr "2.0"); ("id", JNum 1%float);
                      ("method", JStr "initialize")])))
  = [].
Proof.
  exact (proj1 (only_tool_calls_go_upstream (rt := Sample.runtime)
                  (Sample.always (Throw Sample.fetch_failed))
                  (Some (JObj [("jsonrpc", JStr "2.0"); ("id", JNum 1%float);
                               ("method", JStr "initialize")]))
                  eq_refl)).
Defined.

(** X17. In [tools/call] of part_000 the caller's [stream] argument has no
    effect: the reply and the requests sent are those of the same call
    without it, and every request sent asks the upstream API to stream. *)
Theorem tools_call_ignores_stream_argument {rt : Runtime}
  (env : Env) (id : json) (fields : list (string * json)) :
  Part000.mcp env (rpc_call id (Some (JObj fields)))
  = Part000.mcp env (rpc_call id (Some (JObj (delete "stream" fields))))
  /\ Forall (fun b => b_stream b = true)
            (snd (Part000.mcp env (rpc_call id (Some (JObj fields))))).
Proof.
  rewrite !Part000_mcp_tools_call. split.
  - apply Part000_tools_call_stream.
  - apply Part000_tools_call_streams.
Qed.

(** X18. In part_001 and part_000, when the first attempt ends in an
    abort error (the deadline fired while it was in flight),
    [performSearch] throws the timeout message with the deadline in
    milliseconds, after that one call: an abort is not retried. *)
Theorem abort_is_reported_as_timeout {rt : Runtime}
  (env : Env) (query : value) (options : Options) (e : error) :
  aborted env 0 = false ->
  is_abort e = true ->
  (fetch env 0 (Part001.request_body query options) = Throw e ->
   Part001.performSearch env query options
   = (Throw (Error ("Perplexity API timeout after "
                    ++ Number_toString (Part001.timeout_of options) ++ "ms")),
      [Part001.request_body query options]))
  /\ (fetch env 0 (Part000.request_body query options) = Throw e ->
      Part000.performSearch env query options
      = (Throw (Error ("Perplexity API timeout after "
                       ++ Number_toString (Part001.timeout_of options) ++ "ms")),
         [Part000.request_body query options])).
Proof.
  intros Ha He. split; intros Hf.
  - unfold Part001.performSearch. rewrite (send_first_abort env _ e Ha Hf He).
    unfold Part001.fetch_error. now rewrite He.
  - unfold Part000.performSearch. rewrite (send_first_abort env _ e Ha Hf He).
    unfold Part001.fetch_error. now rewrite He.
Qed.

Lemma abort_is_reported_as_timeout_witness :
  Part001.performSearch (rt := Sample.runtime) (Sample.always (Throw AbortError))
    (Some (JStr "q")) (Part001.options_of (Some (JObj [("query", JStr "q")])))
  = (Throw (Error "Perplexity API timeout after 15000ms"),
     [mkRequestBody "sonar" (Some (JStr "q")) true None None None None None None]).
Proof.
  exact (proj1 (abort_is_reported_as_timeout (rt := Sample.runtime)
                  (Sample.always (Throw AbortError)) (Some (JStr "q"))
                  (Part001.options_of (Some (JObj [("query", JStr "q")])))
                  AbortError eq_refl eq_refl)
               eq_refl).
Defined.

(** X19. In part_000, when the first attempt is inconclusive
    (a retryable status, or an error that is not an abort) and the signal
    is not set, exactly two requests are sent and the second attempt
    decides alone: its response if it is ok goes on to be read, its status
    if it is not ok is what the thrown upstream error names, and its error
    is what the thrown network error (or timeout) names. Nothing of the
    first attempt is reported. *)
Theorem second_attempt_decides {rt : Runtime}
  (env : Env) (query : value) (options : Options) :
  aborted env 0 = false -> aborted env 1 = false ->
  decisive (fetch env 0 (Part000.request_body query options)) = false ->
  snd (Part000.performSearch env query options)
  = [Part000.request_body query options; Part000.request_body query options]
  /\ match fetch env 1 (Part000.request_body query options) with
     | Throw err =>
         fst (Part000.performSearch env query options)
         = Throw (Part001.fetch_error options err)
     | Ok response =>
         ok response = false ->
         fst (Part000.performSearch env query options)
         = Throw (Index.upstream_error response)
     end.
Proof.
  intros Ha0 Ha1 Hd. unfold Part000.performSearch.
  rewrite (send_exhausted env _ Ha0 Ha1 Hd). split; [reflexivity|].
  destruct (fetch env 1 (Part000.request_body query options)) as [response|err];
    cbn [exit_of fst]; [|reflexivity].
  intros Hok. now rewrite Hok.
Qed.

Lemma second_attempt_decides_witness :
  snd (Part000.performSearch (rt := Sample.runtime)
         (Sample.always (Ok (Sample.answer 503 "Service Unavailable")))
         (Some (JStr "q")) (Part000.options_of (Some (JObj [("query", JStr "q")])) true))
  = [mkRequestBody "sonar" (Some (JStr "q")) true None None None None None None;
     mkRequestBody "sonar" (Some (JStr "q")) true None None None None None None].
Proof.
  exact (proj1 (second_attempt_decides (rt := Sample.runtime)
                  (Sample.always (Ok (Sample.answer 503 "Service Unavailable")))
                  (Some (JStr "q"))
                  (Part000.options_of (Some (JObj [("query", JStr "q")])) true)
                  eq_refl eq_refl eq_refl)).
Defined.

(** ** Replies of part_000 *)

Module ReplyFacts.

Section WithRuntime.
Context {rt : Runtime}.






End WithRuntime.
End ReplyFacts.

Import ReplyFacts.


(** X21. A call without a string [query] sends nothing upstream and is
    answered with an error wherever the query is looked at first: the two
    stdio handlers (an [isError] result), [/mcp/call] of both HTTP servers
    (status 400), and [tools/call] of part_000 (a JSON-RPC internal error,
    raised by [query.substring] in its log line). *)
Theorem query_checked_before_upstream {rt : Runtime} (env : Env) (args id : value) :
  typeof (get_opt args "query") <> T_string ->
  (snd (Index.CallTool env TOOL args) = []
   /\ isError (fst (Index.CallTool env TOOL args)) = true)
  /\ (snd (Part001.CallTool env TOOL args) = []
      /\ isError (fst (Part001.CallTool env TOOL args)) = true)
  /\ (snd (Server.mcp_call env (call_body args)) = []
      /\ exists msg, fst (Server.mcp_call env (call_body args))
                     = Sent 400 (ToolError msg true))
  /\ (snd (Part000.mcp_call env (call_body args)) = []
      /\ exists msg, fst (Part000.mcp_call env (call_body args))
                     = Sent 400 (ToolError msg true))
  /\ (snd (Part000.tools_call env id args) = []
      /\ exists msg, fst (Part000.tools_call env id args)
                     = Sent 200 (RpcError id InternalError msg)).
Proof. apply DispatchFacts.validated_entries. Qed.

Lemma query_checked_before_upstream_witness :
  snd (Part000.tools_call (rt := Sample.runtime)
         (Sample.always (Throw Sample.fetch_failed)) (Some (JNum 1%float))
         (Some (JObj [("query", JNum 5%float)]))) = [].
Proof.
  exact (proj1 (proj2 (proj2 (proj2 (proj2
    (query_checked_before_upstream (rt := Sample.runtime)
       (Sample.always (Throw Sample.fetch_failed))
       (Some (JObj [("query", JNum 5%float)])) (Some (JNum 1%float))
       (fun H : T_number = T_string =>
          eq_ind T_number
            (fun t => match t with T_number => True | _ => False end) I T_string H))))))).
Defined.

(** ** [basicAuthMiddleware] *)

Module AuthFacts.
Import Auth.

Lemma split_on_nonempty (sep : ascii) (s : string) : split_on sep s <> [].
Proof.
  destruct s as [|c rest]; cbn [split_on]; [discriminate|].
  destruct (Ascii.eqb c sep); [discriminate|].
  destruct (split_on sep rest); discriminate.
Qed.

(** No segment of a split holds the separator. *)
Lemma split_on_segments (sep : ascii) (s : string) :
  Forall (fun seg => has_char sep seg = false) (split_on sep s).
Proof.
  induction s as [|c rest IH]; cbn [split_on]; [repeat constructor|].
  destruct (Ascii.eqb c sep) eqn:E.
  - constructor; [reflexivity|exact IH].
  - destruct (split_on sep rest) as [|seg segs]; [repeat constructor; cbn; now rewrite E|].
    inversion IH as [|? ? Hseg Hsegs]; subst. constructor; [|exact Hsegs].
    cbn [has_char]. now rewrite E, Hseg.
Qed.

(** Splitting [a ++ sep ++ rest] when [a] holds no separator. *)
Lemma split_on_first (sep : ascii) (a rest : string) :
  has_char sep a = false ->
  split_on sep (a ++ String sep rest) = a :: split_on sep rest.
Proof.
  induction a as [|c a IH]; intros H.
  - cbn [append split_on]. now rewrite Ascii.eqb_refl.
  - cbn [has_char] in H. apply orb_false_iff in H. destruct H as [Hc Ha].
    cbn [append split_on]. rewrite Hc, (IH Ha). reflexivity.
Qed.

Lemma nth_error_Forall {X} (P : X -> Prop) (l : list X) (n : nat) (x : X) :
  Forall P l -> nth_error l n = Some x -> P x.
Proof.
  intros H. revert n. induction H as [|y l Hy _ IH]; intros [|n] E; try discriminate.
  - now inversion E; subst.
  - exact (IH n E).
Qed.

End AuthFacts.

Import Auth AuthFacts.

(** X22. If the configured password (or user name) holds a colon, no
    [Authorization] header passes [basicAuthMiddleware]: the decoded
    credentials are split at every colon and only the first two parts are
    compared. *)
Theorem colon_in_secret_locks_out
  (base64_decode : string -> string) (MCP_USER MCP_PASS : string)
  (authorization : option string) :
  has_char COLON MCP_USER || has_char COLON MCP_PASS = true ->
  match basicAuthMiddleware base64_decode MCP_USER MCP_PASS authorization with
  | Next => False
  | _ => True
  end.
Proof.
  intros H. unfold basicAuthMiddleware.
  destruct authorization as [authHeader|]; [|exact I].
  destruct ((authHeader =? "") || negb (Sse.startsWith "Basic " authHeader)); [exact I|].
  destruct (second (split_on SPACE authHeader)) as [token|]; [|exact I].
  pose proof (split_on_segments COLON (base64_decode token)) as Hsegs.
  destruct (hd_error (split_on COLON (base64_decode token))) as [username|] eqn:Eu;
    [|exact I].
  destruct (second (split_on COLON (base64_decode token))) as [password|] eqn:Ep;
    [|exact I].
  destruct (username =? MCP_USER) eqn:Hu; [|exact I].
  destruct (password =? MCP_PASS) eqn:Hp; [|exact I].
  cbn [negb orb]. apply String.eqb_eq in Hu, Hp. subst.
  assert (Hu : has_char COLON MCP_USER = false).
  { apply (nth_error_Forall _ _ 0 _ Hsegs).
    destruct (split_on COLON (base64_decode token)); [discriminate|exact Eu]. }
  assert (Hp : has_char COLON MCP_PASS = false)
    by exact (nth_error_Forall _ _ 1 _ Hsegs Ep).
  rewrite Hu, Hp in H. discriminate.
Qed.

Lemma colon_in_secret_locks_out_witness :
  match basicAuthMiddleware (fun _ => "admin:pa:ss") "admin" "pa:ss"
          (Some "Basic YWRtaW46cGE6c3M=") with
  | Next => False
  | _ => True
  end.
Proof.
  exact (colon_in_secret_locks_out (fun _ => "admin:pa:ss") "admin" "pa:ss"
           (Some "Basic YWRtaW46cGE6c3M=") eq_refl).
Defined.

(** X23. When neither secret holds a colon, a header ['Basic <token>']
    passes as soon as the decoded token starts with [user:password]
    followed by a colon: whatever comes after that colon is not looked
    at. *)
Theorem trailing_credentials_ignored
  (base64_decode : string -> string) (MCP_USER MCP_PASS token extra : string) :
  has_char COLON MCP_USER = false ->
  has_char COLON MCP_PASS = false ->
  has_char SPACE token = false ->
  base64_decode token = MCP_USER ++ String COLON (MCP_PASS ++ String COLON extra) ->
  basicAuthMiddleware base64_decode MCP_USER MCP_PASS (Some ("Basic " ++ token)) = Next.
Proof.
  intros Hu Hp Ht Hd. unfold basicAuthMiddleware.
  assert (Hs : split_on SPACE ("Basic " ++ token) = ["Basic"; token]).
  { change ("Basic " ++ token) with ("Basic" ++ String SPACE token).
    rewrite split_on_first by reflexivity.
    f_equal. clear Hd. induction token as [|c t IH]; [reflexivity|].
    cbn [has_char] in Ht. apply orb_false_iff in Ht. destruct Ht as [Hc Ht].
    cbn [split_on]. rewrite Hc, (IH Ht). reflexivity. }
  assert (Hpre : Sse.startsWith "Basic " ("Basic " ++ token) = true)
    by apply FrameFacts.prefix_app.
  assert (Hne : ("Basic " ++ token =? "") = false) by reflexivity.
  rewrite Hne, Hpre, Hs. cbn [negb orb second nth_error]. rewrite Hd.
  rewrite (split_on_first COLON MCP_USER _ Hu), (split_on_first COLON MCP_PASS _ Hp).
  cbn [hd_error second nth_error]. now rewrite !String.eqb_refl.
Qed.

Lemma trailing_credentials_ignored_witness :
  basicAuthMiddleware (fun _ => "admin:secret:anything") "admin" "secret"
    (Some "Basic YWRtaW46c2VjcmV0OmFueXRoaW5n") = Next.
Proof.
  exact (trailing_credentials_ignored (fun _ => "admin:secret:anything")
           "admin" "secret" "YWRtaW46c2VjcmV0OmFueXRoaW5n" "anything"
           eq_refl eq_refl eq_refl eq_refl).
Defined.

(** ** An upstream object without [choices], read without streaming *)

(** X24. When the upstream answers without streaming and its object has
    no [choices] (missing or [null]): index.ts and server.ts throw while
    building the answer, since [data.choices[0]] is read unguarded;
    part_000 reads it with [?.] and builds a content array with no text
    block at all (only the citation block when there are citations),
    unless the object has a truthy [body] key: it is then taken for a
    streaming response, and the call fails because [body.getReader] is
    not a function. *)
Theorem object_without_choices_unstreamed {rt : Runtime} (fields : list (string * json)) :
  no_choices (JObj fields) = true ->
  (exists e, Index.buffered_answer (JObj fields) = Throw e)
  /\ Part000.content_of (inr (JObj fields))
     = if truthy (lookup "body" fields)
       then Throw (not_a_function "perplexityResponse.body?.getReader")
       else (sources <- listed (lookup "search_results" fields) ;;
             Ok (if sources then [Resource (lookup "search_results" fields)] else [])).
Proof.
  unfold no_choices. cbn [own]. intros Hc. split.
  - unfold Index.buffered_answer, get. cbn [own bind].
    destruct (lookup "choices" fields) as [[]|]; try discriminate; cbn; eauto.
  - unfold Part000.content_of. cbn [truthy own andb].
    destruct (truthy (lookup "body" fields)); [reflexivity|].
    unfold Part000.content_of_data, get, Part000.index0_opt. cbn [own bind get_opt].
    destruct (lookup "choices" fields) as [[]|]; try discriminate; reflexivity.
Qed.

Lemma object_without_choices_unstreamed_witness :
  Part000.content_of (rt := Sample.runtime)
    (inr (JObj [("error", JStr "quota exceeded")])) = Ok [].
Proof.
  exact (proj2 (object_without_choices_unstreamed (rt := Sample.runtime)
                  [("error", JStr "quota exceeded")] eq_refl)).
Defined.

(** An upstream object with a [body] key, answered by [/mcp/call] of
    part_000 with status 500. *)
Example object_with_body_key :
  fst (Part000.mcp_call (rt := Sample2.runtime)
         (Sample.always
            (Ok (mkResponse 200 "OK" (Some (mkBody [Sample2.p_body] None)))))
         (call_body (Some (JObj [("query", JStr "q")]))))
  = Sent 500 (ToolError "perplexityResponse.body?.getReader is not a function" true).
Proof. reflexivity. Qed.
